(** * Schema validation core: extraction, comparison, type and data-quality
      checks, schema history and the per-sheet orchestrator.

    Shallow embedding of [tools.py] and of the validation logic of [main.py].
    Python dictionaries are insertion-ordered association lists, Python sets
    are [gset]s, a pandas frame is a header of labelled, typed columns over
    a list of indexed rows, and everything the code obtains from outside
    (user input, the language-model replies, the clock, the snapshot
    directory) lives in an explicit [World] that is threaded through the
    orchestrator. *)

From Stdlib Require Import ZArith QArith String Ascii List Bool Lia Sorting.Sorted.
From stdpp Require Import base gmap sets list strings pretty sorting.

Import ListNotations.

(** ** Python dictionaries with string keys *)

Module Dict.

Definition t (V : Type) : Type := list (string * V).

Definition keys {V} (d : t V) : list string := map fst d.

Fixpoint get {V} (k : string) (d : t V) : option V :=
  match d with
  | [] => None
  | (k', v) :: d' => if String.eqb k' k then Some v else get k d'
  end.

Definition mem {V} (k : string) (d : t V) : bool :=
  match get k d with Some _ => true | None => false end.

(** [d[k] = v]: overwrite in place when the key exists, append otherwise. *)
Fixpoint set {V} (k : string) (v : V) (d : t V) : t V :=
  match d with
  | [] => [(k, v)]
  | (k', v') :: d' =>
      if String.eqb k' k then (k', v) :: d' else (k', v') :: set k v d'
  end.

End Dict.

(** ** Schemas *)

(** One cell of a data frame. [CNull] is the missing value (NaN, None, NaT);
    a float is the rational it denotes, a timestamp its canonical text
    together with its count of nanoseconds since the epoch. *)
Inductive Cell : Type :=
| CNull
| CInt (z : Z)
| CFloat (q : Q)
| CStr (s : string)
| CBool (b : bool)
| CTime (iso : string) (ns : Z).

Record ColumnProfile : Type := {
  inferred_type : string;
  sample_values : list Cell;
  null_count : nat
}.

(** The dictionary returned by the extractor. [total_columns] is only set on
    the full profile, ["columns"] may be absent in a hand-made schema, and
    ["error"] is only set by the fault handler. *)
Record FileSchema : Type := {
  file_name : string;
  sheet_name : option string;
  total_rows : nat;
  total_columns : option nat;
  columns : option (Dict.t ColumnProfile);
  error : option string
}.

Record DBColumn : Type := {
  type : string;
  nullable : bool;
  primary_key : bool
}.

Definition DBSchema : Type := Dict.t DBColumn.

(** ** compare_schemas *)

(** ["error" in file_schema or "columns" not in file_schema] *)
Definition extraction_failed (file_schema : FileSchema) : bool :=
  match error file_schema, columns file_schema with
  | Some _, _ => true
  | None, None => true
  | None, Some _ => false
  end.

(** [set(file_schema.get('columns', {}).keys())] *)
Definition file_column_names (file_schema : FileSchema) : gset string :=
  list_to_set (Dict.keys (default [] (columns file_schema))).

Definition db_column_names (db_schema : DBSchema) : gset string :=
  list_to_set (Dict.keys db_schema).

(** The early return spells its two keys differently from the normal
    return; both spellings are kept. [list(set)] is [elements]. The
    [except] clause answers arguments that are not dictionaries, which the
    types here rule out. *)
Definition compare_schemas (file_schema : FileSchema) (db_schema : DBSchema)
  : Dict.t (list string) :=
  if extraction_failed file_schema then
    [("missing_in_file", Dict.keys db_schema); ("extra_in_file", [])]
  else
    let file_columns := file_column_names file_schema in
    let db_columns := db_column_names db_schema in
    let missing_in_file := elements (db_columns ∖ file_columns) in
    let extra_in_file := elements (file_columns ∖ db_columns) in
    [("columns_missing_from_file", missing_in_file);
     ("columns_extra_in_file", extra_in_file)].

(** The list of columns a comparison reports as missing from the file, and
    as extra in the file, under either spelling of the key. *)
Definition reported_missing (r : Dict.t (list string)) : list string :=
  match Dict.get "columns_missing_from_file" r with
  | Some l => l
  | None => default [] (Dict.get "missing_in_file" r)
  end.

Definition reported_extra (r : Dict.t (list string)) : list string :=
  match Dict.get "columns_extra_in_file" r with
  | Some l => l
  | None => default [] (Dict.get "extra_in_file" r)
  end.

(** Names present in both schemas. *)
Definition matched_columns (file_schema : FileSchema) (db_schema : DBSchema)
  : gset string :=
  file_column_names file_schema ∩ db_column_names db_schema.

(** A schema that carries an error provides no columns. *)
Definition error_is_minimal (file_schema : FileSchema) : bool :=
  match error file_schema with
  | Some _ => match default [] (columns file_schema) with [] => true | _ => false end
  | None => true
  end.

(** ["error" in file_schema or not file_schema.get("columns")]: an error,
    or no column at all (key absent or empty mapping). *)
Definition unreadable (file_schema : FileSchema) : bool :=
  match error file_schema with
  | Some _ => true
  | None => match default [] (columns file_schema) with [] => true | _ => false end
  end.

(** ** Text operations of the Python string type, on byte strings *)

Module Text.

Definition is_upper (c : ascii) : bool :=
  let n := nat_of_ascii c in (65 <=? n)%nat && (n <=? 90)%nat.

Definition is_lower (c : ascii) : bool :=
  let n := nat_of_ascii c in (97 <=? n)%nat && (n <=? 122)%nat.

Definition is_digit (c : ascii) : bool :=
  let n := nat_of_ascii c in (48 <=? n)%nat && (n <=? 57)%nat.

(** [str.isspace] on one character: tab to carriage return, the four
    separators 28-31 and the blank. *)
Definition is_space (c : ascii) : bool :=
  let n := nat_of_ascii c in
  ((9 <=? n)%nat && (n <=? 13)%nat) || ((28 <=? n)%nat && (n <=? 32)%nat).

Definition is_alnum (c : ascii) : bool :=
  is_upper c || is_lower c || is_digit c.

Definition to_upper (c : ascii) : ascii :=
  if is_lower c then ascii_of_nat (nat_of_ascii c - 32) else c.

Definition to_lower (c : ascii) : ascii :=
  if is_upper c then ascii_of_nat (nat_of_ascii c + 32) else c.

Fixpoint map_chars (f : ascii -> ascii) (s : string) : string :=
  match s with
  | EmptyString => EmptyString
  | String c s' => String (f c) (map_chars f s')
  end.

Definition upper : string -> string := map_chars to_upper.
Definition lower : string -> string := map_chars to_lower.

Fixpoint lstrip (s : string) : string :=
  match s with
  | String c s' => if is_space c then lstrip s' else s
  | EmptyString => EmptyString
  end.

Fixpoint rstrip (s : string) : string :=
  match s with
  | EmptyString => EmptyString
  | String c s' =>
      match rstrip s' with
      | EmptyString => if is_space c then EmptyString else String c EmptyString
      | r => String c r
      end
  end.

Definition strip (s : string) : string := rstrip (lstrip s).

(** [s.split(sep)[0]]: the text before the first [sep]. *)
Fixpoint before (sep : ascii) (s : string) : string :=
  match s with
  | EmptyString => EmptyString
  | String c s' => if Ascii.eqb c sep then EmptyString else String c (before sep s')
  end.

(** [s.startswith(p)], returning the rest of [s]. *)
Fixpoint strip_prefix (p s : string) : option string :=
  match p, s with
  | EmptyString, _ => Some s
  | String a p', String b s' =>
      if Ascii.eqb a b then strip_prefix p' s' else None
  | String _ _, EmptyString => None
  end.

Definition starts_with (p s : string) : bool :=
  match strip_prefix p s with Some _ => true | None => false end.

(** [p in s] *)
Fixpoint contains (p s : string) : bool :=
  starts_with p s ||
  match s with
  | EmptyString => false
  | String _ s' => contains p s'
  end.

Definition ends_with (suffix s : string) : bool :=
  let n := String.length s in
  let k := String.length suffix in
  (k <=? n)%nat && String.eqb (String.substring (n - k) k s) suffix.

(** Ordering of [str] values: by code point, a proper prefix first. *)
Definition leb (a b : string) : bool := String.leb a b.

End Text.

(** ** Numeric literals *)

Module Numeric.

Definition digit_value (c : ascii) : Z := Z.of_nat (nat_of_ascii c - 48).

(** Longest run of decimal digits at the head of [s], with the rest. *)
Fixpoint span_digits (s : string) : string * string :=
  match s with
  | String c s' =>
      if Text.is_digit c
      then let '(d, r) := span_digits s' in (String c d, r)
      else (EmptyString, s)
  | EmptyString => (EmptyString, EmptyString)
  end.

Fixpoint digits_value (acc : Z) (s : string) : Z :=
  match s with
  | EmptyString => acc
  | String c s' => digits_value (10 * acc + digit_value c) s'
  end.

(** Value of [digits] or [digits.digits]: the fraction is scaled by the
    power of ten of its length. *)
Definition decimal_value (int_part frac_part : string) : Q :=
  let scale := Z.pow 10 (Z.of_nat (String.length frac_part)) in
  Qmake (digits_value 0 int_part * scale + digits_value 0 frac_part)
        (Z.to_pos scale).

(** Reads a signed decimal literal that fills the whole of [s]:
    an optional sign, digits, and an optional fraction. *)
Definition parse_unsigned (s : string) : option Q :=
  let '(ip, r) := span_digits s in
  match ip, r with
  | EmptyString, _ => None
  | _, EmptyString => Some (decimal_value ip EmptyString)
  | _, String "." r' =>
      let '(fp, r'') := span_digits r' in
      match fp, r'' with
      | String _ _, EmptyString => Some (decimal_value ip fp)
      | _, _ => None
      end
  | _, _ => None
  end.

Definition parse_signed (s : string) : option Q :=
  match s with
  | String "-" s' => Qopp <$> parse_unsigned s'
  | String "+" s' => parse_unsigned s'
  | _ => parse_unsigned s
  end.

(** The value pandas and [float] give to a piece of text: surrounding
    blanks are ignored, anything that is not a decimal literal has no
    value. *)
Definition of_text (s : string) : option Q := parse_signed (Text.strip s).

End Numeric.

(** ** Data frames *)

(** A column label is usually text; a label of another type never equals a
    database column name and only matters through its [str()] rendering. *)
Inductive Label : Type :=
| LStr (s : string)
| LOther (repr : string).

Definition label_str (l : Label) : string :=
  match l with LStr s => s | LOther r => r end.

Definition label_eqb (a b : Label) : bool :=
  match a, b with
  | LStr x, LStr y => String.eqb x y
  | LOther x, LOther y => String.eqb x y
  | _, _ => false
  end.

(** The storage types the CSV and Excel readers produce. *)
Inductive Dtype : Type := Int64 | Float64 | Object | Datetime64 | Boolean.

(** [str(dtype)] *)
Definition dtype_name (d : Dtype) : string :=
  match d with
  | Int64 => "int64"
  | Float64 => "float64"
  | Object => "object"
  | Datetime64 => "datetime64[ns]"
  | Boolean => "bool"
  end.

(** [pd.api.types.is_numeric_dtype]: integers, floats and booleans. *)
Definition is_numeric_dtype (d : Dtype) : bool :=
  match d with Int64 | Float64 | Boolean => true | Object | Datetime64 => false end.

Definition is_datetime64_any_dtype (d : Dtype) : bool :=
  match d with Datetime64 => true | _ => false end.

(** [dtype == 'object'] *)
Definition is_object (d : Dtype) : bool :=
  String.eqb (dtype_name d) "object".

(** Rows carry their index label, which survives row removal. *)
Record DataFrame : Type := {
  header : list (Label * Dtype);
  rows : list (Z * list Cell)
}.

Definition is_null (c : Cell) : bool :=
  match c with CNull => true | _ => false end.

(** The number a numeric cell holds (a boolean counts as 0 or 1). *)
Definition cell_number (c : Cell) : option Q :=
  match c with
  | CInt z => Some (inject_Z z)
  | CFloat q => Some q
  | CBool b => Some (if b then 1 else 0)%Q
  | _ => None
  end.

(** Python equality between two non-null cells: numbers by value, text by
    content, timestamps by instant. *)
Definition cell_eqb (a b : Cell) : bool :=
  match cell_number a, cell_number b with
  | Some x, Some y => Qeq_bool x y
  | None, None =>
      match a, b with
      | CStr s, CStr t => String.eqb s t
      | CTime _ m, CTime _ n => Z.eqb m n
      | _, _ => false
      end
  | _, _ => false
  end.

Module Frame.

(** [df.dropna(how='all')]: a row goes when every cell of it is null. *)
Definition dropna_all (df : DataFrame) : DataFrame :=
  {| header := header df;
     rows := List.filter (fun r => negb (forallb is_null (snd r))) (rows df) |}.

(** [df.empty]: no row or no column. *)
Definition empty (df : DataFrame) : bool :=
  match header df, rows df with
  | [], _ => true
  | _, [] => true
  | _, _ => false
  end.

Definition len (df : DataFrame) : nat := length (rows df).

Definition labels (df : DataFrame) : list Label := map fst (header df).

Definition index (df : DataFrame) : list Z := map fst (rows df).

(** Positions of the columns that carry label [l]. *)
Fixpoint positions_from (i : nat) (l : Label) (h : list (Label * Dtype))
  : list (nat * Dtype) :=
  match h with
  | [] => []
  | (l', d) :: h' =>
      if label_eqb l' l
      then (i, d) :: positions_from (S i) l h'
      else positions_from (S i) l h'
  end.

Definition positions (l : Label) (df : DataFrame) : list (nat * Dtype) :=
  positions_from 0 l (header df).

Definition column_at (j : nat) (df : DataFrame) : list Cell :=
  map (fun r => nth j (snd r) CNull) (rows df).

(** [df[l]] is a series when one column carries the label, and a frame
    when several do. *)
Inductive Item : Type :=
| Missing
| Series (dtype : Dtype) (values : list Cell)
| SubFrame.

Definition getitem (l : Label) (df : DataFrame) : Item :=
  match positions l df with
  | [] => Missing
  | [(j, d)] => Series d (column_at j df)
  | _ :: _ :: _ => SubFrame
  end.

(** [name in df.columns] *)
Definition has_column (name : string) (df : DataFrame) : bool :=
  existsb (fun l => label_eqb l (LStr name)) (labels df).

(** Number of columns that carry the name. *)
Definition multiplicity (name : string) (df : DataFrame) : nat :=
  length (positions (LStr name) df).

(** [df.rename(columns=mapper)]: a new frame, relabelled. *)
Definition rename (mapper : Dict.t Label) (df : DataFrame) : DataFrame :=
  {| header :=
       map (fun '(l, d) =>
              match l with
              | LStr s => (default l (Dict.get s mapper), d)
              | LOther _ => (l, d)
              end) (header df);
     rows := rows df |}.

(** [series.unique()]: first occurrences, in order. *)
Fixpoint unique (seen : list Cell) (l : list Cell) : list Cell :=
  match l with
  | [] => []
  | c :: l' =>
      if existsb (cell_eqb c) seen then unique seen l'
      else c :: unique (c :: seen) l'
  end.

Definition dropna (l : list Cell) : list Cell :=
  List.filter (fun c => negb (is_null c)) l.

Definition count (p : Cell -> bool) (l : list Cell) : nat :=
  length (List.filter p l).

End Frame.

(** ** extract_schema_from_df *)

Inductive Level : Type := Info | Warning | Error | Critical.

Definition LogRecord : Type := (Level * string)%type.

(** Live frame objects, by identity. *)
Definition Store : Type := gmap nat DataFrame.

(** [str(s) if isinstance(s, (pd.Timestamp, datetime)) else s] *)
Definition portable (c : Cell) : Cell :=
  match c with CTime iso _ => CStr iso | _ => c end.

Definition render_sheet (sheet : option string) : string :=
  match sheet with Some s => s | None => "None" end.

(** The profile of one column, or the attribute fault raised when the label
    selects several columns ([DataFrame] has no [unique]). *)
Definition profile_column (l : Label) (df : DataFrame) : string + ColumnProfile :=
  match Frame.getitem l df with
  | Frame.Series d values =>
      inr {| inferred_type := dtype_name d;
             sample_values := firstn 5 (map portable (Frame.unique [] (Frame.dropna values)));
             null_count := Frame.count is_null values |}
  | Frame.SubFrame => inl "'DataFrame' object has no attribute 'unique'"
  | Frame.Missing => inl (label_str l)
  end.

(** The loop over [df.columns], stopping at the first fault. *)
Fixpoint profile_columns (ls : list Label) (df : DataFrame)
  (column_details : Dict.t ColumnProfile) : string + Dict.t ColumnProfile :=
  match ls with
  | [] => inr column_details
  | l :: ls' =>
      match profile_column l df with
      | inl e => inl e
      | inr p => profile_columns ls' df (Dict.set (label_str l) p column_details)
      end
  end.

Definition minimal_schema (name : string) (sheet : option string)
  (err : option string) : FileSchema :=
  {| file_name := name; sheet_name := sheet; total_rows := 0;
     total_columns := None; columns := Some []; error := err |}.

(** What follows the removal of the blank rows: the explicit empty schema,
    the full profile, or the minimal schema of the fault handler. *)
Definition profile_frame (name : string) (sheet : option string)
  (frame : DataFrame) : FileSchema * list LogRecord :=
  if Frame.empty frame then
    (minimal_schema name sheet None,
     [(Warning, "DataFrame for '" +:+ name +:+ "' - sheet '"
                 +:+ render_sheet sheet
                 +:+ "' is empty or contains only null rows.")])
  else
    match profile_columns (Frame.labels frame) frame [] with
    | inr column_details =>
        ({| file_name := name; sheet_name := sheet;
            total_rows := Frame.len frame;
            total_columns := Some (length (header frame));
            columns := Some column_details; error := None |},
         [(Info, "Successfully extracted schema from DataFrame for: '"
                  +:+ name +:+ "' sheet: '" +:+ render_sheet sheet +:+ "'")])
    | inl e =>
        (minimal_schema name sheet (Some e),
         [(Error, "Error extracting schema from DataFrame for sheet '"
                   +:+ render_sheet sheet +:+ "': " +:+ e)])
    end.

(** The frame is passed by reference: the blank rows are dropped from the
    caller's object before anything is profiled. *)
Definition extract_schema_from_df (df : nat) (name : string)
  (sheet : option string) (st : Store)
  : FileSchema * list LogRecord * Store :=
  match st !! df with
  | None =>
      let e := "'NoneType' object has no attribute 'dropna'" in
      (minimal_schema name sheet (Some e),
       [(Error, "Error extracting schema from DataFrame for sheet '"
                 +:+ render_sheet sheet +:+ "': " +:+ e)], st)
  | Some frame =>
      let frame' := Frame.dropna_all frame in
      let '(file_schema, l) := profile_frame name sheet frame' in
      (file_schema, l, <[df := frame']> st)
  end.

(** ** validate_data_types *)

Record TypeViolation : Type := {
  tv_column : string;
  expected_db_type : string;
  found_file_type : string;
  (** the offending values, before their rendering with [str] *)
  sample_invalid_values : list Cell
}.

Definition pandas_to_sql_map : Dict.t (list string) :=
  [("int64", ["INTEGER"; "INT"]);
   ("float64", ["REAL"; "FLOAT"; "NUMERIC"]);
   ("object", ["TEXT"; "VARCHAR"; "CHAR"; "DATE"; "DATETIME"; "TIMESTAMP"]);
   ("datetime64[ns]", ["DATE"; "DATETIME"; "TIMESTAMP"]);
   ("bool", ["BOOLEAN"; "BOOL"])].

(** The inversion loop: a later storage type replaces an earlier one unless
    it is ['object']. *)
Definition sql_to_pandas_map : Dict.t string :=
  fold_left
    (fun m '(pd_type, sql_types) =>
       fold_left
         (fun m sql_type =>
            if negb (Dict.mem sql_type m) || negb (String.eqb pd_type "object")
            then Dict.set (Text.upper sql_type) pd_type m
            else m)
         sql_types m)
    pandas_to_sql_map [].

Arguments sql_to_pandas_map : simpl never.

(** [str(details['type']).split('(')[0].upper()] *)
Definition db_type_base (details : DBColumn) : string :=
  Text.upper (Text.before "(" (type details)).

(** [db_type_base in ['DATE', 'DATETIME', 'TIMESTAMP']] *)
Definition is_db_date_type (base : string) : bool :=
  existsb (String.eqb base) ["DATE"; "DATETIME"; "TIMESTAMP"].

(** [pd.to_numeric(val, errors='raise')] on one value of an object column. *)
Definition scalar_to_numeric (c : Cell) : option Q :=
  match c with
  | CStr s => Numeric.of_text s
  | CTime _ _ | CNull => None
  | _ => cell_number c
  end.

Definition is_integral (q : Q) : bool :=
  Qeq_bool q (inject_Z (Qnum q / Zpos (Qden q))).

(** Offending for an integer column: not a number, or not a whole one. *)
Definition offends_int (c : Cell) : bool :=
  match scalar_to_numeric c with
  | Some q => negb (is_integral q)
  | None => true
  end.

(** Offending for a float column: not a number. *)
Definition offends_float (c : Cell) : bool :=
  match scalar_to_numeric c with Some _ => false | None => true end.

Definition collect_samples (expected file_dtype : string) (values : list Cell)
  : list Cell :=
  let distinct := Frame.unique [] (Frame.dropna values) in
  if String.eqb expected "int64" && String.eqb file_dtype "object" then
    firstn 5 (List.filter offends_int distinct)
  else if String.eqb expected "float64" && String.eqb file_dtype "object" then
    firstn 5 (List.filter offends_float distinct)
  else if String.eqb file_dtype "object" then
    firstn 5 distinct
  else [].

Definition duplicate_type_warning (db_col_name : string) : LogRecord :=
  (Warning, "Duplicate column name found for '" +:+ db_col_name
            +:+ "' after mapping. This sheet is likely mismatched with the target DB table. Skipping type validation for this column.").

(** The warning written for a declared type the table does not know. *)
Definition unknown_type_warning (db_col_name base : string) : LogRecord :=
  (Warning, "DB type '" +:+ base +:+ "' for column '" +:+ db_col_name
            +:+ "' not in SQL-to-Pandas map. Skipping strict type check.").

Arguments duplicate_type_warning : simpl never.
Arguments unknown_type_warning : simpl never.

(** One turn of the loop over [db_schema.items()]. *)
Definition validate_column (df : DataFrame) (entry : string * DBColumn)
  : list TypeViolation * list LogRecord :=
  let '(db_col_name, db_col_details) := entry in
  if negb (Frame.has_column db_col_name df) then ([], [])
  else
    match Frame.getitem (LStr db_col_name) df with
    | Frame.SubFrame =>
        ([], [duplicate_type_warning db_col_name])
    | Frame.Missing => ([], [])
    | Frame.Series dtype values =>
        let file_dtype := dtype_name dtype in
        let base := db_type_base db_col_details in
        match Dict.get base sql_to_pandas_map with
        | Some expected_pd_type_category =>
            let mismatch :=
              negb (String.eqb file_dtype expected_pd_type_category)
              && negb (is_db_date_type base && String.eqb file_dtype "object") in
            if mismatch then
              ([{| tv_column := db_col_name;
                   expected_db_type := base;
                   found_file_type := file_dtype;
                   sample_invalid_values :=
                     firstn 5 (collect_samples expected_pd_type_category file_dtype values) |}],
               [])
            else ([], [])
        | None =>
            ([], [unknown_type_warning db_col_name base])
        end
    end.

Fixpoint validate_columns (df : DataFrame) (items : DBSchema)
  : list TypeViolation * list LogRecord :=
  match items with
  | [] => ([], [])
  | entry :: items' =>
      let '(v, l) := validate_column df entry in
      let '(vs, ls) := validate_columns df items' in
      (v ++ vs, l ++ ls)
  end.

Definition validate_data_types (df : DataFrame) (db_schema : DBSchema)
  : list TypeViolation * list LogRecord :=
  let '(type_violations, l) := validate_columns df db_schema in
  (type_violations,
   l ++ [(Info, "Data type validation complete. Found "
                 +:+ pretty (length type_violations) +:+ " mismatches.")]).

(** ** The database, as far as introspection shows it *)

Record CheckConstraint : Type := {
  cc_name : option string;
  cc_sqltext : option string
}.

(** [constraints t] is [None] when the inspector fails on table [t]. *)
Record Database : Type := {
  tables : Dict.t DBSchema;
  constraints : string -> option (list CheckConstraint)
}.

(** ** The single-column comparison pattern *)

Module CheckPattern.

Inductive Operator : Type := Ge | Le | Gt | Lt | Ne | Eq.

(** The alternation [(>=|<=|>|<|!=|=)], in its order of trial. *)
Definition operators : list (string * Operator) :=
  [(">=", Ge); ("<=", Le); (">", Gt); ("<", Lt); ("!=", Ne); ("=", Eq)].

(** An optional quote or back-quote: taken when present, given back when
    the rest fails. *)
Definition opt_quote (s : string) : list string :=
  match s with
  | String c s' =>
      if Ascii.eqb c (ascii_of_nat 34) || Ascii.eqb c "`" then [s'; s] else [s]
  | EmptyString => [s]
  end.

(** The escaped column name, letters matched without regard to case. *)
Fixpoint strip_prefix_ci (p s : string) : option string :=
  match p, s with
  | EmptyString, _ => Some s
  | String a p', String b s' =>
      if Ascii.eqb (Text.to_lower a) (Text.to_lower b)
      then strip_prefix_ci p' s' else None
  | String _ _, EmptyString => None
  end.

(** [(-?\d+(\.\d+)?)]: the text of the literal at the head of [s]. *)
Definition literal (s : string) : option string :=
  let '(sign, s1) :=
    match s with
    | String "-" s' => ("-", s')
    | _ => (EmptyString, s)
    end in
  let '(ip, r) := Numeric.span_digits s1 in
  match ip with
  | EmptyString => None
  | _ =>
      match r with
      | String "." r' =>
          match fst (Numeric.span_digits r') with
          | EmptyString => Some (sign +:+ ip)
          | fp => Some (sign +:+ ip +:+ "." +:+ fp)
          end
      | _ => Some (sign +:+ ip)
      end
  end.

(** [re.match] of the pattern at the start of [sqltext]: the operator and
    the text of the literal of the first successful way through. *)
Definition match_check (db_col_name sqltext : string)
  : option (Operator * string) :=
  head
    (s1 ← opt_quote sqltext;
     s2 ← option_list (strip_prefix_ci db_col_name s1);
     s3 ← opt_quote s2;
     '(tok, op) ← operators;
     s4 ← option_list (Text.strip_prefix tok (Text.lstrip s3));
     lit ← option_list (literal (Text.lstrip s4));
     [(op, lit)]).

End CheckPattern.

(** ** run_data_quality_checks *)

Inductive DataQualityViolation : Type :=
| not_null_violation
    (column : string) (count : nat) (affected_rows_sample_indices : list Z)
| primary_key_violation
    (column : string) (distinct_keys_duplicated total_duplicate_records : nat)
    (sample_duplicate_values : list Cell)
| check_constraint_violation
    (column : string) (constraint_name : option string) (sqltext : string)
    (count : nat) (affected_rows_sample_indices : list Z)
    (sample_violating_values : list Cell).

Definition dq_column (v : DataQualityViolation) : string :=
  match v with
  | not_null_violation c _ _ => c
  | primary_key_violation c _ _ _ => c
  | check_constraint_violation c _ _ _ _ _ => c
  end.

Definition severity (v : DataQualityViolation) : string :=
  match v with
  | not_null_violation _ _ _ => "high"
  | primary_key_violation _ _ _ _ => "high"
  | check_constraint_violation _ _ _ _ _ _ => "medium"
  end.

Definition details (v : DataQualityViolation) : string :=
  match v with
  | not_null_violation _ n _ =>
      "Column is non-nullable but contains " +:+ pretty n
      +:+ " nulls (or empty strings treated as nulls)."
  | primary_key_violation _ k n _ =>
      "Primary key column contains duplicates for " +:+ pretty k
      +:+ " unique key(s), affecting " +:+ pretty n +:+ " records total."
  | check_constraint_violation _ _ sqltext n _ _ =>
      pretty n +:+ " values violate CHECK constraint '" +:+ sqltext +:+ "'."
  end.

(** [column_data == ''] on one cell *)
Definition is_empty_string (c : Cell) : bool :=
  match c with CStr EmptyString => true | _ => false end.

(** [pd.to_numeric(column_data, errors='coerce')] on one cell of a column
    of storage type [d]; [None] is NaN. *)
Definition to_numeric (d : Dtype) (c : Cell) : option Q :=
  match c with
  | CNull => None
  | CStr s => Numeric.of_text s
  | CTime _ ns => if is_datetime64_any_dtype d then Some (inject_Z ns) else None
  | _ => cell_number c
  end.

Definition notna (x : option Q) : bool :=
  match x with Some _ => true | None => false end.

Definition Qleb (x y : Q) : bool := Qle_bool x y.
Definition Qltb (x y : Q) : bool := negb (Qle_bool y x).

(** The row mask the code builds for each operator: the negated
    comparison, where every comparison with NaN but [!=] is false. *)
Definition violated (op : CheckPattern.Operator) (x : option Q) (value : Q) : bool :=
  match x with
  | Some n =>
      match op with
      | CheckPattern.Gt => Qleb n value
      | CheckPattern.Ge => Qltb n value
      | CheckPattern.Lt => Qleb value n
      | CheckPattern.Le => Qltb value n
      | CheckPattern.Ne => Qeq_bool n value
      | CheckPattern.Eq => negb (Qeq_bool n value)
      end
  | None =>
      match op with CheckPattern.Eq => true | _ => false end
  end.

(** What the constraint itself asks of a number. *)
Definition satisfies (op : CheckPattern.Operator) (n value : Q) : bool :=
  match op with
  | CheckPattern.Gt => Qltb value n
  | CheckPattern.Ge => Qleb value n
  | CheckPattern.Lt => Qltb n value
  | CheckPattern.Le => Qleb n value
  | CheckPattern.Ne => negb (Qeq_bool n value)
  | CheckPattern.Eq => Qeq_bool n value
  end.

(** Index labels (or cells) of the rows selected by a mask. *)
Fixpoint select {A} (mask : list bool) (l : list A) : list A :=
  match mask, l with
  | true :: m, x :: l' => x :: select m l'
  | false :: m, _ :: l' => select m l'
  | _, _ => []
  end.

Definition count_true (mask : list bool) : nat :=
  length (List.filter (fun b => b) mask).

(** Check 1: the not-null count. The empty strings are added only under a
    numeric or temporal storage type that is also ['object']. *)
Definition not_null_count (d : Dtype) (values : list Cell) : nat :=
  let null_count := Frame.count is_null values in
  if is_numeric_dtype d || is_datetime64_any_dtype d then
    if is_object d
    then null_count + Frame.count is_empty_string values
    else null_count
  else null_count.

Definition not_null_check (df : DataFrame) (db_col_name : string)
  (d : Dtype) (values : list Cell) : list DataQualityViolation :=
  let null_count := not_null_count d values in
  if (0 <? null_count)%nat then
    let mask := map (fun c => is_null c || (is_object d && is_empty_string c)) values in
    [not_null_violation db_col_name null_count
       (firstn 5 (select mask (Frame.index df)))]
  else [].

(** Check 2: primary-key uniqueness among the non-null keys. *)
Definition primary_key_check (db_col_name : string) (values : list Cell)
  : list DataQualityViolation :=
  let non_null := Frame.dropna values in
  let duplicates :=
    List.filter
      (fun c => (1 <? length (List.filter (cell_eqb c) non_null))%nat) non_null in
  let distinct_duplicate_values := Frame.unique [] duplicates in
  let distinct_keys_duplicated := length distinct_duplicate_values in
  if (0 <? distinct_keys_duplicated)%nat then
    [primary_key_violation db_col_name distinct_keys_duplicated
       (length duplicates) (firstn 5 distinct_duplicate_values)]
  else [].

Definition skipped_constraint_note (db_col_name sqltext : string) : LogRecord :=
  (Info, "Skipping CHECK constraint for column '" +:+ db_col_name
         +:+ "' as it was complex, non-numeric, or did not match simple patterns: '"
         +:+ sqltext +:+ "'").

Definition duplicate_quality_warning (db_col_name : string) : LogRecord :=
  (Warning, "Duplicate column name found for '" +:+ db_col_name
            +:+ "' (in data_quality). This sheet is likely mismatched. Skipping all data quality checks for this column.").

Arguments skipped_constraint_note : simpl never.
Arguments duplicate_quality_warning : simpl never.

(** Check 3: one CHECK constraint against the coerced column. *)
Definition check_one_constraint (df : DataFrame) (db_col_name : string)
  (d : Dtype) (values : list Cell) (constraint : CheckConstraint)
  : list DataQualityViolation * list LogRecord :=
  let numeric_col := map (to_numeric d) values in
  let is_numeric := forallb notna numeric_col in
  let sqltext := Text.strip (default EmptyString (cc_sqltext constraint)) in
  let skipped := ([], [skipped_constraint_note db_col_name sqltext]) in
  match CheckPattern.match_check db_col_name sqltext with
  | Some (operator, lit) =>
      if is_numeric then
        match Numeric.of_text lit with
        | Some value =>
            let violated_rows :=
              map (fun x => violated operator x value && notna x) numeric_col in
            let violation_count := count_true violated_rows in
            if (0 <? violation_count)%nat then
              ([check_constraint_violation db_col_name (cc_name constraint)
                  sqltext violation_count
                  (firstn 5 (select violated_rows (Frame.index df)))
                  (firstn 5 (select violated_rows values))], [])
            else ([], [])
        | None => skipped
        end
      else skipped
  | None => skipped
  end.

Fixpoint check_constraints_loop (df : DataFrame) (db_col_name : string)
  (d : Dtype) (values : list Cell) (cs : list CheckConstraint)
  : list DataQualityViolation * list LogRecord :=
  match cs with
  | [] => ([], [])
  | c :: cs' =>
      let '(v, l) := check_one_constraint df db_col_name d values c in
      let '(vs, ls) := check_constraints_loop df db_col_name d values cs' in
      (v ++ vs, l ++ ls)
  end.

(** One turn of the loop over [db_schema.items()]. *)
Definition check_column (df : DataFrame) (check_constraints : list CheckConstraint)
  (entry : string * DBColumn) : list DataQualityViolation * list LogRecord :=
  let '(db_col_name, db_col_details) := entry in
  if negb (Frame.has_column db_col_name df) then ([], [])
  else
    match Frame.getitem (LStr db_col_name) df with
    | Frame.SubFrame =>
        ([], [duplicate_quality_warning db_col_name])
    | Frame.Missing => ([], [])
    | Frame.Series d values =>
        let nulls :=
          if negb (nullable db_col_details)
          then not_null_check df db_col_name d values else [] in
        let keys :=
          if primary_key db_col_details
          then primary_key_check db_col_name values else [] in
        let col_check_constraints :=
          List.filter
            (fun c => Text.contains db_col_name (default EmptyString (cc_sqltext c)))
            check_constraints in
        let '(checks, l) :=
          check_constraints_loop df db_col_name d values col_check_constraints in
        (nulls ++ keys ++ checks, l)
    end.

Fixpoint check_columns (df : DataFrame) (check_constraints : list CheckConstraint)
  (items : DBSchema) : list DataQualityViolation * list LogRecord :=
  match items with
  | [] => ([], [])
  | entry :: items' =>
      let '(v, l) := check_column df check_constraints entry in
      let '(vs, ls) := check_columns df check_constraints items' in
      (v ++ vs, l ++ ls)
  end.

Definition run_data_quality_checks (df : DataFrame) (db_schema : DBSchema)
  (engine : Database) (table_name : string)
  : list DataQualityViolation * list LogRecord :=
  let '(check_constraints, l0) :=
    match constraints engine table_name with
    | Some cs =>
        (cs, [(Info, "Fetched " +:+ pretty (length cs)
                     +:+ " CHECK constraints for table '" +:+ table_name +:+ "'.")])
    | None =>
        ([], [(Warning, "Could not fetch CHECK constraints for table '" +:+ table_name
                        +:+ "'. Skipping CHECK constraint validation.")])
    end in
  let '(dq_violations, l) := check_columns df check_constraints db_schema in
  (dq_violations,
   l0 ++ l ++ [(Info, "Data quality checks complete. Found "
                       +:+ pretty (length dq_violations) +:+ " violations.")]).


(** The two situations in which a matched column is exempt from the
    comparison of types. *)
Definition temporal_as_text (d : DBColumn) (dtype : Dtype) : bool :=
  is_db_date_type (db_type_base d) && is_object dtype.

Definition unknown_base (d : DBColumn) : bool :=
  negb (Dict.mem (db_type_base d) sql_to_pandas_map).

(** ** JSON values *)

#[warnings="-register-all"]
Inductive Json : Type :=
| JNull
| JBool (b : bool)
| JNum (q : Q)
| JStr (s : string)
| JArr (items : list Json)
| JObj (fields : Dict.t Json).

Definition json_of_cell (c : Cell) : Json :=
  match c with
  | CNull => JNull
  | CInt z => JNum (inject_Z z)
  | CFloat q => JNum q
  | CStr s => JStr s
  | CBool b => JBool b
  | CTime iso _ => JStr iso
  end.

Definition json_of_profile (p : ColumnProfile) : Json :=
  JObj [("inferred_type", JStr (inferred_type p));
        ("sample_values", JArr (map json_of_cell (sample_values p)));
        ("null_count", JNum (inject_Z (Z.of_nat (null_count p))))].

Definition json_of_columns (cols : Dict.t ColumnProfile) : Json :=
  JObj (map (fun '(k, p) => (k, json_of_profile p)) cols).

Definition json_of_option (o : option string) : Json :=
  match o with Some s => JStr s | None => JNull end.

(** ** Schema history *)

Definition SCHEMA_HISTORY_DIR : string := "schema_history".
Definition NUM_HISTORICAL_SCHEMAS_TO_LOAD : Z := 3.

(** The snapshot directory: file names with their text, in the order the
    file system lists them. *)
Definition Directory : Type := list (string * string).

Module History.

(** [c if c.isalnum() else "_"], character by character. *)
Definition safe_table_name (table_name : string) : string :=
  Text.map_chars (fun c => if Text.is_alnum c then c else "_"%char) table_name.

Definition prefix (table_name : string) : string :=
  safe_table_name table_name +:+ "_schema_".

Definition suffix : string := ".json".

(** [os.path.join(SCHEMA_HISTORY_DIR, name)] *)
Definition path (name : string) : string := SCHEMA_HISTORY_DIR +:+ "/" +:+ name.

(** The file name fits [<safe>_schema_*.json]. *)
Definition matches (table_name name : string) : bool :=
  match Text.strip_prefix (prefix table_name) name with
  | Some rest => Text.ends_with suffix rest
  | None => false
  end.

(** [glob.glob(search_pattern)]: the matching paths, in directory order. *)
Definition glob (table_name : string) (dir : Directory) : list string :=
  map path (List.filter (matches table_name) (map fst dir)).

(** [sorted(paths, reverse=True)]: stable, greatest first. *)
Fixpoint insert_desc (x : string) (l : list string) : list string :=
  match l with
  | [] => [x]
  | y :: l' => if Text.leb y x then x :: l else y :: insert_desc x l'
  end.

Definition sorted_desc (l : list string) : list string :=
  foldr insert_desc [] l.

(** [l[:n]] for a Python integer [n]. *)
Definition slice_to {A} (n : Z) (l : list A) : list A :=
  if (0 <=? n)%Z then firstn (Z.to_nat n) l
  else firstn (length l - Z.to_nat (- n)) l.

(** [open(path).read()] *)
Definition read (dir : Directory) (p : string) : option string :=
  snd <$> List.find (fun f => String.eqb (path (fst f)) p) dir.

Section Loading.

Variable json_loads : string -> option Json.

Definition load_warning (file : string) : LogRecord :=
  (Warning, "Error loading historical schema file '" +:+ file +:+ "'").

(** The loop over [files_to_load]: a file that cannot be opened or parsed
    is logged and left out. Each loaded document is kept with the path it
    came from. *)
Fixpoint load_files (dir : Directory) (files_to_load : list string)
  : list (string * Json) * list LogRecord :=
  match files_to_load with
  | [] => ([], [])
  | file :: rest =>
      let '(loaded, l) := load_files dir rest in
      match read dir file ≫= json_loads with
      | Some schema_data => ((file, schema_data) :: loaded, l)
      | None => (loaded, load_warning file :: l)
      end
  end.

Definition files_to_load (table_name : string) (num_history : Z)
  (dir : Directory) : list string :=
  slice_to num_history (sorted_desc (glob table_name dir)).

Definition load_historical_entries (table_name : string) (num_history : Z)
  (dir : Directory) : list (string * Json) * list LogRecord :=
  let history_files := sorted_desc (glob table_name dir) in
  let to_load := slice_to num_history history_files in
  let '(loaded, l) := load_files dir to_load in
  (loaded,
   (Info, "Found " +:+ pretty (length history_files)
          +:+ " historical schemas for '" +:+ table_name
          +:+ "'. Loading the latest " +:+ pretty (length to_load) +:+ ".") :: l).

Definition load_historical_schemas (table_name : string) (num_history : Z)
  (dir : Directory) : list Json * list LogRecord :=
  let '(loaded, l) := load_historical_entries table_name num_history dir in
  (map snd loaded, l).

End Loading.

(** The text between the prefix and [.json] of a matching path. *)
Definition stamp_of (table_name p : string) : string :=
  match Text.strip_prefix (path (prefix table_name)) p with
  | Some rest => String.substring 0 (String.length rest - String.length suffix) rest
  | None => EmptyString
  end.

(** A stamp [YYYYMMDDTHHMMSSZ]: eight digits, [T], six digits, [Z]. *)
Definition stamp_shape : list bool :=
  [true; true; true; true; true; true; true; true; false;
   true; true; true; true; true; true; false].

Fixpoint has_shape (shape : list bool) (sep : list ascii) (s : string) : bool :=
  match shape, s with
  | [], EmptyString => true
  | true :: shape', String c s' => Text.is_digit c && has_shape shape' sep s'
  | false :: shape', String c s' =>
      match sep with
      | x :: sep' => Ascii.eqb c x && has_shape shape' sep' s'
      | [] => false
      end
  | _, _ => false
  end.

Definition well_formed_stamp (s : string) : bool :=
  has_shape stamp_shape ["T"%char; "Z"%char] s.

Fixpoint digits_only (s : string) : string :=
  match s with
  | EmptyString => EmptyString
  | String c s' => if Text.is_digit c then String c (digits_only s') else digits_only s'
  end.

(** The instant a stamp denotes, as the number [YYYYMMDDHHMMSS]. *)
Definition stamp_instant (s : string) : Z :=
  Numeric.digits_value 0 (digits_only s).

(** Every file of the directory that fits the pattern of the table is one
    of its snapshots: a well-formed stamp follows the prefix. *)
Definition snapshots_only (table_name : string) (dir : Directory) : bool :=
  forallb
    (fun name =>
       implb (matches table_name name)
             (well_formed_stamp (stamp_of table_name (path name))))
    (map fst dir).

End History.

(** The order of [sorted(..., reverse=True)]: greatest first. *)
Definition later_first : relation string := flip String.le.

(** The instant in the name of the file a loaded snapshot came from. *)
Definition loaded_instant (table_name : string) (entry : string * Json) : Z :=
  History.stamp_instant (History.stamp_of table_name (fst entry)).

(** ** The world of the orchestrator *)

(** What is sent to the language model: the arguments of the three prompt
    builders. *)
Inductive Prompt : Type :=
| SchemaAnalysisPrompt
    (db_schema : DBSchema) (file_schema : FileSchema)
    (raw_comparison : Dict.t (list string))
    (target_table_name source_file_name : string)
| DynamicRulesPrompt (file_schema : FileSchema)
| FinalReportPrompt
    (source_file_name : string) (sheet : option string) (rows : nat)
    (schema_analysis : Json)
    (type_mismatches : list TypeViolation)
    (dq_violations : list DataQualityViolation)
    (current_file_schema : FileSchema)
    (historical_schemas : list Json)
    (dynamic_rules : Json).

Record World : Type := {
  (** the frame objects alive, by identity *)
  frames : Store;
  (** the lines the user will type *)
  stdin : list string;
  (** the outcome of each coming call of the model, retries included *)
  llm : list (option string);
  (** the prompts sent so far, latest first *)
  prompts : list Prompt;
  (** the coming readings of the clock: stamp form and ISO form *)
  clock : list (string * string);
  (** the snapshot directory *)
  directory : Directory;
  (** the log, latest first *)
  log : list LogRecord
}.

Definition with_frames (st : Store) (w : World) : World :=
  {| frames := st; stdin := stdin w; llm := llm w; prompts := prompts w;
     clock := clock w; directory := directory w; log := log w |}.

Definition with_stdin (i : list string) (w : World) : World :=
  {| frames := frames w; stdin := i; llm := llm w; prompts := prompts w;
     clock := clock w; directory := directory w; log := log w |}.

Definition with_llm (r : list (option string)) (p : list Prompt) (w : World) : World :=
  {| frames := frames w; stdin := stdin w; llm := r; prompts := p;
     clock := clock w; directory := directory w; log := log w |}.

Definition with_clock (c : list (string * string)) (w : World) : World :=
  {| frames := frames w; stdin := stdin w; llm := llm w; prompts := prompts w;
     clock := c; directory := directory w; log := log w |}.

Definition with_directory (d : Directory) (w : World) : World :=
  {| frames := frames w; stdin := stdin w; llm := llm w; prompts := prompts w;
     clock := clock w; directory := d; log := log w |}.

Definition with_log (l : list LogRecord) (w : World) : World :=
  {| frames := frames w; stdin := stdin w; llm := llm w; prompts := prompts w;
     clock := clock w; directory := directory w; log := l |}.

(** A computation either returns or raises an exception with a message;
    either way it leaves a world behind. *)
Inductive Outcome (A : Type) : Type :=
| Return (a : A)
| Raise (msg : string).

Arguments Return {A} a.
Arguments Raise {A} msg.

Definition M (A : Type) : Type := World -> Outcome A * World.

Definition ret {A} (a : A) : M A := fun w => (Return a, w).

Definition raise {A} (msg : string) : M A := fun w => (Raise msg, w).

Definition bind {A B} (m : M A) (k : A -> M B) : M B :=
  fun w =>
    match m w with
    | (Return a, w') => k a w'
    | (Raise msg, w') => (Raise msg, w')
    end.

Notation "'let!' x ':=' m 'in' k" := (bind m (fun x => k))
  (at level 10, x name, m at level 100, k at level 200).
Notation "'let!' ' p ':=' m 'in' k" := (bind m (fun x => let 'p := x in k))
  (at level 10, p pattern, m at level 100, k at level 200).
Notation "'do!' m 'in' k" := (bind m (fun _ => k))
  (at level 10, m at level 100, k at level 200).

(** [logging.<level>(msg)] *)
Definition logm (r : LogRecord) : M unit :=
  fun w => (Return tt, with_log (r :: log w) w).

Definition logs (rs : list LogRecord) : M unit :=
  fun w => (Return tt, with_log (rev rs ++ log w) w).

(** [input(prompt)]: the next line, or the end-of-file exception. *)
Definition input : M string :=
  fun w =>
    match stdin w with
    | line :: rest => (Return line, with_stdin rest w)
    | [] => (Raise "EOF when reading a line", w)
    end.

(** [get_llm_streaming_response]: [None] once the call has given up. *)
Definition get_llm_streaming_response (p : Prompt) : M (option string) :=
  fun w =>
    match llm w with
    | r :: rest => (Return r, with_llm rest (p :: prompts w) w)
    | [] => (Return None, with_llm [] (p :: prompts w) w)
    end.

(** [datetime.now()] *)
Definition now : M (string * string) :=
  fun w =>
    match clock w with
    | t :: rest => (Return t, with_clock rest w)
    | [] => (Return (EmptyString, EmptyString), w)
    end.

(** ** Database introspection *)

(** [get_db_schema]: [None] when the table does not exist. *)
Definition get_db_schema (engine : Database) (table_name : string)
  : option DBSchema :=
  Dict.get table_name (tables engine).

(** [get_all_table_schemas]: base types by column, for every table whose
    schema is not empty. *)
Definition get_all_table_schemas (engine : Database) : Dict.t (Dict.t string) :=
  fold_left
    (fun all_schemas '(table_name, _) =>
       match get_db_schema engine table_name with
       | Some (e :: schema) =>
           Dict.set table_name
             (fold_left (fun m '(col, det) => Dict.set col (db_type_base det) m)
                        (e :: schema) [])
             all_schemas
       | _ => all_schemas
       end)
    (tables engine) [].

(** ** run_validation_for_sheet *)

(** [os.path.basename] *)
Fixpoint basename_from (acc s : string) : string :=
  match s with
  | EmptyString => acc
  | String c s' =>
      if Ascii.eqb c "/" then basename_from s' s' else basename_from acc s'
  end.

Definition basename (p : string) : string := basename_from p p.

Definition sheet_display_name (sheet : option string) : string :=
  match sheet with Some s => s | None => "CSV Data" end.

(** The error-shaped result of a sheet. *)
Definition error_report (file_path : string) (sheet : option string)
  (validated_at msg : string) : Json :=
  JObj [("file_name", JStr file_path);
        ("sheet_name", json_of_option sheet);
        ("validated_at", JStr validated_at);
        ("validation_summary",
         JObj [("status", JStr "Error"); ("details", JStr msg)]);
        ("error", JStr msg)].

Definition extraction_failed_message (sheet : option string) : string :=
  "Schema extraction failed for sheet '" +:+ sheet_display_name sheet +:+ "'".

Definition no_tables_message : string :=
  "No tables found in database to choose from.".

Definition declined_message : string :=
  "Process stopped: User confirmed no matching table.".

Definition invalid_table_message (selection : string) : string :=
  "Invalid table: '" +:+ selection +:+ "' is not in the database. Aborting.".

Definition missing_table_message (table_name : string) : string :=
  "Database table '" +:+ table_name +:+ "' does not exist.".

Arguments extraction_failed_message : simpl never.
Arguments invalid_table_message : simpl never.
Arguments missing_table_message : simpl never.

(** [not user_selection or user_selection.lower() == 'none'] *)
Definition declines (user_selection : string) : bool :=
  String.eqb user_selection EmptyString
  || String.eqb (Text.lower user_selection) "none".

(** [user_selection in table_names] *)
Definition is_candidate (user_selection : string) (table_names : list string) : bool :=
  existsb (String.eqb user_selection) table_names.

Section Orchestrator.

Variable json_loads : string -> option Json.
Variable json_dumps : Json -> string.

(** Step 1: the extractor works on the caller's frame object. *)
Definition extract_step (df : nat) (file_path : string) (sheet : option string)
  : M FileSchema :=
  do! logm (Info, "---  Starting Validation for Sheet: '"
                  +:+ sheet_display_name sheet +:+ "' ---") in
  let! file_schema :=
    (fun w =>
       let '(fs, l, st) := extract_schema_from_df df file_path sheet (frames w) in
       (Return fs, with_log (rev l ++ log w) (with_frames st w))) in
  if unreadable file_schema
  then raise (extraction_failed_message sheet)
  else ret file_schema.

(** Step 2, when no table name came with the call: the user picks one of
    the tables of the database. Returns the selection. *)
Definition select_table (engine : Database) : M string :=
  do! logm (Warning, "No table name provided. Fetching all table names for user selection...") in
  let all_schemas := get_all_table_schemas engine in
  match all_schemas with
  | [] => raise no_tables_message
  | _ =>
      let table_names := Dict.keys all_schemas in
      do! logm (Info, "--- WAITING FOR USER INPUT ---") in
      let! line := input in
      let user_selection := Text.strip line in
      if declines user_selection then raise declined_message
      else if negb (is_candidate user_selection table_names) then
        do! logm (Error, "Invalid table name: '" +:+ user_selection
                         +:+ "' is not in the database.") in
        raise (invalid_table_message user_selection)
      else
        do! logm (Info, "User selected table: '" +:+ user_selection +:+ "'") in
        ret user_selection
  end.

(** Steps 1 and 2: the file schema, the target table and the table chosen
    for this sheet, if one was chosen. *)
Definition resolve_step (df : nat) (file_path : string) (sheet : option string)
  (engine : Database) (user_provided_table_name : option string)
  : M (FileSchema * string * option string) :=
  let! file_schema := extract_step df file_path sheet in
  match user_provided_table_name with
  | Some target_table_name =>
      do! logm (Info, "Using user-provided table name: '" +:+ target_table_name +:+ "'") in
      ret (file_schema, target_table_name, None)
  | None =>
      let! target_table_name := select_table engine in
      ret (file_schema, target_table_name, Some target_table_name)
  end.

(** Step 3: the database schema, the raw comparison and the schema
    analysis of the model. *)
Definition analysis_step (file_path : string) (engine : Database)
  (file_schema : FileSchema) (target_table_name : string)
  : M (DBSchema * Json) :=
  match get_db_schema engine target_table_name with
  | None => raise (missing_table_message target_table_name)
  | Some db_schema =>
      let raw_comparison := compare_schemas file_schema db_schema in
      let! schema_response_str :=
        get_llm_streaming_response
          (SchemaAnalysisPrompt db_schema file_schema raw_comparison
             target_table_name (basename file_path)) in
      match schema_response_str with
      | None => raise "Failed to get schema analysis from LLM."
      | Some text =>
          match json_loads text with
          | None =>
              do! logm (Error, "Failed to parse JSON from schema analysis") in
              raise "LLM did not return valid JSON for schema analysis."
          | Some schema_analysis_json =>
              do! logm (Info, "LLM Schema Analysis: Complete") in
              ret (db_schema, schema_analysis_json)
          end
      end
  end.

(** [schema_analysis_json.get("naming_mismatches", {})], as the argument
    of [rename]: only an object can be read and only an object can rename. *)
Definition naming_mismatches (schema_analysis_json : Json)
  : string + Dict.t Label :=
  match schema_analysis_json with
  | JObj fields =>
      match default (JObj []) (Dict.get "naming_mismatches" fields) with
      | JObj mapper =>
          inr (map (fun '(k, v) =>
                      (k, match v with
                          | JStr s => LStr s
                          | other => LOther (json_dumps other)
                          end)) mapper)
      | _ => inl "columns mapper is neither a mapping nor callable"
      end
  | _ => inl "object has no attribute 'get'"
  end.

(** Step 4: both validators run on the renamed copy of the caller's frame
    object, as it is by now. *)
Definition deep_validation (df : nat) (engine : Database)
  (db_schema : DBSchema) (target_table_name : string)
  (schema_analysis_json : Json)
  : M (list TypeViolation * list DataQualityViolation) :=
  match naming_mismatches schema_analysis_json with
  | inl e => raise e
  | inr mapper =>
      let! frame :=
        (fun w =>
           match frames w !! df with
           | Some frame => (Return frame, w)
           | None => (Raise "'NoneType' object has no attribute 'rename'", w)
           end) in
      let mapped_df := Frame.rename mapper frame in
      let '(type_violations, l1) := validate_data_types mapped_df db_schema in
      do! logs l1 in
      let '(dq_violations, l2) :=
        run_data_quality_checks mapped_df db_schema engine target_table_name in
      do! logs l2 in
      do! logm (Info, "Deep validation: Complete") in
      ret (type_violations, dq_violations)
  end.

(** Step 4.5: the dynamic rules; any failure is replaced by a marker. *)
Definition dynamic_rules_step (file_schema : FileSchema) : M Json :=
  let! dynamic_rules_str := get_llm_streaming_response (DynamicRulesPrompt file_schema) in
  match dynamic_rules_str with
  | None | Some EmptyString =>
      do! logm (Info, "LLM Dynamic Rules: Complete") in ret (JArr [])
  | Some text =>
      match json_loads text with
      | Some dynamic_rules =>
          do! logm (Info, "LLM Dynamic Rules: Complete") in ret dynamic_rules
      | None =>
          do! logm (Warning, "Could not generate dynamic rules") in
          ret (JArr [JObj [("error", JStr "Failed to generate dynamic rules")]])
      end
  end.

(** [save_schema_to_history]: one more file, named by the table and the
    clock; a file of that name is replaced. *)
Definition save_schema_to_history (table_name : string) (file_schema : FileSchema)
  : M unit :=
  let! t := now in
  let filename := History.prefix table_name +:+ fst t +:+ History.suffix in
  let schema_to_save := JObj [("columns", json_of_columns (default [] (columns file_schema)))] in
  do! (fun w =>
         (Return tt,
          with_directory (Dict.set filename (json_dumps schema_to_save) (directory w)) w)) in
  logm (Info, "Saved current schema to history: " +:+ History.path filename).

(** Steps 4 to 5: deep validation, dynamic rules, history and the final
    report of the model. *)
Definition report_step (df : nat) (file_path : string) (sheet : option string)
  (engine : Database) (file_schema : FileSchema) (target_table_name : string)
  (db_schema : DBSchema) (schema_analysis_json : Json) : M Json :=
  let! '(type_violations, dq_violations) :=
    deep_validation df engine db_schema target_table_name schema_analysis_json in
  let! dynamic_rules := dynamic_rules_step file_schema in
  let! historical_schemas :=
    (fun w =>
       let '(hs, l) :=
         History.load_historical_schemas json_loads target_table_name
           NUM_HISTORICAL_SCHEMAS_TO_LOAD (directory w) in
       (Return hs, with_log (rev l ++ log w) w)) in
  let! sheet_report_str :=
    get_llm_streaming_response
      (FinalReportPrompt (basename file_path) sheet (total_rows file_schema)
         schema_analysis_json type_violations dq_violations file_schema
         historical_schemas dynamic_rules) in
  match sheet_report_str with
  | None => raise "Failed to get final report from LLM."
  | Some text =>
      match json_loads text with
      | None =>
          do! logm (Error, "Failed to parse JSON from final report") in
          raise "LLM did not return valid JSON for final report."
      | Some sheet_report =>
          do! (if String.eqb target_table_name EmptyString then ret tt
               else save_schema_to_history target_table_name file_schema) in
          do! logm (Info, "---  Sheet '" +:+ sheet_display_name sheet
                          +:+ "' Validation Complete ---") in
          ret sheet_report
      end
  end.

(** The [except] clause: the error is logged and shaped into a report. *)
Definition sheet_error (file_path : string) (sheet : option string) (msg : string)
  (w : World) : Json * World :=
  let w1 := with_log ((Error, "---  ERROR during validation for Sheet '"
                              +:+ sheet_display_name sheet +:+ "': " +:+ msg +:+ " ---")
                      :: log w) w in
  match now w1 with
  | (Return t, w2) => (error_report file_path sheet (snd t) msg, w2)
  | (Raise _, w2) => (error_report file_path sheet EmptyString msg, w2)
  end.

(** The sheet report, the schema analysis and the table chosen for the
    sheet, each as far as the run got before an exception. *)
Definition run_validation_for_sheet (df : nat) (file_path : string)
  (sheet : option string) (engine : Database)
  (user_provided_table_name : option string)
  : World -> (Json * Json * option string) * World :=
  fun w =>
    match resolve_step df file_path sheet engine user_provided_table_name w with
    | (Raise msg, w1) =>
        let '(r, w') := sheet_error file_path sheet msg w1 in
        ((r, JObj [], None), w')
    | (Return (file_schema, target_table_name, inferred), w1) =>
        match analysis_step file_path engine file_schema target_table_name w1 with
        | (Raise msg, w2) =>
            let '(r, w') := sheet_error file_path sheet msg w2 in
            ((r, JObj [], inferred), w')
        | (Return (db_schema, schema_analysis_json), w2) =>
            match report_step df file_path sheet engine file_schema
                    target_table_name db_schema schema_analysis_json w2 with
            | (Raise msg, w3) =>
                let '(r, w') := sheet_error file_path sheet msg w3 in
                ((r, schema_analysis_json, inferred), w')
            | (Return sheet_report, w3) =>
                ((sheet_report, schema_analysis_json, inferred), w3)
            end
        end
    end.

End Orchestrator.

(** ** run_multi_sheet_validation *)

(** What the readers give for the file: the sheets of a workbook with the
    frame each one loads to ([None] when loading it fails), or the frame of
    a CSV file. [workbook = None] is a workbook that cannot be opened. *)
Record InputFile : Type := {
  workbook : option (list (string * option DataFrame));
  csv_data : option DataFrame
}.

(** [file_path.endswith(('.xls', '.xlsx'))] *)
Definition is_excel (file_path : string) : bool :=
  Text.ends_with ".xls" file_path || Text.ends_with ".xlsx" file_path.

Definition report_key (sheet : option string) : string :=
  match sheet with Some s => s | None => "csv_data" end.

(** [a or b] on optional text: the first that is neither [None] nor empty. *)
Definition first_truthy (a b : option string) : option string :=
  match a with
  | Some (String _ _) => a
  | _ => match b with Some (String _ _) => b | _ => a end
  end.

Section MultiSheet.

Variable json_loads : string -> option Json.
Variable json_dumps : Json -> string.

(** A loaded frame becomes a new object. *)
Definition allocate (frame : DataFrame) : M nat :=
  fun w =>
    let df := fresh (dom (frames w)) in
    (Return df, with_frames (<[df := frame]> (frames w)) w).

(** One turn of the loop over the sheets. The accumulated reports and the
    first table chosen for a sheet are carried along. *)
Definition process_sheet (file_path : string) (engine : Database)
  (user_provided_table_name : option string)
  (acc : Dict.t Json * option string)
  (sheet : option string) (loaded : option DataFrame)
  : World -> (Dict.t Json * option string) * World :=
  fun w =>
    let '(all_sheet_reports, inferred_target_table) := acc in
    let w0 := with_log ((Info, "--- Loading data for sheet: '"
                               +:+ sheet_display_name sheet +:+ "' ---") :: log w) w in
    let failed (w' : World) :=
      (acc, with_log ((Error, "Failed to process sheet '"
                              +:+ sheet_display_name sheet +:+ "'") :: log w') w') in
    match loaded with
    | None => failed w0
    | Some frame =>
        match allocate frame w0 with
        | (Raise _, w1) => failed w1
        | (Return current_df, w1) =>
            let '((sheet_report, schema_analysis_json, inferred_table), w2) :=
              run_validation_for_sheet json_loads json_dumps current_df file_path
                sheet engine user_provided_table_name w1 in
            match sheet_report with
            | JObj fields =>
                let sheet_report' :=
                  JObj (Dict.set "schema_analysis_report" schema_analysis_json fields) in
                ((Dict.set (report_key sheet) sheet_report' all_sheet_reports,
                  first_truthy inferred_target_table inferred_table), w2)
            | _ => failed w2
            end
        end
    end.

Fixpoint process_sheets (file_path : string) (engine : Database)
  (user_provided_table_name : option string)
  (acc : Dict.t Json * option string)
  (sheets : list (option string * option DataFrame))
  : World -> (Dict.t Json * option string) * World :=
  fun w =>
    match sheets with
    | [] => (acc, w)
    | (sheet, loaded) :: rest =>
        let '(acc', w') :=
          process_sheet file_path engine user_provided_table_name acc sheet loaded w in
        process_sheets file_path engine user_provided_table_name acc' rest w'
    end.

(** The sheets to visit: those of the workbook, or the one of a CSV file.
    [None] when the workbook cannot be opened or has no sheet. *)
Definition sheets_of (file_path : string) (file : InputFile)
  : option (list (option string * option DataFrame)) :=
  if is_excel file_path then
    match workbook file with
    | None | Some [] => None
    | Some sheets => Some (map (fun '(name, loaded) => (Some name, loaded)) sheets)
    end
  else Some [(None, csv_data file)].

Definition final_output (file_path : string) (user_provided_table_name : option string)
  (processed_at : string) (all_sheet_reports : Dict.t Json)
  (inferred_target_table : option string) : Json :=
  let common :=
    [("User_file_name", JStr (basename file_path));
     ("Processed_at", JStr processed_at);
     ("user_provided_target_table", json_of_option user_provided_table_name);
     ("inferred_target_table", json_of_option inferred_target_table)] in
  if is_excel file_path then
    JObj (common ++ [("sheet_validation_results", JObj all_sheet_reports)])
  else
    match default (JObj []) (Dict.get "csv_data" all_sheet_reports) with
    | JObj csv_report =>
        JObj (fold_left (fun d '(k, v) => Dict.set k v d) csv_report common)
    | _ => JObj common
    end.

Definition run_multi_sheet_validation (file_path : string) (file : InputFile)
  (engine : Database) (user_provided_table_name : option string)
  : World -> option Json * World :=
  fun w =>
    let w0 := with_log ((Info, "---  STARTING VALIDATION FOR FILE: " +:+ file_path +:+ " ---")
                        :: log w) w in
    match sheets_of file_path file with
    | None => (None, w0)
    | Some sheets =>
        let '((all_sheet_reports, inferred_target_table), w1) :=
          process_sheets file_path engine user_provided_table_name ([], None) sheets w0 in
        match now w1 with
        | (Return t, w2) =>
            (Some (final_output file_path user_provided_table_name (snd t)
                     all_sheet_reports inferred_target_table),
             with_log ((Info, "Combined report saved to validation_report_converted.json")
                       :: log w2) w2)
        | (Raise _, w2) => (None, w2)
        end
    end.

End MultiSheet.

(** The status a sheet report shows: [validation_summary.status]. *)
Definition report_status (sheet_report : Json) : option string :=
  match sheet_report with
  | JObj fields =>
      match Dict.get "validation_summary" fields with
      | Some (JObj summary) =>
          match Dict.get "status" summary with
          | Some (JStr s) => Some s
          | _ => None
          end
      | _ => None
      end
  | _ => None
  end.

(** ** Sample data *)

Module Sample.

Definition column_frame (name : string) (d : Dtype) (cells : list Cell) : DataFrame :=
  {| header := [(LStr name, d)];
     rows := imap (fun i c => (Z.of_nat i, [c])) cells |}.

Definition column_schema (name type : string) (nullable : bool) : DBSchema :=
  [(name, {| type := type; nullable := nullable; primary_key := false |})].

(** The [orders] table: [Quantity INTEGER CHECK (Quantity > 0)]. *)
Definition quantity_db : DBSchema := column_schema "Quantity" "INTEGER" true.

Definition positive_quantity : CheckConstraint :=
  {| cc_name := Some "positive_quantity"; cc_sqltext := Some "Quantity > 0" |}.

Definition engine : Database :=
  {| tables := [("orders", quantity_db)];
     constraints := fun _ => Some [positive_quantity] |}.

(** The values 5, 0, -1 and the text abc in one column. *)
Definition quantity_mixed : DataFrame :=
  column_frame "Quantity" Object [CInt 5; CInt 0; CInt (-1); CStr "abc"].

Definition quantity_numbers : DataFrame :=
  column_frame "Quantity" Int64 [CInt 5; CInt 0; CInt (-1)].

(** A non-nullable integer column, stored as text, with one null and one
    empty string. *)
Definition stock_db : DBSchema := column_schema "Stock" "INTEGER" false.

Definition stock_frame : DataFrame :=
  column_frame "Stock" Object [CNull; CStr EmptyString; CStr "7"].

(** A column declared with a type the table does not know, and one
    declared temporal and held as text. *)
Definition shipping_db : DBSchema :=
  [("Shipped", {| type := "DATETIME"; nullable := true; primary_key := false |});
   ("Route", {| type := "GEOMETRY(POINT)"; nullable := true; primary_key := false |})].

Definition shipping_frame : DataFrame :=
  {| header := [(LStr "Shipped", Object); (LStr "Route", Object)];
     rows := [(0%Z, [CStr "2024-01-05"; CStr "POINT(1 2)"])] |}.

(** Two file columns renamed to the same database column. *)
Definition twice_frame : DataFrame :=
  Frame.rename [("Qty", LStr "Quantity"); ("Amount", LStr "Quantity")]
    {| header := [(LStr "Qty", Int64); (LStr "Amount", Int64)];
       rows := [(0%Z, [CInt 0; CInt 1])] |}.

(** A file schema with one column, and one from the fault handler. *)
Definition orders_schema : FileSchema :=
  {| file_name := "orders.csv"; sheet_name := None; total_rows := 3;
     total_columns := Some 2;
     columns := Some [("OrderID", {| inferred_type := "int64"; sample_values := [CInt 1]; null_count := 0 |});
                      ("Qty", {| inferred_type := "int64"; sample_values := [CInt 5]; null_count := 0 |})];
     error := None |}.

Definition failed_schema : FileSchema :=
  minimal_schema "orders.csv" None (Some "unreadable").

Definition orders_db : DBSchema :=
  [("OrderID", {| type := "INTEGER"; nullable := false; primary_key := true |});
   ("CustomerID", {| type := "INTEGER"; nullable := false; primary_key := false |});
   ("Quantity", {| type := "INTEGER"; nullable := false; primary_key := false |})].

(** A reader of the few documents the samples use. *)
Definition json_loads (s : string) : option Json :=
  if String.eqb s "{}" then Some (JObj [])
  else if String.eqb s "report" then
    Some (JObj [("validation_summary", JObj [("status", JStr "Passed")])])
  else if String.eqb s "rename" then
    Some (JObj [("naming_mismatches", JObj [("Qty", JStr "Quantity")])])
  else None.

Definition json_dumps (j : Json) : string := "{}".

(** A snapshot directory listed out of order, with one broken file and
    one file of another table. *)
Definition snapshots : Directory :=
  [("orders_schema_20240101T000000Z.json", "{}");
   ("orders_schema_20250101T000000Z.json", "{");
   ("customers_schema_20250101T000000Z.json", "{}");
   ("orders_schema_20230101T000000Z.json", "{}");
   ("orders_schema_20260101T000000Z.json", "report")].

(** A workbook with a blank sheet and a sheet of orders that holds one
    blank row. *)
Definition blank_sheet : DataFrame :=
  column_frame "A" Float64 [CNull; CNull].

Definition orders_sheet : DataFrame :=
  column_frame "Qty" Float64 [CFloat 5; CNull; CFloat (-1)].

Definition order_lines_db : DBSchema := column_schema "Quantity" "REAL" false.

Definition order_lines : Database :=
  {| tables := [("orders", order_lines_db)];
     constraints := fun _ => Some [positive_quantity] |}.

Definition book : InputFile :=
  {| workbook := Some [("Blank", Some blank_sheet); ("Orders", Some orders_sheet)];
     csv_data := None |}.

Definition world (typed : list string) (replies : list (option string)) : World :=
  {| frames := ∅; stdin := typed; llm := replies; prompts := [];
     clock := [("20240101T000000Z", "2024-01-01T00:00:00+00:00");
               ("20240101T000001Z", "2024-01-01T00:00:01+00:00");
               ("20240101T000002Z", "2024-01-01T00:00:02+00:00")];
     directory := []; log := [] |}.

End Sample.

(** Two worlds that differ at most in the frame store, the clock and the
    log: nothing was asked of the user or of the model, and no snapshot
    was written. *)
Definition quiet (w w' : World) : Prop :=
  stdin w' = stdin w /\ llm w' = llm w /\ prompts w' = prompts w
  /\ directory w' = directory w.

(** The message of the exception a selection is turned down with. *)
Definition refusal (user_selection : string) : string :=
  if declines user_selection then declined_message
  else invalid_table_message user_selection.

(** ** Effects of a step on the frame object and on the prompts *)

(** What a final-report prompt shows of the data: the violations are those
    of the frame [seen], renamed by the mapping of the schema analysis. *)
Definition observes (json_dumps : Json -> string) (engine : Database)
  (seen : DataFrame) (p : Prompt) : Prop :=
  match p with
  | FinalReportPrompt _ _ _ schema_analysis type_mismatches dq_violations _ _ _ =>
      exists mapper db_schema target_table_name,
        naming_mismatches json_dumps schema_analysis = inr mapper
        /\ get_db_schema engine target_table_name = Some db_schema
        /\ type_mismatches
           = fst (validate_data_types (Frame.rename mapper seen) db_schema)
        /\ dq_violations
           = fst (run_data_quality_checks (Frame.rename mapper seen) db_schema
                    engine target_table_name)
  | _ => True
  end.

(** A step that leaves the frame object [df] as it is, sends only prompts
    that satisfy [P], and returns only values that satisfy [Q]. *)
Definition steady {A} (df : nat) (f : DataFrame) (P : Prompt -> Prop)
  (Q : A -> Prop) (m : M A) : Prop :=
  forall w, frames w !! df = Some f ->
    frames (snd (m w)) !! df = Some f
    /\ (exists new, prompts (snd (m w)) = new ++ prompts w /\ Forall P new)
    /\ match fst (m w) with Return a => Q a | Raise _ => True end.

(** The world [w'] holds the frame [seen] at [df] and got there from [w]
    by sending only prompts that show that frame. *)
Definition lands (json_dumps : Json -> string) (engine : Database) (df : nat)
  (seen : DataFrame) (w w' : World) : Prop :=
  frames w' !! df = Some seen
  /\ exists new,
       prompts w' = new ++ prompts w
       /\ Forall (observes json_dumps engine seen) new.

(** The status of every sheet in the report of a workbook. *)
Definition sheet_statuses (output : option Json) : list (string * option string) :=
  match output with
  | Some (JObj fields) =>
      match Dict.get "sheet_validation_results" fields with
      | Some (JObj sheets) => map (fun '(k, r) => (k, report_status r)) sheets
      | _ => []
      end
  | _ => []
  end.

(** The data-quality violations shown in the final-report prompts. *)
Definition shown_violations (ps : list Prompt) : list (list DataQualityViolation) :=
  flat_map
    (fun p => match p with
              | FinalReportPrompt _ _ _ _ _ dq _ _ _ => [dq]
              | _ => []
              end) ps.

(** ** Further notions used to state what the code keeps *)

(** A cell that can go into a JSON sample: neither missing nor a
    timestamp object. *)
Definition serialisable (c : Cell) : bool :=
  match c with CNull | CTime _ _ => false | _ => true end.

(** The fault the extractor meets on a label carried by several columns. *)
Definition no_unique_attribute : string :=
  "'DataFrame' object has no attribute 'unique'".

(** The row labels a data-quality violation lists, and the number of
    sample entries it carries. *)
Definition violation_rows (v : DataQualityViolation) : list Z :=
  match v with
  | not_null_violation _ _ idx => idx
  | primary_key_violation _ _ _ _ => []
  | check_constraint_violation _ _ _ _ idx _ => idx
  end.

Definition sample_size (v : DataQualityViolation) : nat :=
  match v with
  | not_null_violation _ _ idx => length idx
  | primary_key_violation _ _ _ s => length s
  | check_constraint_violation _ _ _ _ idx s => Nat.max (length idx) (length s)
  end.

(** The constraints the checker works with: none when the inspector
    fails. *)
Definition known_constraints (engine : Database) (table_name : string)
  : list CheckConstraint :=
  default [] (constraints engine table_name).

(** A row of the column fails the comparison [op value]. *)
Definition fails_check (d : Dtype) (op : CheckPattern.Operator) (value : Q)
  (c : Cell) : bool :=
  match to_numeric d c with
  | Some n => negb (satisfies op n value)
  | None => false
  end.

(** The keys the primary-key check calls duplicated: the non-null values
    of the column that another row holds as well, row by row. *)
Definition duplicated_keys (values : list Cell) : list Cell :=
  let non_null := Frame.dropna values in
  List.filter
    (fun c => (1 <? length (List.filter (cell_eqb c) non_null))%nat) non_null.

(** What holds of a primary-key violation whatever the column: at least
    one key, at least two records for each key, no more records than the
    frame has rows, and a sample of five keys at most. *)
Definition key_counts_consistent (df : DataFrame) (v : DataQualityViolation)
  : Prop :=
  match v with
  | primary_key_violation _ k n s =>
      (0 < k)%nat /\ (2 * k <= n)%nat /\ (n <= Frame.len df)%nat
      /\ length s = Nat.min 5 k
  | _ => True
  end.

(** What holds of the samples of any violation: five entries at most, and
    row labels taken from the index of the frame. *)
Definition samples_bounded (df : DataFrame) (v : DataQualityViolation) : Prop :=
  (sample_size v <= 5)%nat /\ violation_rows v ⊆ Frame.index df.

(** Every character of the text satisfies [p]. *)
Fixpoint every_char (p : ascii -> bool) (s : string) : bool :=
  match s with
  | EmptyString => true
  | String c s' => p c && every_char p s'
  end.

(** ** Snapshots *)

(** The stamp the next reading of the clock gives. *)
Definition next_stamp (w : World) : string :=
  match clock w with t :: _ => fst t | [] => EmptyString end.

(** The name of the file a save for the table writes in world [w], and
    the document it holds. *)
Definition snapshot_name (table_name : string) (w : World) : string :=
  History.prefix table_name +:+ next_stamp w +:+ History.suffix.

Definition snapshot_document (file_schema : FileSchema) : Json :=
  JObj [("columns", json_of_columns (default [] (columns file_schema)))].

(** ** What a step leaves alone *)

(** A step that leaves one component of the world as it found it. *)
Definition keeps {A X} (field : World -> X) (m : M A) : Prop :=
  forall w, field (snd (m w)) = field w.

(** A step that sends [n] prompts at most. *)
Definition sends_at_most {A} (n : nat) (m : M A) : Prop :=
  forall w, exists new,
    prompts (snd (m w)) = new ++ prompts w /\ (length new <= n)%nat.

(** The reply the next call of the model gets. *)
Definition next_reply (w : World) : option string :=
  match llm w with r :: _ => r | [] => None end.

(** The keys under which the sheets that loaded are reported. *)
Definition loaded_keys (sheets : list (option string * option DataFrame))
  : list string :=
  omap (fun '(sheet, loaded) =>
          match loaded with
          | Some _ => Some (report_key sheet)
          | None => None
          end) sheets.

(** A sheet report as the loop files it: an object that carries the
    schema analysis. *)
Definition carries_analysis (report : Json) : bool :=
  match report with
  | JObj fields => Dict.mem "schema_analysis_report" fields
  | _ => false
  end.

(** The fields every final output starts from. *)
Definition output_header (file_path : string)
  (user_provided_table_name : option string) (processed_at : string)
  (inferred_target_table : option string) : Dict.t Json :=
  [("User_file_name", JStr (basename file_path));
   ("Processed_at", JStr processed_at);
   ("user_provided_target_table", json_of_option user_provided_table_name);
   ("inferred_target_table", json_of_option inferred_target_table)].

(** ** The call of the model, with its retries *)

Module Retry.

(** What one call of the API comes to, streaming included. *)
Inductive ApiOutcome : Type :=
| Reply (full_response : string)
| RateLimitError
| OtherError (message : string).

Definition is_rate_limit (o : ApiOutcome) : bool :=
  match o with RateLimitError => true | _ => false end.

(** The calls made and the seconds slept so far, and the log, latest
    first. *)
Record State : Type := {
  calls : nat;
  slept : nat;
  journal : list LogRecord
}.

Definition record (r : LogRecord) (st : State) : State :=
  {| calls := calls st; slept := slept st; journal := r :: journal st |}.

Definition called (st : State) : State :=
  {| calls := S (calls st); slept := slept st; journal := journal st |}.

(** [time.sleep(seconds)] *)
Definition sleep (seconds : nat) (st : State) : State :=
  {| calls := calls st; slept := slept st + seconds; journal := journal st |}.

Definition sending_note (attempt : nat) (max_retries : Z) : LogRecord :=
  (Info, "Sending prompt to LLM (Attempt " +:+ pretty (S attempt) +:+ "/"
         +:+ pretty max_retries +:+ ")...").

Definition rate_limit_note (attempt : nat) (max_retries : Z) : LogRecord :=
  (Warning, "Rate limit hit. Retrying in 60s... (" +:+ pretty (S attempt) +:+ "/"
            +:+ pretty max_retries +:+ ")").

Arguments sending_note : simpl never.
Arguments rate_limit_note : simpl never.

(** The turns of [for attempt in range(max_retries)] that are left. The
    outcome of a call is that of its rank among all the calls made. *)
Fixpoint attempts (api : nat -> ApiOutcome) (max_retries : Z)
  (remaining attempt : nat) (st : State) : option string * State :=
  match remaining with
  | O =>
      (None, record (Error, "Max retries exceeded for RateLimitError. Giving up.") st)
  | S remaining' =>
      let st1 := record (sending_note attempt max_retries) st in
      match api (calls st1) with
      | Reply full_response => (Some full_response, called st1)
      | RateLimitError =>
          attempts api max_retries remaining' (S attempt)
            (sleep 60 (record (rate_limit_note attempt max_retries) (called st1)))
      | OtherError message =>
          (None, record (Error, "An error occurred during the AI call: " +:+ message)
                   (called st1))
      end
  end.

Definition get_llm_streaming_response (api : nat -> ApiOutcome)
  (max_retries : Z) (st : State) : option string * State :=
  attempts api max_retries (Z.to_nat max_retries) 0 st.

(** The number of rate-limited calls among the [k] calls from rank
    [from] on. *)
Definition rate_limited (api : nat -> ApiOutcome) (from k : nat) : nat :=
  length (List.filter is_rate_limit (map api (seq from k))).

End Retry.

(** ** get_db_schema, from what the inspector lists *)

Module Inspector.

(** One entry of [inspector.get_columns]: the name, the rendering of the
    type and the nullability. *)
Record Column : Type := {
  col_name : string;
  col_type : string;
  col_nullable : bool
}.

(** A table: its columns and the [constrained_columns] of its primary-key
    constraint, when the constraint has that key. *)
Record Table : Type := {
  table_columns : list Column;
  constrained_columns : option (list string)
}.

(** The loop that fills [schema_info]. *)
Definition schema_info (t : Table) : DBSchema :=
  let primary_keys := default [] (constrained_columns t) in
  fold_left
    (fun schema_info col =>
       Dict.set (col_name col)
         {| type := col_type col;
            nullable := col_nullable col;
            primary_key := existsb (String.eqb (col_name col)) primary_keys |}
         schema_info)
    (table_columns t) [].

Definition get_db_schema (tables : Dict.t Table) (table_name : string)
  : option DBSchema * list LogRecord :=
  match Dict.get table_name tables with
  | None =>
      (None, [(Warning, "Table '" +:+ table_name
                        +:+ "' does not exist in the database.")])
  | Some t =>
      (Some (schema_info t),
       [(Info, "Successfully fetched schema for table: " +:+ table_name)])
  end.

(** An entry of the schema renders a listed column. *)
Definition renders (t : Table) (entry : string * DBColumn) : Prop :=
  (exists col, col ∈ table_columns t
     /\ col_name col = fst entry
     /\ type (snd entry) = col_type col
     /\ nullable (snd entry) = col_nullable col)
  /\ (primary_key (snd entry) = true
      <-> fst entry ∈ default [] (constrained_columns t)).

End Inspector.

(** ** extract_file_schema *)

Module FileReader.

(** What a read of the file system comes to: the value, the
    file-not-found error, or another error, each with its message. *)
Inductive Read (A : Type) : Type :=
| Loaded (a : A)
| FileNotFound (message : string)
| Unreadable (message : string).

Arguments Loaded {A} a.
Arguments FileNotFound {A} message.
Arguments Unreadable {A} message.

(** [pd.read_csv(path)], [pd.read_excel(path, sheet_name=...)] for a sheet
    name or, with [None], for the index 0, and
    [pd.ExcelFile(path).sheet_names]. *)
Record Readers : Type := {
  read_csv : string -> Read DataFrame;
  read_excel : string -> option string -> Read DataFrame;
  sheet_names : string -> Read (list string)
}.

Definition message_of {A} (r : Read A) : string :=
  match r with
  | Loaded _ => EmptyString
  | FileNotFound message | Unreadable message => message
  end.

(** The last line: the extractor on the frame just read. *)
Definition profile (df : DataFrame) (file_path : string)
  (current_sheet_name_for_extraction : option string)
  : option FileSchema * list LogRecord :=
  let '(file_schema, l, _) :=
    extract_schema_from_df 0 file_path current_sheet_name_for_extraction
      {[0%nat := df]} in
  (Some file_schema, l).

Definition sheet_failure (file_path : string) (sheet_name : option string)
  (e : string) : option FileSchema * list LogRecord :=
  (Some (minimal_schema file_path sheet_name (Some ("Failed to read sheet: " +:+ e))),
   [(Error, "Could not read sheet '"
            +:+ match sheet_name with Some s => s | None => "0 (first sheet)" end
            +:+ "' from Excel file '" +:+ file_path +:+ "': " +:+ e)]).

Definition extract_file_schema (r : Readers) (file_path : string)
  (sheet_name : option string) : option FileSchema * list LogRecord :=
  if Text.ends_with ".csv" file_path then
    match read_csv r file_path with
    | Loaded df =>
        let '(file_schema, l) := profile df file_path None in
        (file_schema, (Info, "Reading CSV file: " +:+ file_path) :: l)
    | FileNotFound _ =>
        (None, [(Error, "File not found: " +:+ file_path)])
    | Unreadable e =>
        (Some (minimal_schema file_path sheet_name
                 (Some ("General read error: " +:+ e))),
         [(Error, "Error reading file '" +:+ file_path +:+ "': " +:+ e)])
    end
  else if is_excel file_path then
    match read_excel r file_path sheet_name with
    | Loaded df =>
        let reading (current : string) :=
          let '(file_schema, l) := profile df file_path (Some current) in
          (file_schema,
           (Info, "Reading Excel file: " +:+ file_path +:+ ", Sheet: '"
                  +:+ current +:+ "'") :: l) in
        match sheet_name with
        | Some sheet_to_read => reading sheet_to_read
        | None =>
            match sheet_names r file_path with
            | Loaded (first :: _) => reading first
            | Loaded [] =>
                sheet_failure file_path sheet_name "Sheet index 0 is out of bounds."
            | failure => sheet_failure file_path sheet_name (message_of failure)
            end
        end
    | failure => sheet_failure file_path sheet_name (message_of failure)
    end
  else (None, [(Error, "Unsupported file type: " +:+ file_path)]).

(** The sheet a schema read from a workbook is recorded for: the one asked
    for, or the first of the workbook. *)
Definition recorded_sheet (r : Readers) (file_path : string)
  (sheet_name : option string) : option string :=
  match sheet_name with
  | Some s => Some s
  | None =>
      match sheet_names r file_path with
      | Loaded (first :: _) => Some first
      | _ => None
      end
  end.

End FileReader.

(** ** Further sample data *)

Module Cases.

(** The profile of the orders sheet with its blank row: one null among
    three values. *)
Definition quantity_profile : ColumnProfile :=
  {| inferred_type := "float64";
     sample_values := [CFloat 5; CFloat (-1)];
     null_count := 1 |}.

(** A key column where the key 1 is held by three rows and the key 2 by
    two, beside a null. *)
Definition order_ids : DataFrame :=
  Sample.column_frame "OrderID" Int64
    [CInt 1; CInt 2; CInt 1; CNull; CInt 2; CInt 1].

Definition order_id_column : DBColumn :=
  {| type := "INTEGER"; nullable := false; primary_key := true |}.

Definition order_ids_db : DBSchema := [("OrderID", order_id_column)].

Definition quantity_column : DBColumn :=
  {| type := "INTEGER"; nullable := true; primary_key := false |}.

Definition stock_column : DBColumn :=
  {| type := "INTEGER"; nullable := false; primary_key := false |}.

(** A writer and a reader that agree on the snapshot of the orders
    schema. *)
Definition json_dumps (j : Json) : string := "snapshot".

Definition json_loads (s : string) : option Json :=
  if String.eqb s "snapshot" then Some (snapshot_document Sample.orders_schema)
  else None.

(** A world whose clock is past every snapshot of the sample directory. *)
Definition later_world : World :=
  {| frames := ∅; stdin := []; llm := []; prompts := [];
     clock := [("20270101T000000Z", "2027-01-01T00:00:00+00:00")];
     directory := Sample.snapshots; log := [] |}.

(** A world that holds the orders sheet as frame object 0. *)
Definition sheet_world (typed : list string) (replies : list (option string))
  : World :=
  with_frames {[0%nat := Sample.orders_sheet]} (Sample.world typed replies).

(** An API that is rate-limited on every call. *)
Definition busy_api (rank : nat) : Retry.ApiOutcome := Retry.RateLimitError.

Definition fresh_state : Retry.State :=
  {| Retry.calls := 0; Retry.slept := 0; Retry.journal := [] |}.

(** Readers that find the orders sheet under every path. *)
Definition readers : FileReader.Readers :=
  {| FileReader.read_csv := fun _ => FileReader.Loaded Sample.orders_sheet;
     FileReader.read_excel := fun _ _ => FileReader.Loaded Sample.orders_sheet;
     FileReader.sheet_names := fun _ => FileReader.Loaded ["Orders"] |}.

End Cases.
(** * Properties *)

(** ** Dictionaries *)

Section DictFacts.

Context {V : Type}.

Lemma dict_keys_set_elem (k k0 : string) (v : V) (d : Dict.t V) :
  k0 ∈ Dict.keys (Dict.set k v d) <-> k0 = k \/ k0 ∈ Dict.keys d.
Proof.
  induction d as [|[k' v'] d IH]; cbn.
  - rewrite list_elem_of_singleton. set_solver.
  - destruct (String.eqb_spec k' k) as [->|Hne]; cbn.
    + set_solver.
    + rewrite !elem_of_cons, IH. tauto.
Qed.

Lemma dict_get_elem (k : string) (d : Dict.t V) (v : V) :
  Dict.get k d = Some v -> (k, v) ∈ d.
Proof.
  induction d as [|[k' v'] d IH]; cbn; [discriminate|].
  destruct (String.eqb_spec k' k) as [->|Hne].
  - intros [= ->]. left.
  - intros H. right. auto.
Qed.

Lemma dict_elem_get (k : string) (d : Dict.t V) (v : V) :
  NoDup (Dict.keys d) -> (k, v) ∈ d -> Dict.get k d = Some v.
Proof.
  induction d as [|[k' v'] d IH]; cbn.
  - intros _ H. inversion H.
  - intros Hnd Hin. apply NoDup_cons in Hnd as [Hnotin Hnd'].
    apply elem_of_cons in Hin as [Heq|Hin].
    + inversion Heq; subst. now rewrite String.eqb_refl.
    + destruct (String.eqb_spec k' k) as [->|Hne]; [|auto].
      exfalso. apply Hnotin. apply list_elem_of_fmap. now exists (k, v).
Qed.

End DictFacts.

(** ** The comparator *)

Section CompareSchemas.

Implicit Types (fs : FileSchema) (db : DBSchema).

(** The dictionary of the early return, with its own spelling of the keys. *)
Lemma compare_schemas_early_return fs db :
  extraction_failed fs = true ->
  compare_schemas fs db
  = [("missing_in_file", Dict.keys db); ("extra_in_file", [])].
Proof. intros H. unfold compare_schemas. now rewrite H. Qed.

Lemma reported_missing_failed fs db :
  extraction_failed fs = true ->
  reported_missing (compare_schemas fs db) = Dict.keys db.
Proof. intros H. unfold compare_schemas. now rewrite H. Qed.

Lemma reported_extra_failed fs db :
  extraction_failed fs = true ->
  reported_extra (compare_schemas fs db) = [].
Proof. intros H. unfold compare_schemas. now rewrite H. Qed.

Lemma reported_missing_ok fs db :
  extraction_failed fs = false ->
  reported_missing (compare_schemas fs db)
  = elements (db_column_names db ∖ file_column_names fs).
Proof. intros H. unfold compare_schemas. now rewrite H. Qed.

Lemma reported_extra_ok fs db :
  extraction_failed fs = false ->
  reported_extra (compare_schemas fs db)
  = elements (file_column_names fs ∖ db_column_names db).
Proof. intros H. unfold compare_schemas. now rewrite H. Qed.

Lemma failed_minimal_no_columns fs :
  extraction_failed fs = true -> error_is_minimal fs = true ->
  file_column_names fs = ∅.
Proof.
  unfold extraction_failed, error_is_minimal, file_column_names.
  destruct (error fs), (columns fs) as [[|]|]; simpl; try discriminate; auto.
Qed.

Lemma unreadable_no_columns fs :
  unreadable fs = true -> extraction_failed fs = false ->
  file_column_names fs = ∅.
Proof.
  unfold extraction_failed, unreadable, file_column_names.
  destruct (error fs), (columns fs) as [[|]|]; simpl; try discriminate; auto.
Qed.


(** C4: an unreadable file schema reports every database column as
    missing and none as extra. *)
Theorem compare_schemas_unreadable fs db :
  unreadable fs = true ->
  list_to_set (reported_missing (compare_schemas fs db)) = db_column_names db
  /\ reported_extra (compare_schemas fs db) = [].
Proof.
  intros Hun.
  destruct (extraction_failed fs) eqn:Hf.
  - rewrite reported_missing_failed, reported_extra_failed by assumption.
    split; reflexivity.
  - rewrite reported_missing_ok, reported_extra_ok by assumption.
    rewrite (unreadable_no_columns fs Hun Hf).
    rewrite list_to_set_elements_L. split.
    + set_solver.
    + replace ((∅ : gset string) ∖ db_column_names db) with (∅ : gset string)
        by set_solver.
      apply elements_empty.
Qed.

End CompareSchemas.

(** ** Text and literals *)

Example upper_varchar : Text.upper (Text.before "(" "varchar(50)") = "VARCHAR".
Proof. reflexivity. Qed.

Example strip_none : Text.lower (Text.strip "  None ") = "none".
Proof. reflexivity. Qed.

Example of_text_abc : Numeric.of_text "abc" = None.
Proof. reflexivity. Qed.

Example of_text_neg : Numeric.of_text "-1.50" = Some (Qmake (-150) 100).
Proof. reflexivity. Qed.

Example of_text_empty : Numeric.of_text EmptyString = None.
Proof. reflexivity. Qed.

Example sql_to_pandas_map_value :
  sql_to_pandas_map =
  [("INTEGER", "int64"); ("INT", "int64");
   ("REAL", "float64"); ("FLOAT", "float64"); ("NUMERIC", "float64");
   ("TEXT", "object"); ("VARCHAR", "object"); ("CHAR", "object");
   ("DATE", "datetime64[ns]"); ("DATETIME", "datetime64[ns]");
   ("TIMESTAMP", "datetime64[ns]");
   ("BOOLEAN", "bool"); ("BOOL", "bool")].
Proof. reflexivity. Qed.

Example match_quantity :
  CheckPattern.match_check "Quantity" "Quantity > 0" = Some (CheckPattern.Gt, "0").
Proof. reflexivity. Qed.

Example match_quoted :
  CheckPattern.match_check "price" "`Price`>=-1.5 AND x" = Some (CheckPattern.Ge, "-1.5").
Proof. reflexivity. Qed.

Example match_compound :
  CheckPattern.match_check "a" "a + b > 0" = None.
Proof. reflexivity. Qed.

(** ** Column selection *)

Section ColumnSelection.

Lemma getitem_series_has_column name df d values :
  Frame.getitem (LStr name) df = Frame.Series d values ->
  Frame.has_column name df = true.
Proof.
  unfold Frame.getitem, Frame.has_column, Frame.labels, Frame.positions.
  destruct (Frame.positions_from 0 (LStr name) (header df)) as [|p ps] eqn:E.
  - discriminate.
  - intros _. destruct (existsb _ _) eqn:Hex; [reflexivity|].
    exfalso. clear -E Hex. revert E Hex. generalize 0%nat.
    induction (header df) as [|[l' d'] h IH]; intros i; cbn; [discriminate|].
    destruct (label_eqb l' (LStr name)); cbn; [discriminate|]. apply IH.
Qed.

Lemma getitem_duplicate name df :
  (1 < Frame.multiplicity name df)%nat ->
  Frame.getitem (LStr name) df = Frame.SubFrame.
Proof.
  unfold Frame.multiplicity, Frame.getitem.
  destruct (Frame.positions (LStr name) df) as [|[j d] [|q qs]]; cbn;
    intros H; try lia; reflexivity.
Qed.

End ColumnSelection.

(** ** The type validator *)

Section TypeValidator.

Variable df : DataFrame.

Lemma validate_column_names entry v :
  v ∈ fst (validate_column df entry) -> tv_column v = fst entry.
Proof.
  destruct entry as [name det]. unfold validate_column.
  destruct (negb (Frame.has_column name df)); cbn [fst];
    [intros H%elem_of_nil; contradiction|].
  destruct (Frame.getitem (LStr name) df) as [|dtype values|]; cbn [fst].
  - intros H%elem_of_nil; contradiction.
  - destruct (Dict.get _ sql_to_pandas_map); cbn [fst];
      [|intros H%elem_of_nil; contradiction].
    match goal with |- context [if ?b then _ else _] => destruct b end; cbn [fst];
      [|intros H%elem_of_nil; contradiction].
    intros H. apply list_elem_of_singleton in H. now subst.
  - intros H%elem_of_nil; contradiction.
Qed.

Lemma validate_columns_elem db v :
  v ∈ fst (validate_columns df db) ->
  exists entry, entry ∈ db /\ v ∈ fst (validate_column df entry).
Proof.
  induction db as [|e db IH]; cbn [validate_columns fst].
  - intros H%elem_of_nil; contradiction.
  - destruct (validate_column df e) as [ve le] eqn:He.
    destruct (validate_columns df db) as [vs ls]. cbn [fst] in *.
    intros H. apply elem_of_app in H as [H|H].
    + exists e. split; [left|]. now rewrite He.
    + destruct (IH H) as (e' & Hin & Hv). exists e'. split; [now right|assumption].
Qed.

Lemma validate_columns_log db entry r :
  entry ∈ db -> r ∈ snd (validate_column df entry) ->
  r ∈ snd (validate_columns df db).
Proof.
  induction db as [|e db IH]; cbn [validate_columns snd].
  - intros H%elem_of_nil; contradiction.
  - destruct (validate_column df e) as [ve le] eqn:He.
    destruct (validate_columns df db) as [vs ls]. cbn [snd] in *.
    intros Hin Hr. apply elem_of_app. apply elem_of_cons in Hin as [->|Hin].
    + left. now rewrite He in Hr.
    + right. auto.
Qed.

Lemma validate_data_types_fst db :
  fst (validate_data_types df db) = fst (validate_columns df db).
Proof.
  unfold validate_data_types. now destruct (validate_columns df db).
Qed.

Lemma validate_data_types_log db r :
  r ∈ snd (validate_columns df db) -> r ∈ snd (validate_data_types df db).
Proof.
  unfold validate_data_types. destruct (validate_columns df db); cbn [snd].
  intros H. apply elem_of_app. now left.
Qed.

(** A name whose every turn of the loop flags nothing is never flagged. *)
Lemma quiet_name db c :
  (forall d, (c, d) ∈ db -> fst (validate_column df (c, d)) = []) ->
  forall v, v ∈ fst (validate_data_types df db) -> tv_column v <> c.
Proof.
  intros Hquiet v Hv Hc.
  rewrite validate_data_types_fst in Hv.
  apply validate_columns_elem in Hv as ([c' d'] & Hin' & Hv').
  pose proof (validate_column_names _ _ Hv') as Hname. cbn [fst] in Hname.
  rewrite Hc in Hname. subst c'.
  rewrite (Hquiet d' Hin') in Hv'. now apply elem_of_nil in Hv'.
Qed.

(** In a dictionary a name has one entry, so one quiet turn is enough. *)
Lemma quiet_column db c d :
  NoDup (Dict.keys db) -> (c, d) ∈ db ->
  fst (validate_column df (c, d)) = [] ->
  forall v, v ∈ fst (validate_data_types df db) -> tv_column v <> c.
Proof.
  intros Hnd Hin Hquiet. apply quiet_name. intros d' Hin'.
  pose proof (dict_elem_get _ _ _ Hnd Hin) as G1.
  pose proof (dict_elem_get _ _ _ Hnd Hin') as G2.
  assert (d' = d) by congruence. now subst d'.
Qed.

End TypeValidator.

(** C7: a matched column declared DATE, DATETIME or TIMESTAMP and held as
    text is not flagged; a matched column whose declared base type is not
    in the compatibility table is not flagged either, and the warning
    about the unknown type is logged. *)
Theorem temporal_text_and_unknown_types_pass
  (df : DataFrame) (db : DBSchema) (c : string) (d : DBColumn)
  (dtype : Dtype) (values : list Cell) :
  NoDup (Dict.keys db) ->
  (c, d) ∈ db ->
  Frame.getitem (LStr c) df = Frame.Series dtype values ->
  temporal_as_text d dtype || unknown_base d = true ->
  (forall v, v ∈ fst (validate_data_types df db) -> tv_column v <> c)
  /\ (unknown_base d = true ->
      unknown_type_warning c (db_type_base d) ∈ snd (validate_data_types df db)).
Proof.
  intros Hnd Hin Hget Hex.
  pose proof (getitem_series_has_column _ _ _ _ Hget) as Hhas.
  split.
  - apply (quiet_column df db c d Hnd Hin).
    unfold validate_column. rewrite Hhas, Hget. cbn [negb].
    unfold temporal_as_text, unknown_base, Dict.mem in Hex.
    destruct (Dict.get (db_type_base d) sql_to_pandas_map) as [expected|] eqn:Hexp;
      [|reflexivity].
    cbn [negb] in Hex.
    rewrite orb_false_r in Hex. apply andb_true_iff in Hex as [Hdate Hobj].
    unfold is_object in Hobj. rewrite Hdate, Hobj. cbn [andb negb].
    now rewrite andb_false_r.
  - intros Hunk. apply validate_data_types_log.
    apply (validate_columns_log df db (c, d)); [assumption|].
    unfold validate_column. rewrite Hhas, Hget. cbn [negb].
    unfold unknown_base, Dict.mem in Hunk.
    destruct (Dict.get (db_type_base d) sql_to_pandas_map); [discriminate|].
    cbn [snd]. left.
Qed.

(** ** The data-quality checker *)

Section QualityChecker.

Variable df : DataFrame.

Lemma not_null_check_names c d values v :
  v ∈ not_null_check df c d values -> dq_column v = c.
Proof.
  unfold not_null_check.
  destruct (0 <? not_null_count d values)%nat;
    [|intros H%elem_of_nil; contradiction].
  intros H. apply list_elem_of_singleton in H. now subst.
Qed.

Lemma primary_key_check_names c values v :
  v ∈ primary_key_check c values -> dq_column v = c.
Proof.
  unfold primary_key_check. cbv zeta.
  match goal with |- context [if ?b then _ else _] => destruct b end;
    [|intros H%elem_of_nil; contradiction].
  intros H. apply list_elem_of_singleton in H. now subst.
Qed.

Lemma check_one_constraint_names c d values k v :
  v ∈ fst (check_one_constraint df c d values k) -> dq_column v = c.
Proof.
  unfold check_one_constraint. cbv zeta.
  destruct (CheckPattern.match_check _ _) as [[op lit]|]; cbn [fst];
    [|intros H%elem_of_nil; contradiction].
  destruct (forallb notna _); cbn [fst];
    [|intros H%elem_of_nil; contradiction].
  destruct (Numeric.of_text lit); cbn [fst];
    [|intros H%elem_of_nil; contradiction].
  match goal with |- context [if ?b then _ else _] => destruct b end; cbn [fst];
    [|intros H%elem_of_nil; contradiction].
  intros H. apply list_elem_of_singleton in H. now subst.
Qed.

Lemma check_constraints_loop_names c d values ks v :
  v ∈ fst (check_constraints_loop df c d values ks) -> dq_column v = c.
Proof.
  induction ks as [|k ks IH]; cbn [check_constraints_loop fst].
  - intros H%elem_of_nil; contradiction.
  - destruct (check_one_constraint df c d values k) as [v1 l1] eqn:E1.
    destruct (check_constraints_loop df c d values ks) as [v2 l2].
    cbn [fst] in *. intros H. apply elem_of_app in H as [H|H]; [|auto].
    apply (check_one_constraint_names c d values k). now rewrite E1.
Qed.

Lemma check_column_names cs entry v :
  v ∈ fst (check_column df cs entry) -> dq_column v = fst entry.
Proof.
  destruct entry as [name det]. unfold check_column.
  destruct (negb (Frame.has_column name df)); cbn [fst];
    [intros H%elem_of_nil; contradiction|].
  destruct (Frame.getitem (LStr name) df) as [|d values|]; cbn [fst].
  - intros H%elem_of_nil; contradiction.
  - cbv zeta.
    destruct (check_constraints_loop df name d values _) as [v3 l3] eqn:E3.
    cbn [fst]. intros H.
    apply elem_of_app in H as [H|H]; [|apply elem_of_app in H as [H|H]].
    + destruct (negb (nullable det)); [|now apply elem_of_nil in H].
      eapply not_null_check_names; eassumption.
    + destruct (primary_key det); [|now apply elem_of_nil in H].
      eapply primary_key_check_names; eassumption.
    + eapply check_constraints_loop_names. rewrite E3. exact H.
  - intros H%elem_of_nil; contradiction.
Qed.

Lemma check_columns_elem cs db v :
  v ∈ fst (check_columns df cs db) ->
  exists entry, entry ∈ db /\ v ∈ fst (check_column df cs entry).
Proof.
  induction db as [|e db IH]; cbn [check_columns fst].
  - intros H%elem_of_nil; contradiction.
  - destruct (check_column df cs e) as [ve le] eqn:He.
    destruct (check_columns df cs db) as [vs ls]. cbn [fst] in *.
    intros H. apply elem_of_app in H as [H|H].
    + exists e. split; [left|]. now rewrite He.
    + destruct (IH H) as (e' & Hin & Hv). exists e'. split; [now right|assumption].
Qed.

Lemma run_data_quality_checks_fst db engine table :
  fst (run_data_quality_checks df db engine table)
  = fst (check_columns df (default [] (constraints engine table)) db).
Proof.
  unfold run_data_quality_checks.
  destruct (constraints engine table); cbn [default];
    now destruct (check_columns df _ db).
Qed.

(** A name whose every turn of the loop reports nothing is never
    reported. *)
Lemma quiet_quality_name db engine table c :
  (forall cs d, (c, d) ∈ db -> fst (check_column df cs (c, d)) = []) ->
  forall v, v ∈ fst (run_data_quality_checks df db engine table) ->
            dq_column v <> c.
Proof.
  intros Hquiet v Hv Hc.
  rewrite run_data_quality_checks_fst in Hv.
  apply check_columns_elem in Hv as ([c' d'] & Hin' & Hv').
  pose proof (check_column_names _ _ _ Hv') as Hname. cbn [fst] in Hname.
  rewrite Hc in Hname. subst c'.
  rewrite (Hquiet _ d' Hin') in Hv'. now apply elem_of_nil in Hv'.
Qed.

End QualityChecker.

(** C8: a name that selects more than one column of the frame is skipped
    by both validators: no type violation and no data-quality violation of
    any kind names it. *)
Theorem duplicate_column_skipped
  (df : DataFrame) (db : DBSchema) (engine : Database) (table c : string) :
  (1 < Frame.multiplicity c df)%nat ->
  (forall v, v ∈ fst (validate_data_types df db) -> tv_column v <> c)
  /\ (forall v, v ∈ fst (run_data_quality_checks df db engine table) ->
                dq_column v <> c).
Proof.
  intros Hdup. pose proof (getitem_duplicate c df Hdup) as Hget. split.
  - apply quiet_name. intros d _. unfold validate_column. rewrite Hget.
    now destruct (negb (Frame.has_column c df)).
  - apply quiet_quality_name. intros cs d _. unfold check_column. rewrite Hget.
    now destruct (negb (Frame.has_column c df)).
Qed.

(** ** The not-null count *)

Lemma object_is_not_numeric (d : Dtype) :
  is_object d = true -> is_numeric_dtype d || is_datetime64_any_dtype d = false.
Proof. now destruct d. Qed.

(** The branch that adds the empty strings is never taken: the count is
    the count of nulls, whatever the storage type. *)
Lemma not_null_count_nulls_only (d : Dtype) (values : list Cell) :
  not_null_count d values = Frame.count is_null values.
Proof.
  unfold not_null_count.
  destruct (is_numeric_dtype d || is_datetime64_any_dtype d) eqn:Hnum;
    [|reflexivity].
  destruct (is_object d) eqn:Hobj; [|reflexivity].
  rewrite (object_is_not_numeric d Hobj) in Hnum. discriminate.
Qed.

(** C2: on a non-nullable integer column stored as text that holds one
    null and one empty string, the checker reports a count of 1, while
    its sample of affected rows lists both rows. *)
Theorem not_null_misses_empty_string :
  fst (run_data_quality_checks Sample.stock_frame Sample.stock_db
         Sample.engine "orders")
  = [not_null_violation "Stock" 1 [0%Z; 1%Z]].
Proof. vm_compute. reflexivity. Qed.

(** ** CHECK constraints *)

Lemma violated_iff_unsatisfied op n value :
  violated op (Some n) value = negb (satisfies op n value).
Proof.
  destruct op; cbn; unfold Qleb, Qltb; now rewrite ?negb_involutive.
Qed.

(** One value that does not coerce silences the whole constraint. *)
Lemma check_skipped_when_not_all_numeric df c d values k :
  forallb notna (map (to_numeric d) values) = false ->
  check_one_constraint df c d values k
  = ([], [skipped_constraint_note c (Text.strip (default EmptyString (cc_sqltext k)))]).
Proof.
  intros Hnum. unfold check_one_constraint. cbv zeta. rewrite Hnum.
  now destruct (CheckPattern.match_check _ _) as [[op lit]|].
Qed.

(** A value that coerced and does not satisfy the comparison. *)
Lemma violated_and_coerced op d value c :
  violated op (to_numeric d c) value && notna (to_numeric d c)
  = match to_numeric d c with
    | Some n => negb (satisfies op n value)
    | None => false
    end.
Proof.
  destruct (to_numeric d c) as [n|]; cbn [notna].
  - by rewrite violated_iff_unsatisfied, andb_true_r.
  - by rewrite andb_false_r.
Qed.

Lemma count_true_map {A} (p : A -> bool) (l : list A) :
  count_true (map p l) = length (List.filter p l).
Proof.
  unfold count_true. induction l as [|x l IH]; [reflexivity|].
  cbn [map List.filter]. destruct (p x); cbn [length]; by rewrite ?IH.
Qed.

Lemma select_map_filter {A} (p : A -> bool) (l : list A) :
  select (map p l) l = List.filter p l.
Proof.
  induction l as [|x l IH]; [reflexivity|].
  cbn [map select List.filter]. destruct (p x); by rewrite IH.
Qed.

(** When every value coerces and the constraint has the supported form,
    the count is the number of rows that fail the comparison. *)
Lemma check_counts_failing_rows df c d values k op lit value :
  CheckPattern.match_check c (Text.strip (default EmptyString (cc_sqltext k)))
  = Some (op, lit) ->
  Numeric.of_text lit = Some value ->
  forallb notna (map (to_numeric d) values) = true ->
  let fails (x : Cell) :=
    match to_numeric d x with
    | Some n => negb (satisfies op n value)
    | None => false
    end in
  fst (check_one_constraint df c d values k)
  = if (0 <? length (List.filter fails values))%nat then
      [check_constraint_violation c (cc_name k)
         (Text.strip (default EmptyString (cc_sqltext k)))
         (length (List.filter fails values))
         (firstn 5 (select (map fails values) (Frame.index df)))
         (firstn 5 (List.filter fails values))]
    else [].
Proof.
  intros Hm Hv Hnum fails. unfold check_one_constraint. cbv zeta.
  rewrite Hm, Hnum, Hv.
  rewrite map_map.
  rewrite (map_ext _ fails) by (intros x; apply violated_and_coerced).
  rewrite count_true_map, select_map_filter.
  by destruct (0 <? length (List.filter fails values))%nat.
Qed.

(** C1: with the values 5, 0, -1 and abc the constraint [Quantity > 0] is
    skipped and nothing is reported; without abc the two rows 0 and -1
    are counted. *)
Theorem check_constraint_skipped_on_mixed_column :
  fst (run_data_quality_checks Sample.quantity_mixed Sample.quantity_db
         Sample.engine "orders") = []
  /\ fst (run_data_quality_checks Sample.quantity_numbers Sample.quantity_db
            Sample.engine "orders")
     = [check_constraint_violation "Quantity" (Some "positive_quantity")
          "Quantity > 0" 2 [1%Z; 2%Z] [CInt 0; CInt (-1)]].
Proof. split; vm_compute; reflexivity. Qed.

(** ** Schema history *)

Section SortedDescending.

#[local] Instance later_first_trans : Transitive later_first.
Proof. intros a b c Hab Hbc. unfold later_first, flip in *. by etrans. Qed.

#[local] Instance later_first_antisym : AntiSymm (=) later_first.
Proof.
  intros a b Hab Hba. unfold later_first, flip in *.
  by apply (anti_symm String.le).
Qed.

Lemma insert_desc_perm x l : History.insert_desc x l ≡ₚ x :: l.
Proof.
  induction l as [|y l IH]; cbn; [done|].
  destruct (Text.leb y x); [done|].
  rewrite IH. apply Permutation_swap.
Qed.

Lemma sorted_desc_perm l : History.sorted_desc l ≡ₚ l.
Proof.
  induction l as [|x l IH]; cbn; [done|].
  unfold History.sorted_desc in IH. rewrite insert_desc_perm. by f_equiv.
Qed.

Lemma insert_desc_sorted x l :
  Sorted later_first l -> Sorted later_first (History.insert_desc x l).
Proof.
  induction l as [|y l IH]; cbn; intros Hs.
  - repeat constructor.
  - destruct (Text.leb y x) eqn:Hyx.
    + constructor; [done|]. constructor.
      unfold later_first, flip, String.le. unfold Text.leb in Hyx. by rewrite Hyx.
    + apply Sorted_inv in Hs as [Hs Hhd]. constructor; [by apply IH|].
      assert (later_first y x) as Hxy.
      { unfold later_first, flip, String.le. unfold Text.leb in Hyx.
        destruct (String.leb_total x y) as [H|H]; [by rewrite H|].
        rewrite H in Hyx. discriminate. }
      destruct l as [|z l]; cbn.
      * by constructor.
      * destruct (Text.leb z x); constructor; [done|].
        by inversion Hhd.
Qed.

Lemma sorted_desc_sorted l : Sorted later_first (History.sorted_desc l).
Proof.
  induction l as [|x l IH]; cbn; [constructor|].
  by apply insert_desc_sorted.
Qed.

(** The order of the listing does not matter. *)
Lemma sorted_desc_listing l1 l2 :
  l1 ≡ₚ l2 -> History.sorted_desc l1 = History.sorted_desc l2.
Proof.
  intros Hp. apply (Sorted_unique later_first); try apply sorted_desc_sorted.
  by rewrite !sorted_desc_perm.
Qed.

Lemma sorted_desc_strongly l : StronglySorted later_first (History.sorted_desc l).
Proof. apply Sorted_StronglySorted; [apply _|apply sorted_desc_sorted]. Qed.

End SortedDescending.

Section Slices.

Context {A : Type}.

Lemma slice_to_length (n : Z) (l : list A) :
  (0 <= n)%Z -> (Z.of_nat (length (History.slice_to n l)) <= n)%Z.
Proof.
  intros Hn. unfold History.slice_to.
  destruct (0 <=? n)%Z eqn:E; [|lia].
  rewrite length_take. lia.
Qed.

Lemma slice_to_sublist (n : Z) (l : list A) : History.slice_to n l `sublist_of` l.
Proof.
  unfold History.slice_to. destruct (0 <=? n)%Z; apply sublist_take.
Qed.

End Slices.

Section Stamps.

Lemma append_cons (c : ascii) (s r : string) :
  String c s +:+ r = String c (s +:+ r).
Proof. reflexivity. Qed.

Lemma append_nil (r : string) : EmptyString +:+ r = r.
Proof. reflexivity. Qed.

Lemma digits_value_acc (acc : Z) (s : string) :
  Numeric.digits_value acc s
  = (acc * 10 ^ Z.of_nat (String.length s) + Numeric.digits_value 0 s)%Z.
Proof.
  revert acc. induction s as [|c s IH]; intros acc.
  - cbn. lia.
  - cbn [Numeric.digits_value String.length].
    rewrite (IH (10 * acc + Numeric.digit_value c)%Z).
    rewrite (IH (10 * 0 + Numeric.digit_value c)%Z).
    rewrite Nat2Z.inj_succ, Z.pow_succ_r by lia. lia.
Qed.

Lemma digit_value_bounds (c : ascii) :
  Text.is_digit c = true -> (0 <= Numeric.digit_value c <= 9)%Z.
Proof.
  unfold Text.is_digit, Numeric.digit_value. intros H.
  apply andb_true_iff in H as [H1 H2].
  apply Nat.leb_le in H1, H2. lia.
Qed.

Lemma digits_only_digits (s : string) :
  (0 <= Numeric.digits_value 0 (History.digits_only s)
   < 10 ^ Z.of_nat (String.length (History.digits_only s)))%Z.
Proof.
  induction s as [|c s IH]; cbn [History.digits_only].
  - cbn. lia.
  - destruct (Text.is_digit c) eqn:Hd; [|exact IH].
    cbn [Numeric.digits_value String.length].
    rewrite digits_value_acc, Nat2Z.inj_succ, Z.pow_succ_r by lia.
    pose proof (digit_value_bounds c Hd). nia.
Qed.

Lemma shape_digit_count shape : forall sep s1 s2,
  History.has_shape shape sep s1 = true ->
  History.has_shape shape sep s2 = true ->
  String.length (History.digits_only s1) = String.length (History.digits_only s2).
Proof.
  induction shape as [|[|] shape IH]; intros sep [|c1 s1] [|c2 s2];
    cbn [History.has_shape]; try discriminate; try reflexivity.
  - intros [Hd1 H1]%andb_true_iff [Hd2 H2]%andb_true_iff.
    cbn [History.digits_only]. rewrite Hd1, Hd2. cbn [String.length].
    f_equal. eauto.
  - destruct sep as [|x sep]; [discriminate|].
    intros [He1 H1]%andb_true_iff [He2 H2]%andb_true_iff.
    apply Ascii.eqb_eq in He1, He2. subst c1 c2.
    cbn [History.digits_only]. destruct (Text.is_digit x); cbn [String.length];
      [f_equal|]; eauto.
Qed.

Lemma digit_compare (c1 c2 : ascii) :
  Text.is_digit c1 = true -> Text.is_digit c2 = true ->
  Ascii.compare c1 c2 = Gt ->
  (Numeric.digit_value c2 < Numeric.digit_value c1)%Z.
Proof.
  unfold Text.is_digit, Numeric.digit_value, Ascii.compare, nat_of_ascii.
  intros [H1 _]%andb_true_iff [H2 _]%andb_true_iff Hc.
  apply Nat.leb_le in H1, H2. apply N.compare_gt_iff in Hc. lia.
Qed.

(** Two texts of one shape: the one that denotes the smaller number comes
    first in the order of strings, whatever follows them. *)
Lemma shape_order shape : forall sep s1 s2 r1 r2,
  History.has_shape shape sep s1 = true ->
  History.has_shape shape sep s2 = true ->
  (History.stamp_instant s1 < History.stamp_instant s2)%Z ->
  String.compare (s1 +:+ r1) (s2 +:+ r2) = Lt.
Proof.
  unfold History.stamp_instant.
  induction shape as [|[|] shape IH]; intros sep [|c1 s1] [|c2 s2] r1 r2;
    cbn [History.has_shape]; try discriminate.
  - intros [Hd1 H1]%andb_true_iff [Hd2 H2]%andb_true_iff.
    cbn [History.digits_only]. rewrite Hd1, Hd2.
    rewrite !append_cons. cbn [Numeric.digits_value String.compare].
    rewrite (digits_value_acc _ (History.digits_only s1)).
    rewrite (digits_value_acc _ (History.digits_only s2)).
    rewrite (shape_digit_count shape sep s1 s2 H1 H2).
    pose proof (digits_only_digits s1) as B1.
    pose proof (digits_only_digits s2) as B2.
    rewrite (shape_digit_count shape sep s1 s2 H1 H2) in B1.
    intros Hlt.
    destruct (Ascii.compare c1 c2) eqn:Hc.
    + apply Ascii.compare_eq_iff in Hc. subst c2.
      apply (IH sep); [done..|]. lia.
    + reflexivity.
    + pose proof (digit_compare c1 c2 Hd1 Hd2 Hc). nia.
  - destruct sep as [|x sep]; [discriminate|].
    intros [He1 H1]%andb_true_iff [He2 H2]%andb_true_iff.
    apply Ascii.eqb_eq in He1, He2. subst c1 c2.
    rewrite !append_cons. cbn [History.digits_only String.compare].
    assert (Ascii.compare x x = Eq) as ->.
    { unfold Ascii.compare. apply N.compare_refl. }
    destruct (Text.is_digit x) eqn:Hx.
    + cbn [Numeric.digits_value].
      rewrite (digits_value_acc _ (History.digits_only s1)).
      rewrite (digits_value_acc _ (History.digits_only s2)).
      rewrite (shape_digit_count shape sep s1 s2 H1 H2).
      intros Hlt. apply (IH sep); [done..|]. lia.
    + apply (IH sep); done.
Qed.

Lemma compare_common_prefix (p a b : string) :
  String.compare (p +:+ a) (p +:+ b) = String.compare a b.
Proof.
  induction p as [|c p IH]; [reflexivity|].
  rewrite !append_cons. cbn [String.compare].
  assert (Ascii.compare c c = Eq) as ->; [|exact IH].
  unfold Ascii.compare. apply N.compare_refl.
Qed.

(** Among well-formed stamps under one prefix, the order of the paths is
    the order of the instants. *)
Lemma path_order_is_time_order (p s1 s2 r1 r2 : string) :
  History.well_formed_stamp s1 = true ->
  History.well_formed_stamp s2 = true ->
  String.le (p +:+ s1 +:+ r1) (p +:+ s2 +:+ r2) ->
  (History.stamp_instant s1 <= History.stamp_instant s2)%Z.
Proof.
  intros W1 W2 Hle.
  destruct (Z.le_gt_cases (History.stamp_instant s1) (History.stamp_instant s2))
    as [|Hgt]; [done|].
  exfalso.
  pose proof (shape_order _ _ s2 s1 r2 r1 W2 W1 Hgt) as Hc.
  unfold String.le, String.leb in Hle.
  rewrite compare_common_prefix, String.compare_antisym, Hc in Hle.
  exact Hle.
Qed.

End Stamps.

Section SnapshotNames.

Lemma append_assoc (a b c : string) : (a +:+ b) +:+ c = a +:+ (b +:+ c).
Proof.
  induction a as [|x a IH]; [reflexivity|].
  rewrite !append_cons. by rewrite IH.
Qed.

Lemma strip_prefix_sound (p s r : string) :
  Text.strip_prefix p s = Some r -> s = p +:+ r.
Proof.
  revert s. induction p as [|a p IH]; intros [|b s]; cbn; try discriminate.
  - by intros [= <-].
  - by intros [= <-].
  - destruct (Ascii.eqb_spec a b) as [->|]; [|discriminate].
    intros H. rewrite append_cons. f_equal. by apply IH.
Qed.

Lemma strip_prefix_append (p r : string) :
  Text.strip_prefix p (p +:+ r) = Some r.
Proof.
  induction p as [|a p IH]; [by destruct r|].
  rewrite append_cons. cbn. by rewrite Ascii.eqb_refl.
Qed.

Lemma substring_all (s : string) : String.substring 0 (String.length s) s = s.
Proof. induction s as [|c s IH]; cbn; [done|]. by rewrite IH. Qed.

Lemma substring_split (s : string) : forall n,
  (n <= String.length s)%nat ->
  s = String.substring 0 n s +:+ String.substring n (String.length s - n) s.
Proof.
  induction s as [|c s IH]; intros [|n] Hn; cbn in Hn; try lia.
  - reflexivity.
  - rewrite Nat.sub_0_r, substring_all. reflexivity.
  - cbn [String.substring String.length Nat.sub]. rewrite append_cons.
    f_equal. apply IH. lia.
Qed.

Lemma ends_with_split (suffix s : string) :
  Text.ends_with suffix s = true ->
  s = String.substring 0 (String.length s - String.length suffix) s +:+ suffix.
Proof.
  unfold Text.ends_with. intros [Hlen Heq]%andb_true_iff.
  apply Nat.leb_le in Hlen. apply String.eqb_eq in Heq.
  rewrite (substring_split s (String.length s - String.length suffix)) at 1 by lia.
  replace (String.length s - (String.length s - String.length suffix))%nat
    with (String.length suffix) by lia.
  by rewrite Heq.
Qed.

(** A matching name is the prefix of the table, what [stamp_of] reads, and
    [.json]. *)
Lemma matches_path (table name : string) :
  History.matches table name = true ->
  History.path name
  = History.path (History.prefix table)
    +:+ History.stamp_of table (History.path name) +:+ History.suffix.
Proof.
  unfold History.matches.
  destruct (Text.strip_prefix (History.prefix table) name) as [rest|] eqn:Hp;
    [|discriminate].
  intros Hs. apply strip_prefix_sound in Hp. subst name.
  assert (History.path (History.prefix table +:+ rest)
          = History.path (History.prefix table) +:+ rest) as Hpath.
  { unfold History.path. by rewrite !append_assoc. }
  unfold History.stamp_of. rewrite Hpath, strip_prefix_append.
  f_equal. by apply ends_with_split.
Qed.

Lemma glob_elem (table : string) (dir : Directory) (p : string) :
  p ∈ History.glob table dir ->
  exists name, p = History.path name /\ name ∈ map fst dir
               /\ History.matches table name = true.
Proof.
  unfold History.glob. intros (name & -> & Hin)%list_elem_of_fmap.
  exists name. split; [done|].
  apply list_elem_of_In, filter_In in Hin as [Hin Hm].
  split; [by apply list_elem_of_In|done].
Qed.

Lemma glob_well_formed (table : string) (dir : Directory) (p : string) :
  History.snapshots_only table dir = true ->
  p ∈ History.glob table dir ->
  History.well_formed_stamp (History.stamp_of table p) = true
  /\ p = History.path (History.prefix table)
         +:+ History.stamp_of table p +:+ History.suffix.
Proof.
  intros Hall (name & -> & Hin & Hm)%glob_elem.
  split; [|by apply matches_path].
  unfold History.snapshots_only in Hall.
  rewrite forallb_forall in Hall.
  specialize (Hall name ltac:(by apply list_elem_of_In)).
  by rewrite Hm in Hall.
Qed.

End SnapshotNames.

Section Loading.

Variable json_loads : string -> option Json.

Lemma load_files_sublist dir files :
  map fst (fst (History.load_files json_loads dir files)) `sublist_of` files.
Proof.
  induction files as [|file files IH]; cbn [History.load_files]; [constructor|].
  destruct (History.load_files json_loads dir files) as [loaded l].
  destruct (History.read dir file ≫= json_loads); cbn [fst map] in *.
  - by constructor.
  - by constructor.
Qed.

Lemma load_files_loaded dir files file schema_data :
  (file, schema_data) ∈ fst (History.load_files json_loads dir files) ->
  History.read dir file ≫= json_loads = Some schema_data.
Proof.
  induction files as [|f files IH]; cbn [History.load_files].
  - intros H%elem_of_nil. contradiction.
  - destruct (History.load_files json_loads dir files) as [loaded l].
    destruct (History.read dir f ≫= json_loads) eqn:E; cbn [fst] in *; [|exact IH].
    intros [Heq|Hin]%elem_of_cons; [|auto]. by inversion Heq; subst.
Qed.

Lemma load_files_each dir files file :
  file ∈ files ->
  match History.read dir file ≫= json_loads with
  | Some schema_data =>
      (file, schema_data) ∈ fst (History.load_files json_loads dir files)
  | None =>
      History.load_warning file ∈ snd (History.load_files json_loads dir files)
  end.
Proof.
  induction files as [|f files IH]; cbn [History.load_files].
  - intros H%elem_of_nil. contradiction.
  - destruct (History.load_files json_loads dir files) as [loaded l].
    cbn [fst snd] in IH.
    intros [->|Hin]%elem_of_cons.
    + destruct (History.read dir f ≫= json_loads); cbn [fst snd]; left.
    + specialize (IH Hin).
      destruct (History.read dir file ≫= json_loads);
        destruct (History.read dir f ≫= json_loads); cbn [fst snd];
        try (by right); done.
Qed.

Lemma load_historical_entries_fst table n dir :
  fst (History.load_historical_entries json_loads table n dir)
  = fst (History.load_files json_loads dir (History.files_to_load table n dir)).
Proof.
  unfold History.load_historical_entries, History.files_to_load. cbv zeta.
  by destruct (History.load_files _ _ _).
Qed.

Lemma load_historical_schemas_fst table n dir :
  fst (History.load_historical_schemas json_loads table n dir)
  = map snd (fst (History.load_historical_entries json_loads table n dir)).
Proof.
  unfold History.load_historical_schemas.
  by destruct (History.load_historical_entries _ _ _ _).
Qed.

Lemma load_historical_schemas_log table n dir r :
  r ∈ snd (History.load_files json_loads dir (History.files_to_load table n dir)) ->
  r ∈ snd (History.load_historical_schemas json_loads table n dir).
Proof.
  unfold History.load_historical_schemas, History.load_historical_entries,
    History.files_to_load. cbv zeta.
  destruct (History.load_files _ _ _) as [loaded l]. cbn [snd].
  intros H. by right.
Qed.

End Loading.

Section Listing.

Lemma path_inj (a b : string) : History.path a = History.path b -> a = b.
Proof.
  unfold History.path. intros H.
  by repeat apply (inj (String.append _)) in H.
Qed.

Lemma read_elem (dir : Directory) (p : string) (text : string) :
  History.read dir p = Some text ->
  exists name, (name, text) ∈ dir /\ History.path name = p.
Proof.
  unfold History.read. destruct (find _ dir) as [[name t]|] eqn:E; [|discriminate].
  intros [= <-]. apply find_some in E as [Hin Heq]. cbn in Heq.
  exists name. split; [by apply list_elem_of_In|by apply String.eqb_eq].
Qed.

Lemma elem_read (dir : Directory) (name text : string) :
  NoDup (map fst dir) -> (name, text) ∈ dir ->
  History.read dir (History.path name) = Some text.
Proof.
  unfold History.read.
  induction dir as [|[n t] dir IH]; cbn [map fst find].
  - intros _ H%elem_of_nil. contradiction.
  - intros [Hnotin Hnd]%NoDup_cons [Heq|Hin]%elem_of_cons.
    + inversion Heq; subst. by rewrite String.eqb_refl.
    + destruct (String.eqb_spec (History.path n) (History.path name)) as [E|_];
        [|by apply IH].
      apply path_inj in E. subst n. exfalso. apply Hnotin.
      apply list_elem_of_fmap. by exists (name, text).
Qed.

(** What a path reads does not depend on the order of the listing. *)
Lemma read_listing (dir dir' : Directory) (p : string) :
  NoDup (map fst dir) -> dir' ≡ₚ dir ->
  History.read dir' p = History.read dir p.
Proof.
  intros Hnd Hp.
  assert (NoDup (map fst dir')) as Hnd' by (by rewrite Hp).
  destruct (History.read dir p) as [t|] eqn:E.
  - apply read_elem in E as (name & Hin & <-).
    apply elem_read; [done|]. by rewrite Hp.
  - destruct (History.read dir' p) as [t'|] eqn:E'; [|done].
    apply read_elem in E' as (name & Hin & <-).
    rewrite Hp in Hin. by rewrite (elem_read dir name t' Hnd Hin) in E.
Qed.

Lemma glob_listing (table : string) (dir dir' : Directory) :
  dir' ≡ₚ dir -> History.glob table dir' ≡ₚ History.glob table dir.
Proof.
  intros Hp. unfold History.glob.
  apply fmap_Permutation. 
  assert (map fst dir' ≡ₚ map fst dir) as Hm by (by apply fmap_Permutation).
  clear Hp. induction Hm as [|x l l' Hm IH|x y l|l l' l'' Hm1 IH1 Hm2 IH2];
    cbn [List.filter].
  - done.
  - destruct (History.matches table x); [by constructor|done].
  - destruct (History.matches table x), (History.matches table y);
      try done; apply Permutation_swap.
  - by etrans.
Qed.

Lemma load_files_listing json_loads (dir dir' : Directory) files :
  NoDup (map fst dir) -> dir' ≡ₚ dir ->
  History.load_files json_loads dir' files = History.load_files json_loads dir files.
Proof.
  intros Hnd Hp. induction files as [|f files IH]; cbn [History.load_files]; [done|].
  by rewrite IH, (read_listing dir dir' f Hnd Hp).
Qed.

Lemma load_historical_schemas_listing json_loads table n (dir dir' : Directory) :
  NoDup (map fst dir) -> dir' ≡ₚ dir ->
  History.load_historical_schemas json_loads table n dir'
  = History.load_historical_schemas json_loads table n dir.
Proof.
  intros Hnd Hp.
  unfold History.load_historical_schemas, History.load_historical_entries.
  cbv zeta.
  rewrite (sorted_desc_listing _ _ (glob_listing table dir dir' Hp)).
  by rewrite (load_files_listing json_loads dir dir' _ Hnd Hp).
Qed.

End Listing.

Section MostRecentFirst.

Lemma StronglySorted_sublist {A} (R : relation A) (l1 l2 : list A) :
  l1 `sublist_of` l2 -> StronglySorted R l2 -> StronglySorted R l1.
Proof.
  induction 1 as [|x l1 l2 Hsub IH|x l1 l2 Hsub IH]; intros Hs.
  - constructor.
  - apply StronglySorted_inv in Hs as [Hs Hall]. constructor; [auto|].
    apply Forall_forall. intros y Hy. rewrite Forall_forall in Hall.
    apply Hall. by eapply elem_of_sublist.
  - apply StronglySorted_inv in Hs as [Hs _]. auto.
Qed.

Lemma StronglySorted_weaken {A} (R R' : relation A) (P : A -> Prop) (l : list A) :
  (forall x y, P x -> P y -> R x y -> R' x y) ->
  Forall P l -> StronglySorted R l -> StronglySorted R' l.
Proof.
  intros Himp Hall Hs. induction Hs as [|x l Hs IH Hx]; [constructor|].
  apply Forall_cons in Hall as [Px Hall]. constructor; [auto|].
  rewrite Forall_forall in Hall, Hx. apply Forall_forall.
  intros y Hy. apply Himp; auto.
Qed.

(** The instant of the snapshot a loaded entry came from. *)
Lemma files_to_load_sorted table n dir :
  History.snapshots_only table dir = true ->
  StronglySorted
    (fun p q => (History.stamp_instant (History.stamp_of table q)
                 <= History.stamp_instant (History.stamp_of table p))%Z)
    (History.files_to_load table n dir).
Proof.
  intros Hall. unfold History.files_to_load.
  apply (StronglySorted_weaken later_first _ (fun p => p ∈ History.glob table dir)).
  - intros p q Hp Hq Hpq.
    destruct (glob_well_formed table dir p Hall Hp) as [Wp Ep].
    destruct (glob_well_formed table dir q Hall Hq) as [Wq Eq].
    unfold later_first, flip in Hpq. rewrite Ep, Eq in Hpq.
    by eapply path_order_is_time_order.
  - apply Forall_forall. intros p Hp.
    pose proof (elem_of_sublist _ _ _ Hp (slice_to_sublist n _)) as Hp'.
    by rewrite sorted_desc_perm in Hp'.
  - eapply StronglySorted_sublist; [apply slice_to_sublist|].
    apply sorted_desc_strongly.
Qed.

End MostRecentFirst.

Lemma StronglySorted_of_fmap {A B} (f : A -> B) (R : relation B) (l : list A) :
  StronglySorted R (map f l) -> StronglySorted (fun x y => R (f x) (f y)) l.
Proof.
  induction l as [|x l IH]; cbn [map]; intros Hs; [constructor|].
  apply StronglySorted_inv in Hs as [Hs Hall]. constructor; [auto|].
  rewrite Forall_forall in Hall. apply Forall_forall. intros y Hy. apply Hall.
  apply list_elem_of_fmap. by exists y.
Qed.


(** ** The extractor *)

Lemma extract_schema_from_df_live (df : nat) (name : string)
  (sheet : option string) (st : Store) (frame : DataFrame) :
  st !! df = Some frame ->
  extract_schema_from_df df name sheet st
  = (fst (profile_frame name sheet (Frame.dropna_all frame)),
     snd (profile_frame name sheet (Frame.dropna_all frame)),
     <[df := Frame.dropna_all frame]> st).
Proof.
  intros Hdf. unfold extract_schema_from_df. rewrite Hdf.
  by destruct (profile_frame _ _ _).
Qed.

Lemma profile_blank (name : string) (sheet : option string) (frame : DataFrame) :
  Frame.empty frame = true ->
  fst (profile_frame name sheet frame) = minimal_schema name sheet None.
Proof. intros H. unfold profile_frame. by rewrite H. Qed.

(** Whatever the extractor returns, an error comes with no columns. *)
Lemma profile_frame_minimal (name : string) (sheet : option string)
  (frame : DataFrame) :
  error_is_minimal (fst (profile_frame name sheet frame)) = true.
Proof.
  unfold profile_frame. destruct (Frame.empty frame); [reflexivity|].
  by destruct (profile_columns _ _ _).
Qed.

Lemma extract_schema_from_df_minimal (df : nat) (name : string)
  (sheet : option string) (st : Store) :
  error_is_minimal (fst (fst (extract_schema_from_df df name sheet st))) = true.
Proof.
  unfold extract_schema_from_df. destruct (st !! df) as [frame|]; [|reflexivity].
  pose proof (profile_frame_minimal name sheet (Frame.dropna_all frame)) as H.
  by destruct (profile_frame _ _ _).
Qed.

(** The frame object of the caller holds the filtered rows afterwards. *)
Lemma extract_in_place (df : nat) (name : string) (sheet : option string)
  (st : Store) (frame : DataFrame) :
  st !! df = Some frame ->
  snd (extract_schema_from_df df name sheet st)
  = <[df := Frame.dropna_all frame]> st.
Proof. intros Hdf. by rewrite (extract_schema_from_df_live _ _ _ _ frame). Qed.

(** The file schema is the profile of the filtered rows. *)
Lemma profile_total_rows (name : string) (sheet : option string)
  (frame : DataFrame) :
  unreadable (fst (profile_frame name sheet frame)) = false ->
  total_rows (fst (profile_frame name sheet frame)) = Frame.len frame.
Proof.
  unfold profile_frame. destruct (Frame.empty frame); [cbn; discriminate|].
  destruct (profile_columns _ _ _); cbn; [discriminate|reflexivity].
Qed.

(** ** The orchestrator *)

Section SheetErrors.

Lemma sheet_error_report path sheet msg w :
  exists iso,
    fst (sheet_error path sheet msg w) = error_report path sheet iso msg.
Proof.
  unfold sheet_error, now. cbn [clock with_log].
  destruct (clock w) as [|t rest]; cbn; eauto.
Qed.

Lemma sheet_error_world path sheet msg w :
  frames (snd (sheet_error path sheet msg w)) = frames w
  /\ quiet w (snd (sheet_error path sheet msg w)).
Proof.
  unfold sheet_error, now, quiet. cbn [clock with_log].
  destruct (clock w) as [|t rest]; cbn; auto.
Qed.

Lemma error_report_status path sheet iso msg :
  report_status (error_report path sheet iso msg) = Some "Error".
Proof. reflexivity. Qed.

End SheetErrors.

Section BlankSheet.

Variable json_loads : string -> option Json.
Variable json_dumps : Json -> string.

Lemma extract_step_blank df path sheet w frame :
  frames w !! df = Some frame ->
  Frame.empty (Frame.dropna_all frame) = true ->
  exists w',
    extract_step df path sheet w = (Raise (extraction_failed_message sheet), w')
    /\ frames w' = <[df := Frame.dropna_all frame]> (frames w)
    /\ quiet w w'.
Proof.
  intros Hdf Hempty.
  unfold extract_step, bind, logm. cbn [frames with_log].
  rewrite (extract_schema_from_df_live df path sheet (frames w) frame Hdf).
  rewrite (profile_blank path sheet _ Hempty).
  cbn [unreadable minimal_schema error]. unfold raise.
  eexists. split; [reflexivity|]. by cbn.
Qed.

Lemma run_blank_sheet df path sheet engine user w frame :
  frames w !! df = Some frame ->
  Frame.empty (Frame.dropna_all frame) = true ->
  exists iso w',
    run_validation_for_sheet json_loads json_dumps df path sheet engine user w
    = ((error_report path sheet iso (extraction_failed_message sheet), JObj [], None), w')
    /\ frames w' = <[df := Frame.dropna_all frame]> (frames w)
    /\ quiet w w'.
Proof.
  intros Hdf Hempty.
  destruct (extract_step_blank df path sheet w frame Hdf Hempty)
    as (w1 & Hstep & Hfr & Hq).
  unfold run_validation_for_sheet, resolve_step, bind. rewrite Hstep.
  destruct (sheet_error_report path sheet (extraction_failed_message sheet) w1)
    as [iso Hrep].
  destruct (sheet_error_world path sheet (extraction_failed_message sheet) w1)
    as [Hfr' Hq'].
  destruct (sheet_error path sheet (extraction_failed_message sheet) w1)
    as [r w'] eqn:E. cbn [fst snd] in *. subst r.
  exists iso, w'. split; [reflexivity|]. split; [congruence|].
  unfold quiet in *. intuition congruence.
Qed.

End BlankSheet.

Lemma first_truthy_none (a : option string) : first_truthy a None = a.
Proof. by destruct a as [[|]|]. Qed.

Lemma quiet_trans (w1 w2 w3 : World) : quiet w1 w2 -> quiet w2 w3 -> quiet w1 w3.
Proof. unfold quiet. intuition congruence. Qed.

(** C5: a sheet that is empty once its blank rows are dropped gives a
    file schema of zero rows and no columns from the extractor, which does
    not raise; the orchestrator records an error-shaped report for that
    sheet; and the loop goes on with the sheets that follow, from a world
    in which no user input, model reply or snapshot was used up. *)
Theorem blank_sheet_aborts_alone
  (json_loads : string -> option Json) (json_dumps : Json -> string)
  (path : string) (engine : Database) (user : option string)
  (acc : Dict.t Json * option string) (sheet : option string)
  (frame : DataFrame) (rest : list (option string * option DataFrame))
  (w : World) :
  Frame.empty (Frame.dropna_all frame) = true ->
  (forall df st, st !! df = Some frame ->
     let fs := fst (fst (extract_schema_from_df df path sheet st)) in
     total_rows fs = 0%nat /\ columns fs = Some [] /\ error fs = None)
  /\ exists report w',
       process_sheet json_loads json_dumps path engine user acc sheet (Some frame) w
       = ((Dict.set (report_key sheet) report (fst acc), snd acc), w')
       /\ report_status report = Some "Error"
       /\ quiet w w'
       /\ process_sheets json_loads json_dumps path engine user acc
            ((sheet, Some frame) :: rest) w
          = process_sheets json_loads json_dumps path engine user
              (Dict.set (report_key sheet) report (fst acc), snd acc) rest w'.
Proof.
  intros Hempty. split.
  - intros df st Hdf.
    rewrite (extract_schema_from_df_live df path sheet st frame Hdf).
    cbn [fst]. by rewrite (profile_blank path sheet _ Hempty).
  - destruct acc as [reports inferred].
    set (w0 := with_log ((Info, "--- Loading data for sheet: '"
                                +:+ sheet_display_name sheet +:+ "' ---") :: log w) w).
    set (df := fresh (dom (frames w0))).
    set (w1 := with_frames (<[df := frame]> (frames w0)) w0).
    assert (frames w1 !! df = Some frame) as Hdf by apply lookup_insert_eq.
    destruct (run_blank_sheet json_loads json_dumps df path sheet engine user
                w1 frame Hdf Hempty) as (iso & w' & Hrun & _ & Hq).
    assert (process_sheet json_loads json_dumps path engine user
              (reports, inferred) sheet (Some frame) w
            = ((Dict.set (report_key sheet)
                  (JObj (Dict.set "schema_analysis_report" (JObj [])
                           [("file_name", JStr path);
                            ("sheet_name", json_of_option sheet);
                            ("validated_at", JStr iso);
                            ("validation_summary",
                             JObj [("status", JStr "Error");
                                   ("details", JStr (extraction_failed_message sheet))]);
                            ("error", JStr (extraction_failed_message sheet))]))
                  reports, inferred), w')) as Hturn.
    { unfold process_sheet, allocate. fold w0. fold df. fold w1.
      rewrite Hrun. unfold error_report. by rewrite first_truthy_none. }
    eexists _, w'. split; [exact Hturn|].
    split; [reflexivity|]. split.
    + apply (quiet_trans w w1 w'); [|exact Hq]. by cbn.
    + cbn [process_sheets]. by rewrite Hturn.
Qed.

Section TableSelection.

Variable json_loads : string -> option Json.
Variable json_dumps : Json -> string.

Lemma extract_step_readable df path sheet w frame :
  frames w !! df = Some frame ->
  unreadable (fst (profile_frame path sheet (Frame.dropna_all frame))) = false ->
  exists w1,
    extract_step df path sheet w
    = (Return (fst (profile_frame path sheet (Frame.dropna_all frame))), w1)
    /\ frames w1 = <[df := Frame.dropna_all frame]> (frames w)
    /\ quiet w w1.
Proof.
  intros Hdf Hread.
  unfold extract_step, bind, logm. cbn [frames with_log].
  rewrite (extract_schema_from_df_live df path sheet (frames w) frame Hdf).
  rewrite Hread. unfold ret.
  eexists. split; [reflexivity|]. by cbn.
Qed.

(** What [select_table] does with the line the user types. *)
Lemma select_table_line engine w line more :
  stdin w = line :: more ->
  get_all_table_schemas engine <> [] ->
  let table_names := Dict.keys (get_all_table_schemas engine) in
  let user_selection := Text.strip line in
  exists w',
    select_table engine w
    = (if declines user_selection || negb (is_candidate user_selection table_names)
       then Raise (refusal user_selection)
       else Return user_selection, w')
    /\ stdin w' = more /\ llm w' = llm w /\ prompts w' = prompts w
    /\ directory w' = directory w /\ frames w' = frames w.
Proof.
  intros Hin Hne. cbv zeta.
  unfold select_table, bind, logm, input, refusal.
  destruct (get_all_table_schemas engine) as [|t ts] eqn:Hall; [done|].
  cbn [stdin with_log]. rewrite Hin.
  destruct (declines (Text.strip line)); cbn [orb].
  - unfold raise. eexists. split; [reflexivity|]. by cbn.
  - destruct (is_candidate (Text.strip line) (Dict.keys (t :: ts))); cbn [negb].
    + unfold ret. eexists. split; [reflexivity|]. by cbn.
    + unfold raise. eexists. split; [reflexivity|]. by cbn.
Qed.

Lemma run_refused_selection df path sheet engine w frame line more :
  frames w !! df = Some frame ->
  unreadable (fst (profile_frame path sheet (Frame.dropna_all frame))) = false ->
  stdin w = line :: more ->
  get_all_table_schemas engine <> [] ->
  declines (Text.strip line)
  || negb (is_candidate (Text.strip line) (Dict.keys (get_all_table_schemas engine)))
  = true ->
  exists iso w',
    run_validation_for_sheet json_loads json_dumps df path sheet engine None w
    = ((error_report path sheet iso (refusal (Text.strip line)), JObj [], None), w')
    /\ stdin w' = more /\ llm w' = llm w /\ prompts w' = prompts w
    /\ directory w' = directory w.
Proof.
  intros Hdf Hread Hin Hne Hbad.
  destruct (extract_step_readable df path sheet w frame Hdf Hread)
    as (w1 & Hstep & Hfr & Hq1).
  assert (stdin w1 = line :: more) as Hin1.
  { destruct Hq1 as (-> & _). exact Hin. }
  destruct (select_table_line engine w1 line more Hin1 Hne)
    as (w2 & Hsel & Hs2 & Hl2 & Hp2 & Hd2 & _).
  cbv zeta in Hsel. rewrite Hbad in Hsel.
  unfold run_validation_for_sheet, resolve_step, bind. rewrite Hstep, Hsel.
  destruct (sheet_error_report path sheet (refusal (Text.strip line)) w2)
    as [iso Hrep].
  destruct (sheet_error_world path sheet (refusal (Text.strip line)) w2)
    as [_ Hq'].
  destruct (sheet_error path sheet (refusal (Text.strip line)) w2)
    as [r w'] eqn:E. cbn [fst snd] in *. subst r.
  exists iso, w'. split; [reflexivity|].
  unfold quiet in *. intuition congruence.
Qed.

End TableSelection.


(** ** Steps that keep the frame object *)

Section Steady.

Context (df : nat) (f : DataFrame) (P : Prompt -> Prop).

Lemma bind_eq {A B} (m : M A) (k : A -> M B) (w : World) :
  bind m k w
  = match m w with
    | (Return a, w') => k a w'
    | (Raise msg, w') => (Raise msg, w')
    end.
Proof. reflexivity. Qed.

Lemma steady_ret {A} (Q : A -> Prop) (a : A) : Q a -> steady df f P Q (ret a).
Proof.
  intros HQ w Hdf. cbn. split; [done|]. split; [|done].
  exists []. by split.
Qed.

Lemma steady_raise {A} (Q : A -> Prop) (msg : string) :
  steady df f P Q (raise msg).
Proof.
  intros w Hdf. cbn. split; [done|]. split; [|done].
  exists []. by split.
Qed.

Lemma steady_bind {A B} (Q : A -> Prop) (Q' : B -> Prop) (m : M A) (k : A -> M B) :
  steady df f P Q m ->
  (forall a, Q a -> steady df f P Q' (k a)) ->
  steady df f P Q' (bind m k).
Proof.
  intros Hm Hk w Hdf. unfold bind.
  destruct (Hm w Hdf) as (Hf & (new & Hp & Hall) & HQ).
  destruct (m w) as [[a|msg] w1]; cbn [fst snd] in *.
  - destruct (Hk a HQ w1 Hf) as (Hf' & (new' & Hp' & Hall') & HQ').
    split; [done|]. split; [|done].
    exists (new' ++ new). split; [by rewrite Hp', Hp, app_assoc|].
    by apply Forall_app.
  - split; [done|]. split; [|done]. by exists new.
Qed.

Lemma steady_weaken {A} (Q Q' : A -> Prop) (m : M A) :
  (forall a, Q a -> Q' a) -> steady df f P Q m -> steady df f P Q' m.
Proof.
  intros HQ Hm w Hdf. destruct (Hm w Hdf) as (Hf & Hnew & Ha).
  split; [done|]. split; [done|].
  destruct (fst (m w)); auto.
Qed.

(** A step that only touches the log, the input, the clock or the
    snapshot directory. *)
Lemma steady_silent {A} (m : M A) :
  (forall w, frames (snd (m w)) = frames w /\ prompts (snd (m w)) = prompts w) ->
  steady df f P (fun _ => True) m.
Proof.
  intros Hm w Hdf. destruct (Hm w) as [Hf Hp].
  split; [by rewrite Hf|]. split.
  - exists []. by split.
  - by destruct (fst (m w)).
Qed.

Lemma steady_logm r : steady df f P (fun _ => True) (logm r).
Proof. by apply steady_silent. Qed.

Lemma steady_logs rs : steady df f P (fun _ => True) (logs rs).
Proof. by apply steady_silent. Qed.

Lemma steady_input : steady df f P (fun _ => True) input.
Proof.
  apply steady_silent. intros w. unfold input. by destruct (stdin w).
Qed.

Lemma steady_now : steady df f P (fun _ => True) now.
Proof.
  apply steady_silent. intros w. unfold now. by destruct (clock w).
Qed.

Lemma steady_llm p :
  P p -> steady df f P (fun _ => True) (get_llm_streaming_response p).
Proof.
  intros HP w Hdf. unfold get_llm_streaming_response.
  destruct (llm w); cbn; (split; [done|]); (split; [|done]);
    exists [p]; split; try done; by constructor.
Qed.

End Steady.

Section SheetSteps.

Variable json_loads : string -> option Json.
Variable json_dumps : Json -> string.

Context (df : nat) (f : DataFrame) (engine : Database).

Ltac step :=
  cbv beta zeta;
  lazymatch goal with
  | |- steady _ _ _ _ (ret _) => apply steady_ret
  | |- steady _ _ _ _ (raise _) => apply steady_raise
  | |- steady _ _ _ _ (logm _) => apply steady_logm
  | |- steady _ _ _ _ (logs _) => apply steady_logs
  | |- steady _ _ _ _ input => apply steady_input
  | |- steady _ _ _ _ now => apply steady_now
  | |- steady _ _ _ _ (get_llm_streaming_response _) => apply steady_llm
  | |- steady _ _ _ _ (bind _ _) => eapply steady_bind; [|intros ? ?]
  end.

Lemma steady_select_table : steady df f (observes json_dumps engine f) (fun _ => True) (select_table engine).
Proof.
  unfold select_table. step; [step|].
  destruct (get_all_table_schemas engine); [step|].
  step; [step|]. step; [step|].
  destruct (declines _); [step|].
  destruct (negb _); (step; [step|]); by step.
Qed.

Lemma steady_analysis_step path file_schema target :
  steady df f (observes json_dumps engine f)
    (fun r => get_db_schema engine target = Some (fst r))
    (analysis_step json_loads path engine file_schema target).
Proof.
  unfold analysis_step.
  destruct (get_db_schema engine target) as [db|]; [|step].
  step; [by step|].
  match goal with |- context [match ?o with Some _ => _ | None => _ end] =>
    destruct o as [text|] end; [|step].
  destruct (json_loads text); (step; [step|]); by step.
Qed.

Lemma steady_deep_validation db target schema_analysis :
  steady df f (observes json_dumps engine f)
    (fun r =>
       exists mapper,
         naming_mismatches json_dumps schema_analysis = inr mapper
         /\ fst r = fst (validate_data_types (Frame.rename mapper f) db)
         /\ snd r = fst (run_data_quality_checks (Frame.rename mapper f) db
                           engine target))
    (deep_validation json_dumps df engine db target schema_analysis).
Proof.
  unfold deep_validation.
  destruct (naming_mismatches json_dumps schema_analysis) as [e|mapper] eqn:Hm;
    [step|].
  eapply (steady_bind _ _ _ (fun frame => frame = f)).
  - intros w Hdf. rewrite Hdf. cbn. split; [done|]. split; [|done].
    exists []. by split.
  - intros frame ->.
    destruct (validate_data_types (Frame.rename mapper f) db) as [tv l1] eqn:Htv.
    step; [step|].
    destruct (run_data_quality_checks (Frame.rename mapper f) db engine target)
      as [dq l2] eqn:Hdq.
    step; [step|]. step; [step|]. step.
    exists mapper. by rewrite Htv, Hdq.
Qed.

Lemma steady_dynamic_rules_step file_schema :
  steady df f (observes json_dumps engine f) (fun _ => True) (dynamic_rules_step json_loads file_schema).
Proof.
  unfold dynamic_rules_step. step; [by step|].
  match goal with |- context [match ?o with Some _ => _ | None => _ end] =>
    destruct o as [[|c text]|] end.
  - step; [step|]. by step.
  - destruct (json_loads _); (step; [step|]); by step.
  - step; [step|]. by step.
Qed.

Lemma steady_save_schema_to_history table file_schema :
  steady df f (observes json_dumps engine f) (fun _ => True)
    (save_schema_to_history json_dumps table file_schema).
Proof.
  unfold save_schema_to_history. step; [step|].
  step; [|step]. by apply steady_silent.
Qed.

Lemma steady_report_step path sheet file_schema target db schema_analysis :
  get_db_schema engine target = Some db ->
  steady df f (observes json_dumps engine f) (fun _ => True)
    (report_step json_loads json_dumps df path sheet engine file_schema target
       db schema_analysis).
Proof.
  intros Hdb. unfold report_step.
  eapply steady_bind; [apply steady_deep_validation|].
  intros [tv dq] (mapper & Hm & Htv & Hdq). cbn [fst snd] in *.
  eapply steady_bind; [apply steady_dynamic_rules_step|]. intros rules _.
  eapply (steady_bind _ _ _ (fun _ => True)).
  { apply steady_silent. intros w.
    by destruct (History.load_historical_schemas _ _ _ _). }
  intros hs _.
  eapply steady_bind.
  { apply steady_llm. cbn. exists mapper, db, target. by subst. }
  intros reply _. destruct reply as [text|]; [|step].
  destruct (json_loads text); [|step; [step|]; by step].
  eapply (steady_bind _ _ _ (fun _ => True)); [|intros _ _].
  { destruct (String.eqb target EmptyString);
      [by step|apply steady_save_schema_to_history]. }
  step; [step|]. by step.
Qed.

End SheetSteps.

Section FilteredFrame.

Variable json_loads : string -> option Json.
Variable json_dumps : Json -> string.

Context (df : nat) (frame : DataFrame) (engine : Database).

#[local] Abbreviation filtered := (Frame.dropna_all frame).
#[local] Abbreviation P := (observes json_dumps engine (Frame.dropna_all frame)).
#[local] Abbreviation lands := (lands json_dumps engine df (Frame.dropna_all frame)).

Lemma lands_trans w1 w2 w3 :
  (exists new, prompts w2 = new ++ prompts w1 /\ Forall P new) ->
  lands w2 w3 -> lands w1 w3.
Proof.
  intros (new & Hp & Hall) (Hf & new' & Hp' & Hall'). split; [done|].
  exists (new' ++ new). split; [by rewrite Hp', Hp, app_assoc|].
  by apply Forall_app.
Qed.

Lemma lands_steady {A} (Q : A -> Prop) (m : M A) w :
  steady df filtered P Q m ->
  frames w !! df = Some filtered ->
  lands w (snd (m w))
  /\ match fst (m w) with Return a => Q a | Raise _ => True end.
Proof. intros Hm Hdf. destruct (Hm w Hdf) as (? & ? & ?). by repeat split. Qed.

Lemma lands_sheet_error path sheet msg w :
  frames w !! df = Some filtered ->
  lands w (snd (sheet_error path sheet msg w)).
Proof.
  intros Hdf. destruct (sheet_error_world path sheet msg w) as (Hf & _ & _ & Hp & _).
  split; [by rewrite Hf|]. exists []. by rewrite Hp.
Qed.

Lemma extract_step_lands path sheet w :
  frames w !! df = Some frame ->
  lands w (snd (extract_step df path sheet w)).
Proof.
  intros Hdf. unfold extract_step, bind, logm. cbn [frames with_log].
  rewrite (extract_schema_from_df_live df path sheet (frames w) frame Hdf).
  assert (forall A (m : M A) w0,
             (m = raise (extraction_failed_message sheet)
              \/ exists a, m = ret a) ->
             frames (snd (m w0)) = frames w0 /\ prompts (snd (m w0)) = prompts w0)
    as Hpure.
  { intros A m w0 [->|[a ->]]; by cbn. }
  match goal with |- lands _ (snd (?m ?w0)) =>
    destruct (Hpure _ m w0) as [Hf Hp] end.
  { destruct (unreadable _); eauto. }
  split.
  - rewrite Hf. cbn. apply lookup_insert_eq.
  - exists []. by rewrite Hp.
Qed.

Lemma resolve_step_lands path sheet user w :
  frames w !! df = Some frame ->
  lands w (snd (resolve_step df path sheet engine user w)).
Proof.
  intros Hdf. unfold resolve_step. rewrite bind_eq.
  pose proof (extract_step_lands path sheet w Hdf) as Hl.
  destruct (extract_step df path sheet w) as [[fs|msg] w1]; cbn [snd] in *;
    [|done].
  destruct Hl as [Hf Hnew].
  apply (lands_trans w w1); [done|].
  destruct user as [target|].
  - eapply proj1, (lands_steady (fun _ => True)); [|done].
    eapply steady_bind; [apply steady_logm|]. intros _ _. by apply steady_ret.
  - eapply proj1, (lands_steady (fun _ => True)); [|done].
    eapply steady_bind; [apply steady_select_table|].
    intros t _. by apply steady_ret.
Qed.

Lemma run_lands path sheet user w :
  frames w !! df = Some frame ->
  lands w (snd (run_validation_for_sheet json_loads json_dumps df path sheet
                  engine user w)).
Proof.
  intros Hdf. unfold run_validation_for_sheet.
  pose proof (resolve_step_lands path sheet user w Hdf) as H1.
  destruct (resolve_step df path sheet engine user w)
    as [[[[fs target] inferred]|msg] w1]; cbn [snd] in H1.
  - destruct H1 as [Hf1 Hn1].
    destruct (lands_steady _ _ w1
                (steady_analysis_step json_loads json_dumps df filtered engine
                   path fs target) Hf1) as [H2 HQ].
    destruct (analysis_step json_loads path engine fs target w1)
      as [[[db sa]|msg] w2]; cbn [fst snd] in *.
    + destruct H2 as [Hf2 Hn2].
      destruct (lands_steady _ _ w2
                  (steady_report_step json_loads json_dumps df filtered engine
                     path sheet fs target db sa HQ) Hf2) as [H3 _].
      destruct (report_step json_loads json_dumps df path sheet engine fs
                  target db sa w2) as [[report|msg] w3]; cbn [fst snd] in *.
      * apply (lands_trans w w1); [done|]. by apply (lands_trans w1 w2).
      * destruct H3 as [Hf3 Hn3].
        pose proof (lands_sheet_error path sheet msg w3 Hf3) as H4.
        destruct (sheet_error path sheet msg w3) as [r w4]; cbn [snd] in *.
        apply (lands_trans w w1); [done|]. apply (lands_trans w1 w2); [done|].
        by apply (lands_trans w2 w3).
    + destruct H2 as [Hf2 Hn2].
      pose proof (lands_sheet_error path sheet msg w2 Hf2) as H4.
      destruct (sheet_error path sheet msg w2) as [r w4]; cbn [snd] in *.
      apply (lands_trans w w1); [done|]. by apply (lands_trans w1 w2).
  - destruct H1 as [Hf1 Hn1].
    pose proof (lands_sheet_error path sheet msg w1 Hf1) as H4.
    destruct (sheet_error path sheet msg w1) as [r w4]; cbn [snd] in *.
    by apply (lands_trans w w1).
Qed.

End FilteredFrame.


(** * Instances *)

(** ** The comparator on the orders file *)

Example compare_orders :
  (list_to_set (reported_missing (compare_schemas Sample.orders_schema Sample.orders_db))
   : gset string) = {["CustomerID"; "Quantity"]}
  /\ reported_extra (compare_schemas Sample.orders_schema Sample.orders_db) = ["Qty"].
Proof. split; by vm_compute. Qed.


Lemma compare_schemas_unreadable_witness :
  unreadable Sample.failed_schema = true
  /\ list_to_set (reported_missing (compare_schemas Sample.failed_schema Sample.orders_db))
     = db_column_names Sample.orders_db
  /\ reported_extra (compare_schemas Sample.failed_schema Sample.orders_db) = [].
Proof.
  split; [reflexivity|].
  apply (compare_schemas_unreadable Sample.failed_schema Sample.orders_db).
  reflexivity.
Defined.

(** ** The validators on sample columns *)

Lemma temporal_text_and_unknown_types_pass_witness :
  NoDup (Dict.keys Sample.shipping_db)
  /\ ("Route", {| type := "GEOMETRY(POINT)"; nullable := true; primary_key := false |})
     ∈ Sample.shipping_db
  /\ Frame.getitem (LStr "Route") Sample.shipping_frame
     = Frame.Series Object [CStr "POINT(1 2)"]
  /\ temporal_as_text
       {| type := "GEOMETRY(POINT)"; nullable := true; primary_key := false |} Object
     || unknown_base
          {| type := "GEOMETRY(POINT)"; nullable := true; primary_key := false |}
     = true
  /\ (forall v, v ∈ fst (validate_data_types Sample.shipping_frame Sample.shipping_db) ->
                tv_column v <> "Route")
  /\ (unknown_base
        {| type := "GEOMETRY(POINT)"; nullable := true; primary_key := false |} = true ->
      unknown_type_warning "Route" "GEOMETRY"
      ∈ snd (validate_data_types Sample.shipping_frame Sample.shipping_db)).
Proof.
  assert (NoDup (Dict.keys Sample.shipping_db)) as Hnd.
  { apply (bool_decide_unpack _). vm_compute. reflexivity. }
  assert (("Route", {| type := "GEOMETRY(POINT)"; nullable := true; primary_key := false |})
          ∈ Sample.shipping_db) as Hin.
  { apply list_elem_of_further, list_elem_of_here. }
  split; [exact Hnd|]. split; [exact Hin|].
  split; [reflexivity|]. split; [reflexivity|].
  apply (temporal_text_and_unknown_types_pass Sample.shipping_frame
           Sample.shipping_db "Route" _ Object [CStr "POINT(1 2)"] Hnd Hin);
    reflexivity.
Defined.

Example shipped_as_text_passes :
  fst (validate_data_types Sample.shipping_frame Sample.shipping_db) = [].
Proof. vm_compute. reflexivity. Qed.

Lemma duplicate_column_skipped_witness :
  (1 < Frame.multiplicity "Quantity" Sample.twice_frame)%nat
  /\ (forall v, v ∈ fst (validate_data_types Sample.twice_frame Sample.quantity_db) ->
                tv_column v <> "Quantity")
  /\ (forall v, v ∈ fst (run_data_quality_checks Sample.twice_frame Sample.quantity_db
                           Sample.engine "orders") ->
                dq_column v <> "Quantity").
Proof.
  assert (1 < Frame.multiplicity "Quantity" Sample.twice_frame)%nat as Hdup.
  { vm_compute. lia. }
  split; [exact Hdup|].
  exact (duplicate_column_skipped Sample.twice_frame Sample.quantity_db
           Sample.engine "orders" "Quantity" Hdup).
Defined.

(** ** The history store on a sample directory *)

Example load_recent_orders :
  fst (History.load_historical_schemas Sample.json_loads "orders" 3 Sample.snapshots)
  = [JObj [("validation_summary", JObj [("status", JStr "Passed")])]; JObj []]
  /\ map fst (fst (History.load_historical_entries Sample.json_loads "orders" 3
                     Sample.snapshots))
     = ["schema_history/orders_schema_20260101T000000Z.json";
        "schema_history/orders_schema_20240101T000000Z.json"].
Proof. split; vm_compute; reflexivity. Qed.


(** ** The orchestrator on a sample workbook *)

Example blank_sheet_beside_orders :
  sheet_statuses
    (fst (run_multi_sheet_validation Sample.json_loads Sample.json_dumps
            "book.xlsx" Sample.book Sample.order_lines None
            (Sample.world ["orders"] [Some "rename"; Some "{}"; Some "report"])))
  = [("Blank", Some "Error"); ("Orders", Some "Passed")].
Proof. vm_compute. reflexivity. Qed.

Lemma blank_sheet_aborts_alone_witness :
  Frame.empty (Frame.dropna_all Sample.blank_sheet) = true
  /\ (forall df st, st !! df = Some Sample.blank_sheet ->
        let fs := fst (fst (extract_schema_from_df df "book.xlsx" (Some "Blank") st)) in
        total_rows fs = 0%nat /\ columns fs = Some [] /\ error fs = None)
  /\ exists report w',
       process_sheet Sample.json_loads Sample.json_dumps "book.xlsx"
         Sample.order_lines None ([], None) (Some "Blank") (Some Sample.blank_sheet)
         (Sample.world ["orders"] [Some "rename"; Some "{}"; Some "report"])
       = ((Dict.set (report_key (Some "Blank")) report [], None), w')
       /\ report_status report = Some "Error"
       /\ quiet (Sample.world ["orders"] [Some "rename"; Some "{}"; Some "report"]) w'
       /\ process_sheets Sample.json_loads Sample.json_dumps "book.xlsx"
            Sample.order_lines None ([], None)
            [(Some "Blank", Some Sample.blank_sheet);
             (Some "Orders", Some Sample.orders_sheet)]
            (Sample.world ["orders"] [Some "rename"; Some "{}"; Some "report"])
          = process_sheets Sample.json_loads Sample.json_dumps "book.xlsx"
              Sample.order_lines None
              (Dict.set (report_key (Some "Blank")) report [], None)
              [(Some "Orders", Some Sample.orders_sheet)] w'.
Proof.
  split; [reflexivity|].
  apply (blank_sheet_aborts_alone Sample.json_loads Sample.json_dumps "book.xlsx"
           Sample.order_lines None ([], None) (Some "Blank") Sample.blank_sheet
           [(Some "Orders", Some Sample.orders_sheet)]
           (Sample.world ["orders"] [Some "rename"; Some "{}"; Some "report"])).
  reflexivity.
Defined.


(** The blank row of the orders sheet would be a null in a column that
    must not be null; the prompt of the run shows no such violation, and
    shows the violation of the constraint that the null would have kept
    from being evaluated. *)
Example filtered_rows_are_what_is_checked :
  fst (run_data_quality_checks
         (Frame.rename [("Qty", LStr "Quantity")] Sample.orders_sheet)
         Sample.order_lines_db Sample.order_lines "orders")
  = [not_null_violation "Quantity" 1 [1%Z]]
  /\ shown_violations
       (prompts
          (snd (run_multi_sheet_validation Sample.json_loads Sample.json_dumps
                  "book.xlsx" Sample.book Sample.order_lines None
                  (Sample.world ["orders"] [Some "rename"; Some "{}"; Some "report"]))))
     = [[check_constraint_violation "Quantity" (Some "positive_quantity")
           "Quantity > 0" 1 [2%Z] [CFloat (-1)]]].
Proof. split; vm_compute; reflexivity. Qed.


(** * Further properties of the code *)

(** ** The extractor *)

Section Profiles.

Lemma dict_set_elem {V} (k : string) (v : V) (d : Dict.t V) (c : string) (p : V) :
  (c, p) ∈ Dict.set k v d -> (c, p) = (k, v) \/ (c, p) ∈ d.
Proof.
  induction d as [|[k' v'] d IH]; cbn [Dict.set].
  - intros H%list_elem_of_singleton. by left.
  - destruct (String.eqb_spec k' k) as [->|Hne].
    + intros [H|H]%elem_of_cons; [by left|]. right. by right.
    + intros [H|H]%elem_of_cons; [right; rewrite H; left|].
      destruct (IH H) as [?|?]; [by left|]. right. by right.
Qed.

Lemma column_at_length j frame :
  length (Frame.column_at j frame) = Frame.len frame.
Proof. unfold Frame.column_at, Frame.len. apply length_map. Qed.

Lemma count_le p l : (Frame.count p l <= length l)%nat.
Proof.
  unfold Frame.count. induction l as [|x l IH]; cbn; [lia|].
  destruct (p x); cbn; lia.
Qed.

Lemma unique_subset seen l c : c ∈ Frame.unique seen l -> c ∈ l.
Proof.
  revert seen. induction l as [|x l IH]; intros seen; cbn [Frame.unique].
  - done.
  - destruct (existsb (cell_eqb x) seen).
    + intros H. right. eauto.
    + intros [->|H]%elem_of_cons; [left|right; eauto].
Qed.

Lemma dropna_elem l c : c ∈ Frame.dropna l -> c ∈ l /\ is_null c = false.
Proof.
  unfold Frame.dropna. intros H%list_elem_of_In. apply filter_In in H as [H1 H2].
  split; [by apply list_elem_of_In|]. by destruct (is_null c).
Qed.

Lemma portable_serialisable c : is_null c = false -> serialisable (portable c) = true.
Proof. by destruct c. Qed.

Lemma getitem_series_length l frame d values :
  Frame.getitem l frame = Frame.Series d values -> length values = Frame.len frame.
Proof.
  unfold Frame.getitem.
  destruct (Frame.positions l frame) as [|[j d'] [|q qs]]; try discriminate.
  intros [= _ <-]. apply column_at_length.
Qed.

(** What one column profile satisfies. *)
Lemma profile_column_ok l frame p :
  profile_column l frame = inr p ->
  (null_count p <= Frame.len frame)%nat
  /\ (length (sample_values p) <= 5)%nat
  /\ Forall (fun c => serialisable c = true) (sample_values p).
Proof.
  unfold profile_column.
  destruct (Frame.getitem l frame) as [|d values|] eqn:Hget; try discriminate.
  intros [= <-]. cbn [null_count sample_values].
  split; [|split].
  - rewrite <- (getitem_series_length l frame d values Hget). apply count_le.
  - rewrite length_take. lia.
  - apply Forall_forall. intros c Hc.
    apply elem_of_take in Hc as (i & Hc & _).
    apply list_elem_of_lookup_2 in Hc.
    apply list_elem_of_fmap in Hc as (c0 & -> & Hc0).
    apply unique_subset, dropna_elem in Hc0 as [_ Hnn].
    by apply portable_serialisable.
Qed.

Lemma profile_columns_ok (Q : string -> ColumnProfile -> Prop) ls frame acc cols :
  (forall l p, l ∈ ls -> profile_column l frame = inr p -> Q (label_str l) p) ->
  (forall c p, (c, p) ∈ acc -> Q c p) ->
  profile_columns ls frame acc = inr cols ->
  forall c p, (c, p) ∈ cols -> Q c p.
Proof.
  revert acc. induction ls as [|l ls IH]; intros acc Hls Hacc; cbn [profile_columns].
  - intros [= <-]. exact Hacc.
  - destruct (profile_column l frame) as [e|p0] eqn:Hp; [discriminate|].
    apply IH.
    + intros l' p' Hl'. apply Hls. by right.
    + intros c p [Heq|Hin]%dict_set_elem; [|by apply Hacc].
      inversion Heq; subst. apply Hls; [left|done].
Qed.

End Profiles.

(** X1: in every schema the extractor returns, each column profile counts
    no more nulls than the schema has rows, carries at most five sample
    values, none of them missing and none a timestamp object, and is filed
    under the text of one of the labels of the frame. *)
Theorem profile_frame_well_formed
  (name : string) (sheet : option string) (frame : DataFrame)
  (cols : Dict.t ColumnProfile) (c : string) (p : ColumnProfile) :
  columns (fst (profile_frame name sheet frame)) = Some cols ->
  (c, p) ∈ cols ->
  (null_count p <= total_rows (fst (profile_frame name sheet frame)))%nat
  /\ (length (sample_values p) <= 5)%nat
  /\ Forall (fun v => serialisable v = true) (sample_values p)
  /\ exists l, l ∈ Frame.labels frame /\ label_str l = c.
Proof.
  unfold profile_frame. destruct (Frame.empty frame).
  { cbn. intros [= <-] H. by apply elem_of_nil in H. }
  destruct (profile_columns (Frame.labels frame) frame []) as [e|cols'] eqn:Hp.
  { cbn. intros [= <-] H. by apply elem_of_nil in H. }
  cbn [fst columns total_rows]. intros [= <-] Hin.
  pose proof (profile_columns_ok
                (fun c p =>
                   ((null_count p <= Frame.len frame)%nat
                    /\ (length (sample_values p) <= 5)%nat
                    /\ Forall (fun v => serialisable v = true) (sample_values p))
                   /\ exists l, l ∈ Frame.labels frame /\ label_str l = c)
                (Frame.labels frame) frame [] cols') as H.
  destruct (H ltac:(intros l p0 Hl Hp0; split;
                      [by eapply profile_column_ok|by exists l])
              ltac:(intros ? ? H0; by apply elem_of_nil in H0)
              Hp c p Hin) as [(H1 & H2 & H3) H4].
  by repeat split.
Qed.

Lemma dropna_all_idempotent (frame : DataFrame) :
  Frame.dropna_all (Frame.dropna_all frame) = Frame.dropna_all frame.
Proof.
  unfold Frame.dropna_all. cbn [header rows]. f_equal.
  induction (rows frame) as [|r rs IH]; cbn [List.filter]; [done|].
  destruct (negb (forallb is_null r.2)) eqn:E; cbn [List.filter].
  - rewrite E. by f_equal.
  - exact IH.
Qed.

(** X2: extracting the schema of a frame object a second time returns the
    same schema and the same log and leaves the object as the first
    extraction left it. *)
Theorem extract_schema_from_df_again
  (df : nat) (name : string) (sheet : option string) (st : Store) :
  let first := extract_schema_from_df df name sheet st in
  extract_schema_from_df df name sheet (snd first) = first.
Proof.
  cbv zeta. unfold extract_schema_from_df. unfold Store in *.
  destruct (st !! df) as [frame|] eqn:Hdf.
  - destruct (profile_frame name sheet (Frame.dropna_all frame)) as [fs l] eqn:Hp.
    cbn [snd]. rewrite lookup_insert_eq, dropna_all_idempotent, Hp.
    by rewrite insert_insert_eq.
  - cbn [snd]. by rewrite Hdf.
Qed.

Section DuplicateLabels.

Lemma positions_from_elem i l h j d :
  (j, d) ∈ Frame.positions_from i l h -> exists l', (l', d) ∈ h /\ label_eqb l' l = true.
Proof.
  revert i. induction h as [|[l' d'] h IH]; intros i; cbn [Frame.positions_from].
  - intros H. by apply elem_of_nil in H.
  - destruct (label_eqb l' l) eqn:E.
    + intros [Heq|H]%elem_of_cons.
      * inversion Heq; subst. exists l'. split; [left|done].
      * destruct (IH _ H) as (l0 & ? & ?). exists l0. split; [by right|done].
    + intros H. destruct (IH _ H) as (l0 & ? & ?). exists l0. split; [by right|done].
Qed.

Lemma label_eqb_refl l : label_eqb l l = true.
Proof. destruct l; cbn; apply String.eqb_refl. Qed.

Lemma positions_from_member i l h d :
  (l, d) ∈ h -> Frame.positions_from i l h <> [].
Proof.
  revert i. induction h as [|[l' d'] h IH]; intros i; cbn [Frame.positions_from].
  - intros H. by apply elem_of_nil in H.
  - intros [Heq|H]%elem_of_cons.
    + inversion Heq; subst. by rewrite label_eqb_refl.
    + destruct (label_eqb l' l); [done|]. by apply IH.
Qed.

(** A label of the frame never selects nothing. *)
Lemma profile_column_fault l frame e :
  l ∈ Frame.labels frame ->
  profile_column l frame = inl e -> e = no_unique_attribute.
Proof.
  intros Hl. unfold profile_column, Frame.getitem, Frame.positions.
  apply list_elem_of_fmap in Hl as ([l0 d] & -> & Hin). cbn [fst].
  pose proof (positions_from_member 0 l0 (header frame) d Hin) as Hne.
  destruct (Frame.positions_from 0 l0 (header frame)) as [|[j d'] [|q qs]];
    [done|discriminate|by intros [= <-]].
Qed.

Lemma profile_columns_fault ls frame acc e :
  (forall l, l ∈ ls -> l ∈ Frame.labels frame) ->
  profile_columns ls frame acc = inl e -> e = no_unique_attribute.
Proof.
  revert acc. induction ls as [|l ls IH]; intros acc Hls; cbn [profile_columns].
  - discriminate.
  - destruct (profile_column l frame) as [e0|p] eqn:Hp.
    + intros [= <-]. eapply profile_column_fault; [|exact Hp]. apply Hls. left.
    + apply IH. intros l' Hl'. apply Hls. by right.
Qed.

Lemma profile_columns_duplicate ls frame acc l :
  l ∈ ls -> (1 < length (Frame.positions l frame))%nat ->
  exists e, profile_columns ls frame acc = inl e.
Proof.
  intros Hl Hdup. revert acc.
  induction ls as [|l0 ls IH]; intros acc; [by apply elem_of_nil in Hl|].
  cbn [profile_columns].
  destruct (profile_column l0 frame) as [e0|p] eqn:Hp; [by exists e0|].
  apply elem_of_cons in Hl as [->|Hl]; [|by apply IH].
  exfalso. unfold profile_column, Frame.getitem in Hp.
  destruct (Frame.positions l0 frame) as [|[j d] [|q qs]]; cbn in Hdup;
    try lia; discriminate.
Qed.

End DuplicateLabels.

(** X3: a frame that still has rows and in which one label is carried by
    two columns cannot be profiled: the extractor returns the minimal
    schema with the attribute fault as its error, zero rows and no
    columns. *)
Theorem profile_frame_duplicate_label
  (name : string) (sheet : option string) (frame : DataFrame) (l : Label) :
  Frame.empty frame = false ->
  (1 < length (Frame.positions l frame))%nat ->
  fst (profile_frame name sheet frame)
  = minimal_schema name sheet (Some no_unique_attribute).
Proof.
  intros Hne Hdup. unfold profile_frame. rewrite Hne.
  assert (l ∈ Frame.labels frame) as Hl.
  { unfold Frame.positions in Hdup.
    destruct (Frame.positions_from 0 l (header frame)) as [|[j d] ps] eqn:E;
      [cbn in Hdup; lia|].
    destruct (positions_from_elem 0 l (header frame) j d) as (l' & Hin & Heq).
    { rewrite E. left. }
    assert (l' = l) as ->.
    { destruct l', l; cbn in Heq; try discriminate;
        by apply String.eqb_eq in Heq as ->. }
    apply list_elem_of_fmap. by exists (l, d). }
  destruct (profile_columns_duplicate (Frame.labels frame) frame [] l Hl Hdup)
    as [e He].
  rewrite He. cbn [fst].
  by rewrite (profile_columns_fault _ _ _ _ (fun _ H => H) He).
Qed.

(** ** The comparator *)

(** X4: for a file schema that was read, the comparison lists no column
    twice, and it is empty on both sides exactly when the file and the
    table have the same column names. *)
Theorem compare_schemas_exact_match (fs : FileSchema) (db : DBSchema) :
  extraction_failed fs = false ->
  NoDup (reported_missing (compare_schemas fs db))
  /\ NoDup (reported_extra (compare_schemas fs db))
  /\ (reported_missing (compare_schemas fs db) = []
      /\ reported_extra (compare_schemas fs db) = []
      <-> file_column_names fs = db_column_names db).
Proof.
  intros Hf. rewrite reported_missing_ok, reported_extra_ok by done.
  split; [apply NoDup_elements|]. split; [apply NoDup_elements|].
  split.
  - intros [H1 H2]. apply elements_empty_inv in H1, H2.
    apply set_eq. intros x. split; intros Hx.
    + destruct (decide (x ∈ db_column_names db)); [done|]. set_solver.
    + destruct (decide (x ∈ file_column_names fs)); [done|]. set_solver.
  - intros ->.
    replace (db_column_names db ∖ db_column_names db) with (∅ : gset string)
      by set_solver.
    by rewrite elements_empty.
Qed.

(** ** The type validator *)

Section TypeViolations.

Variable df : DataFrame.

Lemma collect_samples_elem expected file_dtype values c :
  c ∈ collect_samples expected file_dtype values ->
  c ∈ values /\ is_null c = false.
Proof.
  unfold collect_samples. cbv zeta.
  assert (forall p, c ∈ firstn 5 (List.filter p (Frame.unique [] (Frame.dropna values))) ->
                    c ∈ values /\ is_null c = false) as Hfilter.
  { intros p Hc. apply elem_of_take in Hc as (i & Hc & _).
    apply list_elem_of_lookup_2, list_elem_of_In, filter_In in Hc as [Hc _].
    apply list_elem_of_In in Hc. by apply unique_subset, dropna_elem in Hc. }
  destruct (_ && _); [apply Hfilter|].
  destruct (_ && _); [apply Hfilter|].
  destruct (String.eqb file_dtype "object").
  - intros Hc. apply elem_of_take in Hc as (i & Hc & _).
    apply list_elem_of_lookup_2 in Hc. by apply unique_subset, dropna_elem in Hc.
  - intros H. by apply elem_of_nil in H.
Qed.

(** What a violation of one turn of the loop says. *)
Lemma validate_column_sound name d v :
  v ∈ fst (validate_column df (name, d)) ->
  fst (validate_column df (name, d)) = [v]
  /\ tv_column v = name
  /\ exists dtype values category,
       Frame.getitem (LStr name) df = Frame.Series dtype values
       /\ expected_db_type v = db_type_base d
       /\ found_file_type v = dtype_name dtype
       /\ Dict.get (db_type_base d) sql_to_pandas_map = Some category
       /\ category <> dtype_name dtype
       /\ temporal_as_text d dtype = false
       /\ (length (sample_invalid_values v) <= 5)%nat
       /\ forall c, c ∈ sample_invalid_values v -> c ∈ values /\ is_null c = false.
Proof.
  unfold validate_column.
  destruct (negb (Frame.has_column name df)); cbn [fst];
    [intros H%elem_of_nil; contradiction|].
  destruct (Frame.getitem (LStr name) df) as [|dtype values|]; cbn [fst];
    try (intros H%elem_of_nil; contradiction).
  destruct (Dict.get (db_type_base d) sql_to_pandas_map) as [category|] eqn:Hcat;
    cbn [fst]; [|intros H%elem_of_nil; contradiction].
  destruct (negb (String.eqb (dtype_name dtype) category)) eqn:Hneq; cbn [andb];
    [|intros H%elem_of_nil; contradiction].
  destruct (negb (is_db_date_type (db_type_base d)
                  && String.eqb (dtype_name dtype) "object")) eqn:Htemp; cbn [fst];
    [|intros H%elem_of_nil; contradiction].
  intros ->%list_elem_of_singleton. cbn.
  split; [done|]. split; [done|].
  exists dtype, values, category.
  split; [done|]. split; [done|]. split; [done|]. split; [done|].
  split.
  { intros ->. rewrite String.eqb_refl in Hneq. discriminate Hneq. }
  split.
  { unfold temporal_as_text, is_object. apply negb_true_iff in Htemp. exact Htemp. }
  split.
  { rewrite length_take. lia. }
  intros c Hc. apply elem_of_take in Hc as (i & Hc & _).
  apply list_elem_of_lookup_2 in Hc. by eapply collect_samples_elem.
Qed.

Lemma validate_column_at_most_one entry :
  fst (validate_column df entry) = []
  \/ exists v, fst (validate_column df entry) = [v] /\ tv_column v = fst entry.
Proof.
  destruct entry as [name d].
  destruct (fst (validate_column df (name, d))) as [|v vs] eqn:E; [by left|].
  right. destruct (validate_column_sound name d v) as (H1 & H2 & _).
  { rewrite E. left. }
  exists v. by rewrite <- H1, E.
Qed.

Lemma validate_columns_names_sublist db :
  map tv_column (fst (validate_columns df db)) `sublist_of` Dict.keys db.
Proof.
  induction db as [|e db IH]; cbn [validate_columns].
  - constructor.
  - pose proof (validate_column_at_most_one e) as Hone.
    destruct (validate_column df e) as [ve le].
    destruct (validate_columns df db) as [vs ls]. cbn [fst] in *.
    unfold Dict.keys. cbn [map].
    destruct Hone as [->|(v & -> & <-)]; cbn [app map].
    + by constructor.
    + by constructor.
Qed.

Lemma validate_columns_fst_elem db entry v :
  entry ∈ db -> v ∈ fst (validate_column df entry) ->
  v ∈ fst (validate_columns df db).
Proof.
  induction db as [|e db IH]; cbn [validate_columns].
  - intros H%elem_of_nil; contradiction.
  - destruct (validate_column df e) as [ve le] eqn:He.
    destruct (validate_columns df db) as [vs ls]. cbn [fst] in *.
    intros Hin Hv. apply elem_of_app. apply elem_of_cons in Hin as [->|Hin].
    + left. by rewrite He in Hv.
    + right. auto.
Qed.

End TypeViolations.

(** X5: the type validator reports at most one violation per column of
    the database schema, in the order of the schema; and each violation
    names a column that one column of the frame carries, gives the base
    type and the storage type it compared, which the table maps to
    different categories outside the temporal-as-text exemption, and
    carries at most five samples, all of them non-null values of that
    column. *)
Theorem validate_data_types_sound (df : DataFrame) (db : DBSchema) :
  map tv_column (fst (validate_data_types df db)) `sublist_of` Dict.keys db
  /\ forall v, v ∈ fst (validate_data_types df db) ->
       exists d dtype values category,
         (tv_column v, d) ∈ db
         /\ Frame.getitem (LStr (tv_column v)) df = Frame.Series dtype values
         /\ expected_db_type v = db_type_base d
         /\ found_file_type v = dtype_name dtype
         /\ Dict.get (db_type_base d) sql_to_pandas_map = Some category
         /\ category <> dtype_name dtype
         /\ temporal_as_text d dtype = false
         /\ (length (sample_invalid_values v) <= 5)%nat
         /\ forall c, c ∈ sample_invalid_values v -> c ∈ values /\ is_null c = false.
Proof.
  rewrite validate_data_types_fst. split.
  - apply validate_columns_names_sublist.
  - intros v Hv. apply validate_columns_elem in Hv as ([name d] & Hin & Hv).
    destruct (validate_column_sound df name d v Hv)
      as (_ & Hname & dtype & values & category & H).
    exists d, dtype, values, category. rewrite Hname. by split.
Qed.

(** X6: a column of the database schema that one column of the frame
    carries is reported whenever the table maps its base type to a
    category other than the storage type of the frame column, unless the
    base type is temporal and the frame column is text. *)
Theorem validate_data_types_complete
  (df : DataFrame) (db : DBSchema) (c : string) (d : DBColumn)
  (dtype : Dtype) (values : list Cell) (category : string) :
  (c, d) ∈ db ->
  Frame.getitem (LStr c) df = Frame.Series dtype values ->
  Dict.get (db_type_base d) sql_to_pandas_map = Some category ->
  category <> dtype_name dtype ->
  temporal_as_text d dtype = false ->
  exists v, v ∈ fst (validate_data_types df db)
            /\ tv_column v = c
            /\ expected_db_type v = db_type_base d
            /\ found_file_type v = dtype_name dtype.
Proof.
  intros Hin Hget Hcat Hneq Htemp.
  pose proof (getitem_series_has_column _ _ _ _ Hget) as Hhas.
  rewrite validate_data_types_fst.
  eexists. split.
  - apply (validate_columns_fst_elem df db (c, d)); [done|].
    unfold validate_column. rewrite Hhas, Hget, Hcat. cbn [negb].
    assert (String.eqb (dtype_name dtype) category = false) as ->.
    { apply String.eqb_neq. congruence. }
    unfold temporal_as_text, is_object in Htemp. rewrite Htemp.
    cbn [negb andb fst]. left.
  - cbn [tv_column expected_db_type found_file_type]. repeat split.
Qed.

(** ** The data-quality checker *)

Section QualityViolations.

Variable df : DataFrame.

Lemma check_column_series cs c det d values :
  Frame.getitem (LStr c) df = Frame.Series d values ->
  fst (check_column df cs (c, det))
  = (if negb (nullable det) then not_null_check df c d values else [])
    ++ (if primary_key det then primary_key_check c values else [])
    ++ fst (check_constraints_loop df c d values
              (List.filter
                 (fun k => Text.contains c (default EmptyString (cc_sqltext k))) cs)).
Proof.
  intros Hget. unfold check_column.
  rewrite (getitem_series_has_column _ _ _ _ Hget), Hget. cbn [negb]. cbv zeta.
  by destruct (check_constraints_loop _ _ _ _ _).
Qed.

Lemma check_column_present cs c det v :
  v ∈ fst (check_column df cs (c, det)) ->
  exists d values, Frame.getitem (LStr c) df = Frame.Series d values.
Proof.
  unfold check_column.
  destruct (negb (Frame.has_column c df)); cbn [fst];
    [intros H%elem_of_nil; contradiction|].
  destruct (Frame.getitem (LStr c) df) as [|d values|]; cbn [fst];
    try (intros H%elem_of_nil; contradiction).
  intros _. by exists d, values.
Qed.

Lemma check_columns_fst_elem cs db entry v :
  entry ∈ db -> v ∈ fst (check_column df cs entry) ->
  v ∈ fst (check_columns df cs db).
Proof.
  induction db as [|e db IH]; cbn [check_columns].
  - intros H%elem_of_nil; contradiction.
  - destruct (check_column df cs e) as [ve le] eqn:He.
    destruct (check_columns df cs db) as [vs ls]. cbn [fst] in *.
    intros Hin Hv. apply elem_of_app. apply elem_of_cons in Hin as [->|Hin].
    + left. by rewrite He in Hv.
    + right. auto.
Qed.

(** The violations of the whole run are those of the turns of the loop. *)
Lemma run_data_quality_checks_elem db engine table v :
  v ∈ fst (run_data_quality_checks df db engine table)
  <-> exists entry, entry ∈ db
        /\ v ∈ fst (check_column df (known_constraints engine table) entry).
Proof.
  rewrite run_data_quality_checks_fst. fold (known_constraints engine table).
  split.
  - apply check_columns_elem.
  - intros (entry & Hin & Hv). by eapply check_columns_fst_elem.
Qed.

(** In a dictionary the turn of a column is the turn of its one entry. *)
Lemma run_data_quality_checks_column db engine table c det v :
  NoDup (Dict.keys db) -> (c, det) ∈ db -> dq_column v = c ->
  v ∈ fst (run_data_quality_checks df db engine table)
  <-> v ∈ fst (check_column df (known_constraints engine table) (c, det)).
Proof.
  intros Hnd Hin Hcol. rewrite run_data_quality_checks_elem. split.
  - intros ([c' det'] & Hin' & Hv).
    pose proof (check_column_names _ _ _ _ Hv) as Hname. cbn [fst] in Hname.
    rewrite Hcol in Hname. subst c'.
    pose proof (dict_elem_get _ _ _ Hnd Hin) as G1.
    pose proof (dict_elem_get _ _ _ Hnd Hin') as G2.
    assert (det' = det) by congruence. by subst.
  - intros Hv. by exists (c, det).
Qed.

Lemma not_null_check_elem c d values v :
  v ∈ not_null_check df c d values ->
  exists idx, v = not_null_violation c (Frame.count is_null values) idx
              /\ (0 < Frame.count is_null values)%nat.
Proof.
  unfold not_null_check. cbv zeta. rewrite not_null_count_nulls_only.
  destruct (0 <? Frame.count is_null values)%nat eqn:E;
    [|intros H%elem_of_nil; contradiction].
  intros ->%list_elem_of_singleton. eexists. split; [reflexivity|].
  by apply Nat.ltb_lt.
Qed.

Lemma primary_key_check_shape c values v :
  v ∈ primary_key_check c values ->
  exists k n s, v = primary_key_violation c k n s.
Proof.
  unfold primary_key_check. cbv zeta.
  match goal with |- context [if ?b then _ else _] => destruct b end;
    [|intros H%elem_of_nil; contradiction].
  intros ->%list_elem_of_singleton. by eexists _, _, _.
Qed.

Lemma check_one_constraint_shape c d values k v :
  v ∈ fst (check_one_constraint df c d values k) ->
  exists name text n idx s, v = check_constraint_violation c name text n idx s.
Proof.
  unfold check_one_constraint. cbv zeta.
  destruct (CheckPattern.match_check _ _) as [[op lit]|]; cbn [fst];
    [|intros H%elem_of_nil; contradiction].
  destruct (forallb notna _); cbn [fst];
    [|intros H%elem_of_nil; contradiction].
  destruct (Numeric.of_text lit); cbn [fst];
    [|intros H%elem_of_nil; contradiction].
  match goal with |- context [if ?b then _ else _] => destruct b end; cbn [fst];
    [|intros H%elem_of_nil; contradiction].
  intros ->%list_elem_of_singleton. by eexists _, _, _, _, _.
Qed.

Lemma check_constraints_loop_elem c d values ks v :
  v ∈ fst (check_constraints_loop df c d values ks)
  <-> exists k, k ∈ ks /\ v ∈ fst (check_one_constraint df c d values k).
Proof.
  induction ks as [|k ks IH]; cbn [check_constraints_loop].
  - split; [intros H%elem_of_nil; contradiction|].
    intros (k & H%elem_of_nil & _). contradiction.
  - destruct (check_one_constraint df c d values k) as [v1 l1] eqn:E1.
    destruct (check_constraints_loop df c d values ks) as [v2 l2].
    cbn [fst] in *. rewrite elem_of_app, IH. split.
    + intros [H|(k' & Hk & H)].
      * exists k. split; [left|]. by rewrite E1.
      * exists k'. split; [by right|done].
    + intros (k' & [->|Hk]%elem_of_cons & H).
      * left. by rewrite E1 in H.
      * right. by exists k'.
Qed.

End QualityViolations.

(** X7: for a column of the database schema that one column of the frame
    carries, a not-null violation is reported exactly when the column is
    declared non-nullable and the frame column holds a null; its count is
    the number of nulls. *)
Theorem not_null_violation_exact
  (df : DataFrame) (db : DBSchema) (engine : Database) (table c : string)
  (det : DBColumn) (d : Dtype) (values : list Cell) (n : nat) :
  NoDup (Dict.keys db) ->
  (c, det) ∈ db ->
  Frame.getitem (LStr c) df = Frame.Series d values ->
  (exists idx, not_null_violation c n idx
               ∈ fst (run_data_quality_checks df db engine table))
  <-> nullable det = false /\ n = Frame.count is_null values /\ (0 < n)%nat.
Proof.
  intros Hnd Hin Hget. split.
  - intros (idx & Hv).
    apply (run_data_quality_checks_column df db engine table c det
             (not_null_violation c n idx) Hnd Hin eq_refl) in Hv.
    rewrite (check_column_series df _ c det d values Hget) in Hv.
    apply elem_of_app in Hv as [Hv|Hv]; [|apply elem_of_app in Hv as [Hv|Hv]].
    + destruct (nullable det); cbn [negb] in Hv; [by apply elem_of_nil in Hv|].
      apply not_null_check_elem in Hv as (idx' & Heq & Hpos).
      inversion Heq; subst. done.
    + destruct (primary_key det); [|by apply elem_of_nil in Hv].
      apply primary_key_check_shape in Hv as (k & m & s & Heq). discriminate.
    + apply check_constraints_loop_elem in Hv as (k & _ & Hv).
      apply check_one_constraint_shape in Hv as (? & ? & ? & ? & ? & Heq).
      discriminate.
  - intros (Hnull & -> & Hpos). eexists.
    eapply (run_data_quality_checks_column df db engine table c det
              (not_null_violation c _ _) Hnd Hin eq_refl).
    rewrite (check_column_series df _ c det d values Hget).
    apply elem_of_app. left. rewrite Hnull. cbn [negb].
    unfold not_null_check. cbv zeta. rewrite not_null_count_nulls_only.
    apply Nat.ltb_lt in Hpos. rewrite Hpos. left.
Qed.

(** ** Equality of keys *)

Section CellEquality.

Lemma Qeq_bool_comm (x y : Q) : Qeq_bool x y = Qeq_bool y x.
Proof.
  apply Bool.eq_iff_eq_true. rewrite !Qeq_bool_iff. split; intros H; by symmetry.
Qed.

Lemma cell_eqb_refl (c : Cell) : is_null c = false -> cell_eqb c c = true.
Proof.
  destruct c; cbn; try discriminate; intros _.
  - apply Qeq_bool_refl.
  - apply Qeq_bool_refl.
  - apply String.eqb_refl.
  - apply Qeq_bool_refl.
  - apply Z.eqb_refl.
Qed.

Lemma cell_eqb_sym (a b : Cell) : cell_eqb a b = cell_eqb b a.
Proof.
  destruct a, b; cbn; try reflexivity;
    try apply Qeq_bool_comm; try apply String.eqb_sym; apply Z.eqb_sym.
Qed.

Lemma cell_eqb_trans (a b c : Cell) :
  cell_eqb a b = true -> cell_eqb b c = true -> cell_eqb a c = true.
Proof.
  destruct a, b, c; cbn; try discriminate;
    try (intros H1 H2; by apply (Qeq_bool_trans _ _ _ H1 H2)).
  - intros H1%String.eqb_eq H2%String.eqb_eq. subst. apply String.eqb_refl.
  - intros H1%Z.eqb_eq H2%Z.eqb_eq. subst. apply Z.eqb_refl.
Qed.

Lemma cell_eqb_not_null (a b : Cell) : cell_eqb a b = true -> is_null b = false.
Proof. destruct a, b; cbn; try discriminate; reflexivity. Qed.

(** Equal keys have the same equals. *)
Lemma cell_eqb_class (a b x : Cell) :
  cell_eqb a b = true -> cell_eqb a x = cell_eqb b x.
Proof.
  intros Hab. apply Bool.eq_iff_eq_true. split; intros H.
  - apply (cell_eqb_trans b a x); [by rewrite cell_eqb_sym|done].
  - by apply (cell_eqb_trans a b x).
Qed.

End CellEquality.

Section Counting.

Lemma filter_split {A} (p : A -> bool) (l : list A) :
  length l
  = (length (List.filter p l) + length (List.filter (fun x => negb (p x)) l))%nat.
Proof.
  induction l as [|x l IH]; [reflexivity|].
  cbn [List.filter]. destruct (p x); cbn [negb length]; lia.
Qed.

Lemma filter_filter_absorb {A} (p q : A -> bool) (l : list A) :
  (forall x, x ∈ l -> p x = true -> q x = true) ->
  List.filter p (List.filter q l) = List.filter p l.
Proof.
  induction l as [|x l IH]; [reflexivity|]. intros H.
  assert (IH' := IH (fun y Hy => H y (list_elem_of_further _ _ _ Hy))).
  cbn [List.filter]. destruct (q x) eqn:Q; cbn [List.filter].
  - by rewrite IH'.
  - destruct (p x) eqn:P; [|done].
    rewrite (H x (list_elem_of_here _ _) P) in Q. discriminate.
Qed.

Lemma filter_elem {A} (p : A -> bool) (l : list A) (x : A) :
  x ∈ List.filter p l <-> x ∈ l /\ p x = true.
Proof. rewrite !list_elem_of_In. apply filter_In. Qed.

Lemma filter_length_le {A} (p : A -> bool) (l : list A) :
  (length (List.filter p l) <= length l)%nat.
Proof. rewrite (filter_split p l). lia. Qed.

Lemma count_positive (p : Cell -> bool) (l : list Cell) :
  (0 < Frame.count p l)%nat <-> exists x, x ∈ l /\ p x = true.
Proof.
  unfold Frame.count. split.
  - destruct (List.filter p l) as [|x r] eqn:E; cbn [length]; [lia|].
    intros _. exists x. apply filter_elem. rewrite E. left.
  - intros (x & Hx). apply filter_elem in Hx.
    destruct (List.filter p l); [by apply elem_of_nil in Hx|cbn [length]; lia].
Qed.

End Counting.

Section DistinctKeys.

Lemma unique_seen_ext (l : list Cell) : forall s1 s2,
  (forall x, existsb (cell_eqb x) s1 = existsb (cell_eqb x) s2) ->
  Frame.unique s1 l = Frame.unique s2 l.
Proof.
  induction l as [|c l IH]; [reflexivity|]. intros s1 s2 H.
  cbn [Frame.unique]. rewrite H. destruct (existsb (cell_eqb c) s2).
  - by apply IH.
  - f_equal. apply IH. intros x. cbn [existsb]. by rewrite H.
Qed.

(** Seeing a key once more is leaving its equals out. *)
Lemma unique_cons_seen (c : Cell) (l : list Cell) : forall seen,
  Frame.unique (c :: seen) l
  = Frame.unique seen (List.filter (fun x => negb (cell_eqb x c)) l).
Proof.
  induction l as [|x l IH]; [reflexivity|]. intros seen.
  cbn [Frame.unique List.filter existsb].
  destruct (cell_eqb x c) eqn:E; cbn [negb orb]; [apply IH|].
  cbn [Frame.unique]. destruct (existsb (cell_eqb x) seen); [apply IH|].
  f_equal. rewrite <- IH. apply unique_seen_ext. intros y. cbn [existsb].
  by destruct (cell_eqb y x), (cell_eqb y c).
Qed.

Lemma unique_nil_iff (l : list Cell) : Frame.unique [] l = [] <-> l = [].
Proof. destruct l; cbn [Frame.unique existsb]; split; intros; congruence. Qed.

(** Keys that each occur twice or more are at most half as many as their
    occurrences. *)
Lemma unique_pairs (n : nat) : forall D : list Cell,
  (length D <= n)%nat ->
  (forall x, x ∈ D -> is_null x = false) ->
  (forall x, x ∈ D -> (2 <= Frame.count (cell_eqb x) D)%nat) ->
  (2 * length (Frame.unique [] D) <= length D)%nat.
Proof.
  induction n as [|n IH]; intros [|c D'] Hlen Hnn Htwice;
    cbn [length Frame.unique] in *; try lia.
  cbn [Frame.unique existsb]. rewrite unique_cons_seen. cbn [length].
  set (D'' := List.filter (fun x => negb (cell_eqb x c)) D').
  assert (Hc : cell_eqb c c = true).
  { apply cell_eqb_refl, Hnn. left. }
  pose proof (Htwice c (list_elem_of_here _ _)) as H2.
  unfold Frame.count in H2. cbn [List.filter] in H2. rewrite Hc in H2.
  cbn [length] in H2.
  pose proof (filter_split (fun x => cell_eqb x c) D') as Hsplit.
  cbv beta in Hsplit. fold D'' in Hsplit.
  assert (Hsame : List.filter (cell_eqb c) D' = List.filter (fun x => cell_eqb x c) D').
  { apply filter_ext. intros x. apply cell_eqb_sym. }
  rewrite Hsame in H2.
  assert (2 * length (Frame.unique [] D'') <= length D'')%nat; [|lia].
  apply IH.
  - pose proof (filter_length_le (fun x => negb (cell_eqb x c)) D'). fold D'' in H.
    lia.
  - intros x [Hx _]%filter_elem. apply Hnn. by right.
  - intros x [Hx Hxc]%filter_elem.
    pose proof (Htwice x (list_elem_of_further _ _ _ Hx)) as Hx2.
    unfold Frame.count in *. cbn [List.filter] in Hx2.
    apply negb_true_iff in Hxc. rewrite Hxc in Hx2.
    unfold D''. rewrite filter_filter_absorb; [done|].
    intros y _ Hy. apply negb_true_iff.
    rewrite <- Hxc. symmetry. rewrite !(cell_eqb_sym _ c).
    rewrite (cell_eqb_sym x y) in Hy. rewrite cell_eqb_sym in Hy.
    rewrite (cell_eqb_sym c x), (cell_eqb_sym c y).
    by apply cell_eqb_class.
Qed.

End DistinctKeys.

(** ** The primary-key check *)

Section PrimaryKeys.

Lemma count_dropna (x : Cell) (values : list Cell) :
  List.filter (cell_eqb x) (Frame.dropna values) = List.filter (cell_eqb x) values.
Proof.
  unfold Frame.dropna. apply filter_filter_absorb.
  intros y _ Hy. by rewrite (cell_eqb_not_null x y Hy).
Qed.

Lemma duplicated_keys_spec (values : list Cell) (x : Cell) :
  x ∈ duplicated_keys values
  <-> x ∈ values /\ is_null x = false
      /\ (1 < Frame.count (cell_eqb x) values)%nat.
Proof.
  unfold duplicated_keys, Frame.count. cbv zeta.
  rewrite filter_elem, count_dropna. unfold Frame.dropna. rewrite filter_elem.
  rewrite Nat.ltb_lt, negb_true_iff. tauto.
Qed.

Lemma duplicated_keys_twice (values : list Cell) (x : Cell) :
  x ∈ duplicated_keys values ->
  (2 <= Frame.count (cell_eqb x) (duplicated_keys values))%nat.
Proof.
  intros Hx. pose proof Hx as (_ & _ & Hcount)%duplicated_keys_spec.
  unfold Frame.count in *. unfold duplicated_keys. cbv zeta.
  rewrite filter_filter_absorb, count_dropna; [lia|].
  intros y _ Hy. apply Nat.ltb_lt. rewrite count_dropna.
  rewrite <- (filter_ext _ _ (fun z => cell_eqb_class x y z Hy)). lia.
Qed.

Lemma duplicated_keys_length (values : list Cell) :
  (length (duplicated_keys values) <= length values)%nat.
Proof.
  unfold duplicated_keys, Frame.dropna. cbv zeta.
  etrans; [apply filter_length_le|apply filter_length_le].
Qed.

Lemma primary_key_check_eq (c : string) (values : list Cell) :
  primary_key_check c values
  = let distinct := Frame.unique [] (duplicated_keys values) in
    if (0 <? length distinct)%nat then
      [primary_key_violation c (length distinct)
         (length (duplicated_keys values)) (firstn 5 distinct)]
    else [].
Proof. reflexivity. Qed.

Lemma primary_key_check_counts (df : DataFrame) (c : string) (values : list Cell)
  (v : DataQualityViolation) :
  length values = Frame.len df ->
  v ∈ primary_key_check c values -> key_counts_consistent df v.
Proof.
  intros Hlen. rewrite primary_key_check_eq. cbv zeta.
  destruct (0 <? _)%nat eqn:E; [|intros H%elem_of_nil; contradiction].
  intros ->%list_elem_of_singleton. apply Nat.ltb_lt in E.
  cbn [key_counts_consistent]. repeat split.
  - done.
  - apply (unique_pairs (length (duplicated_keys values))); [done| |].
    + by intros x (_ & ? & _)%duplicated_keys_spec.
    + apply duplicated_keys_twice.
  - rewrite <- Hlen. apply duplicated_keys_length.
  - apply length_firstn.
Qed.

Lemma primary_key_check_fires (c : string) (values : list Cell) :
  primary_key_check c values <> []
  <-> exists x, x ∈ values /\ is_null x = false
                /\ (1 < Frame.count (cell_eqb x) values)%nat.
Proof.
  rewrite primary_key_check_eq. cbv zeta. split.
  - destruct (0 <? _)%nat eqn:E; [|done]. intros _. apply Nat.ltb_lt in E.
    destruct (duplicated_keys values) as [|x D] eqn:HD;
      [cbn in E; lia|].
    exists x. apply duplicated_keys_spec. rewrite HD. left.
  - intros (x & Hx%duplicated_keys_spec).
    destruct (duplicated_keys values) as [|y D]; [by apply elem_of_nil in Hx|].
    cbn [Frame.unique existsb length Nat.ltb Nat.leb]. done.
Qed.

End PrimaryKeys.

Section Inversion.

Variable df : DataFrame.

(** Where a violation of the run comes from: one column of the schema that
    one column of the frame carries, and one of the three checks. *)
Lemma run_data_quality_checks_inv db engine table v :
  v ∈ fst (run_data_quality_checks df db engine table) ->
  exists c det d values,
    (c, det) ∈ db
    /\ Frame.getitem (LStr c) df = Frame.Series d values
    /\ ((nullable det = false /\ v ∈ not_null_check df c d values)
        \/ (primary_key det = true /\ v ∈ primary_key_check c values)
        \/ (exists k, k ∈ known_constraints engine table
              /\ Text.contains c (default EmptyString (cc_sqltext k)) = true
              /\ v ∈ fst (check_one_constraint df c d values k))).
Proof.
  intros ([c det] & Hin & Hv)%run_data_quality_checks_elem.
  destruct (check_column_present df _ _ _ _ Hv) as (d & values & Hget).
  rewrite (check_column_series df _ c det d values Hget) in Hv.
  exists c, det, d, values. split; [done|]. split; [done|].
  apply elem_of_app in Hv as [Hv|Hv]; [|apply elem_of_app in Hv as [Hv|Hv]].
  - left. destruct (nullable det); cbn [negb] in Hv;
      [by apply elem_of_nil in Hv|done].
  - right. left. destruct (primary_key det); [done|by apply elem_of_nil in Hv].
  - right. right. apply check_constraints_loop_elem in Hv as (k & Hk & Hv).
    apply filter_elem in Hk as [Hk Hc]. by exists k.
Qed.

Lemma check_one_constraint_inv c d values k v :
  v ∈ fst (check_one_constraint df c d values k) ->
  exists op lit value,
    CheckPattern.match_check c (Text.strip (default EmptyString (cc_sqltext k)))
    = Some (op, lit)
    /\ Numeric.of_text lit = Some value
    /\ forallb notna (map (to_numeric d) values) = true
    /\ (0 < Frame.count (fails_check d op value) values)%nat
    /\ v = check_constraint_violation c (cc_name k)
             (Text.strip (default EmptyString (cc_sqltext k)))
             (Frame.count (fails_check d op value) values)
             (firstn 5 (select (map (fails_check d op value) values) (Frame.index df)))
             (firstn 5 (List.filter (fails_check d op value) values)).
Proof.
  destruct (CheckPattern.match_check c
              (Text.strip (default EmptyString (cc_sqltext k))))
    as [[op lit]|] eqn:Hm.
  2: { unfold check_one_constraint. cbv zeta. rewrite Hm. cbn [fst].
       intros H%elem_of_nil; contradiction. }
  destruct (forallb notna (map (to_numeric d) values)) eqn:Hnum.
  2: { rewrite check_skipped_when_not_all_numeric by done. cbn [fst].
       intros H%elem_of_nil; contradiction. }
  destruct (Numeric.of_text lit) as [value|] eqn:Hv.
  2: { unfold check_one_constraint. cbv zeta. rewrite Hm, Hnum, Hv. cbn [fst].
       intros H%elem_of_nil; contradiction. }
  rewrite (check_counts_failing_rows df c d values k op lit value Hm Hv Hnum).
  cbv zeta. fold (fails_check d op value).
  fold (Frame.count (fails_check d op value) values).
  destruct (0 <? _)%nat eqn:E; [|intros H%elem_of_nil; contradiction].
  intros ->%list_elem_of_singleton. exists op, lit, value.
  apply Nat.ltb_lt in E. by repeat split.
Qed.

Lemma select_subseteq {A} (mask : list bool) (l : list A) : select mask l ⊆ l.
Proof.
  revert mask. induction l as [|x l IH]; intros [|[] mask]; cbn [select];
    try apply list_subseteq_nil.
  - intros y [->|H]%elem_of_cons; [left|right; by apply (IH mask)].
  - intros y H. right. by apply (IH mask).
Qed.

Lemma firstn_subseteq {A} (n : nat) (l : list A) : firstn n l ⊆ l.
Proof. intros x H. by apply (subseteq_take n l). Qed.

End Inversion.

(** X8: for a column of the database schema that one column of the frame
    carries, a primary-key violation is reported exactly when the column is
    declared a primary key and some non-null key is held by two rows or
    more. *)
Theorem primary_key_violation_exact
  (df : DataFrame) (db : DBSchema) (engine : Database) (table c : string)
  (det : DBColumn) (d : Dtype) (values : list Cell) :
  NoDup (Dict.keys db) ->
  (c, det) ∈ db ->
  Frame.getitem (LStr c) df = Frame.Series d values ->
  (exists k n s, primary_key_violation c k n s
                 ∈ fst (run_data_quality_checks df db engine table))
  <-> primary_key det = true
      /\ exists x, x ∈ values /\ is_null x = false
                   /\ (1 < Frame.count (cell_eqb x) values)%nat.
Proof.
  intros Hnd Hin Hget. split.
  - intros (k & n & s & Hv).
    apply (run_data_quality_checks_column df db engine table c det
             (primary_key_violation c k n s) Hnd Hin eq_refl) in Hv.
    rewrite (check_column_series df _ c det d values Hget) in Hv.
    apply elem_of_app in Hv as [Hv|Hv]; [|apply elem_of_app in Hv as [Hv|Hv]].
    + destruct (nullable det); cbn [negb] in Hv; [by apply elem_of_nil in Hv|].
      apply not_null_check_elem in Hv as (idx' & Heq & _). discriminate.
    + destruct (primary_key det); [|by apply elem_of_nil in Hv].
      split; [done|]. apply (primary_key_check_fires c).
      intros E. rewrite E in Hv. by apply elem_of_nil in Hv.
    + apply check_constraints_loop_elem in Hv as (k0 & _ & Hv).
      apply check_one_constraint_shape in Hv as (? & ? & ? & ? & ? & Heq).
      discriminate.
  - intros (Hpk & Hdup%(primary_key_check_fires c)).
    destruct (primary_key_check c values) as [|v vs] eqn:E; [done|].
    assert (Hv : v ∈ primary_key_check c values) by (rewrite E; left).
    destruct (primary_key_check_shape c values v Hv) as (k & n & s & ->).
    exists k, n, s.
    apply (run_data_quality_checks_column df db engine table c det
             (primary_key_violation c k n s) Hnd Hin eq_refl).
    rewrite (check_column_series df _ c det d values Hget).
    apply elem_of_app. right. apply elem_of_app. left. by rewrite Hpk.
Qed.

(** X9: every primary-key violation of a run names at least one key, counts
    at least two records for each key it names and no more records than
    the frame has rows, and samples five keys at most. *)
Theorem primary_key_counts_consistent
  (df : DataFrame) (db : DBSchema) (engine : Database) (table : string) :
  Forall (key_counts_consistent df)
         (fst (run_data_quality_checks df db engine table)).
Proof.
  apply Forall_forall. intros v Hv.
  apply run_data_quality_checks_inv in Hv
    as (c & det & d & values & _ & Hget & [[_ Hv]|[[_ Hv]|(k & _ & _ & Hv)]]).
  - by apply not_null_check_elem in Hv as (idx & -> & _).
  - eapply primary_key_check_counts; [|done].
    by eapply getitem_series_length.
  - by apply check_one_constraint_shape in Hv as (? & ? & ? & ? & ? & ->).
Qed.



(** X12: whatever the frame and the schema, every violation of a run
    carries samples of five entries at most, and the row labels it lists
    are labels of the index of the frame. *)
Theorem violation_samples_bounded
  (df : DataFrame) (db : DBSchema) (engine : Database) (table : string) :
  Forall (samples_bounded df) (fst (run_data_quality_checks df db engine table)).
Proof.
  apply Forall_forall. intros v Hv.
  apply run_data_quality_checks_inv in Hv
    as (c & det & d & values & _ & Hget & [[_ Hv]|[[_ Hv]|(k & _ & _ & Hv)]]).
  - unfold not_null_check in Hv. cbv zeta in Hv.
    destruct (0 <? _)%nat; [|by apply elem_of_nil in Hv].
    apply list_elem_of_singleton in Hv as ->. split; cbn [sample_size violation_rows].
    + rewrite length_firstn. lia.
    + etrans; [apply firstn_subseteq|apply select_subseteq].
  - rewrite primary_key_check_eq in Hv. cbv zeta in Hv.
    destruct (0 <? _)%nat; [|by apply elem_of_nil in Hv].
    apply list_elem_of_singleton in Hv as ->. split; cbn [sample_size violation_rows].
    + rewrite length_firstn. lia.
    + apply list_subseteq_nil.
  - apply check_one_constraint_inv in Hv as (op & lit & value & _ & _ & _ & _ & ->).
    split; cbn [sample_size violation_rows].
    + rewrite !length_firstn. lia.
    + etrans; [apply firstn_subseteq|apply select_subseteq].
Qed.

(** ** The literal of the comparison pattern *)

Section Literals.

Lemma append_nil_r (s : string) : s +:+ EmptyString = s.
Proof. induction s as [|c s IH]; [done|]. by rewrite append_cons, IH. Qed.

Lemma every_char_app (p : ascii -> bool) (a b : string) :
  every_char p (a +:+ b) = every_char p a && every_char p b.
Proof.
  induction a as [|c a IH]; [by rewrite append_nil|].
  rewrite append_cons. cbn [every_char]. by rewrite IH, andb_assoc.
Qed.

Lemma every_char_weaken (p q : ascii -> bool) (s : string) :
  (forall c, p c = true -> q c = true) ->
  every_char p s = true -> every_char q s = true.
Proof.
  intros H. induction s as [|c s IH]; [done|]. cbn [every_char].
  intros [Hc Hs]%andb_true_iff. by rewrite (H c Hc), IH.
Qed.

Lemma digit_is_not_space (c : ascii) :
  Text.is_digit c = true -> negb (Text.is_space c) = true.
Proof.
  unfold Text.is_digit, Text.is_space. cbv zeta.
  intros [H1%Nat.leb_le H2%Nat.leb_le]%andb_true_iff.
  apply negb_true_iff, orb_false_iff. split; apply andb_false_iff.
  - right. apply Nat.leb_gt. lia.
  - right. apply Nat.leb_gt. lia.
Qed.

Lemma lstrip_no_space (s : string) :
  every_char (fun c => negb (Text.is_space c)) s = true -> Text.lstrip s = s.
Proof.
  destruct s as [|c s]; [done|]. cbn [every_char Text.lstrip].
  intros [Hc%negb_true_iff _]%andb_true_iff. by rewrite Hc.
Qed.

Lemma rstrip_no_space (s : string) :
  every_char (fun c => negb (Text.is_space c)) s = true -> Text.rstrip s = s.
Proof.
  induction s as [|c s IH]; [done|]. cbn [every_char Text.rstrip].
  intros [Hc%negb_true_iff Hs]%andb_true_iff. rewrite (IH Hs), Hc.
  by destruct s.
Qed.

Lemma strip_no_space (s : string) :
  every_char (fun c => negb (Text.is_space c)) s = true -> Text.strip s = s.
Proof.
  intros H. unfold Text.strip. rewrite (lstrip_no_space s H).
  by apply rstrip_no_space.
Qed.

(** The run of digits at the head of a text, and what is left. *)
Lemma span_digits_spec (s : string) : forall ip r,
  Numeric.span_digits s = (ip, r) ->
  every_char Text.is_digit ip = true /\ s = ip +:+ r.
Proof.
  induction s as [|c s IH]; intros ip r; cbn [Numeric.span_digits].
  - by intros [= <- <-].
  - destruct (Text.is_digit c) eqn:Hc.
    + destruct (Numeric.span_digits s) as [d0 r0]. intros [= <- <-].
      destruct (IH d0 r0 eq_refl) as [Hd ->]. cbn [every_char].
      by rewrite Hc, Hd, append_cons.
    + intros [= <- <-]. by rewrite append_nil.
Qed.

Lemma span_digits_all (ip : string) :
  every_char Text.is_digit ip = true ->
  Numeric.span_digits ip = (ip, EmptyString).
Proof.
  induction ip as [|c ip IH]; [done|]. cbn [every_char Numeric.span_digits].
  intros [Hc Hs]%andb_true_iff. by rewrite Hc, (IH Hs).
Qed.

Lemma span_digits_point (ip r : string) :
  every_char Text.is_digit ip = true ->
  Numeric.span_digits (ip +:+ String "." r) = (ip, String "." r).
Proof.
  induction ip as [|c ip IH]; [by rewrite append_nil|].
  rewrite append_cons. cbn [every_char Numeric.span_digits].
  intros [Hc Hs]%andb_true_iff. by rewrite Hc, (IH Hs).
Qed.

Lemma parse_unsigned_digits (ip : string) :
  ip <> EmptyString -> every_char Text.is_digit ip = true ->
  is_Some (Numeric.parse_unsigned ip).
Proof.
  intros Hne Hd. unfold Numeric.parse_unsigned. rewrite (span_digits_all ip Hd).
  destruct ip; [done|]. by eexists.
Qed.

Lemma parse_unsigned_decimal (ip fp : string) :
  ip <> EmptyString -> fp <> EmptyString ->
  every_char Text.is_digit ip = true -> every_char Text.is_digit fp = true ->
  is_Some (Numeric.parse_unsigned (ip +:+ String "." fp)).
Proof.
  intros Hne Hnf Hd Hf. unfold Numeric.parse_unsigned.
  rewrite (span_digits_point ip fp Hd). destruct ip; [done|].
  rewrite (span_digits_all fp Hf). destruct fp; [done|]. by eexists.
Qed.

Lemma parse_signed_digit (c : ascii) (r : string) :
  Text.is_digit c = true ->
  Numeric.parse_signed (String c r) = Numeric.parse_unsigned (String c r).
Proof.
  intros H.
  destruct c as [[] [] [] [] [] [] [] []];
    try (vm_compute in H; discriminate H); reflexivity.
Qed.

(** An optional minus sign before an unsigned literal. *)
Lemma parse_signed_literal (sign body : string) :
  sign = "-" \/ sign = EmptyString ->
  (exists c r, body = String c r /\ Text.is_digit c = true) ->
  is_Some (Numeric.parse_unsigned body) ->
  is_Some (Numeric.parse_signed (sign +:+ body)).
Proof.
  intros [->| ->] (c & r & -> & Hc) [q Hq].
  - rewrite append_cons, append_nil. cbn [Numeric.parse_signed].
    rewrite Hq. by eexists.
  - rewrite append_nil, (parse_signed_digit c r Hc), Hq. by eexists.
Qed.

Lemma literal_sign (s : string) :
  let p := match s with
           | String "-" s' => ("-", s')
           | _ => (EmptyString, s)
           end in
  fst p = "-" \/ fst p = EmptyString.
Proof.
  destruct s as [|[[] [] [] [] [] [] [] []] s']; cbn; auto.
Qed.

Lemma literal_is_a_number (s lit : string) :
  CheckPattern.literal s = Some lit -> is_Some (Numeric.of_text lit).
Proof.
  unfold CheckPattern.literal. pose proof (literal_sign s) as Hsign.
  cbv zeta in Hsign.
  destruct (match s with String "-" s' => ("-", s') | _ => (EmptyString, s) end)
    as [sign s1]. cbn [fst] in Hsign.
  destruct (Numeric.span_digits s1) as [ip r] eqn:Hspan.
  apply span_digits_spec in Hspan as [Hip _].
  assert (Hsp : every_char (fun c => negb (Text.is_space c)) sign = true).
  { by destruct Hsign as [-> | ->]. }
  assert (Hipsp := every_char_weaken _ _ ip digit_is_not_space Hip).
  destruct ip as [|c ip']; [done|].
  assert (Hhead : exists c0 r0, String c ip' = String c0 r0
                                /\ Text.is_digit c0 = true).
  { exists c, ip'. split; [done|]. cbn [every_char] in Hip.
    by apply andb_true_iff in Hip as [? _]. }
  assert (Hplain : is_Some (Numeric.of_text (sign +:+ String c ip'))).
  { unfold Numeric.of_text. rewrite strip_no_space.
    - apply parse_signed_literal; [done|done|].
      by apply parse_unsigned_digits.
    - by rewrite every_char_app, Hsp, Hipsp. }
  destruct r as [|[[] [] [] [] [] [] [] []] r'];
    try (intros [= <-]; exact Hplain).
  destruct (Numeric.span_digits r') as [fp r''] eqn:Hfrac. cbn [fst].
  apply span_digits_spec in Hfrac as [Hfp _].
  destruct fp as [|f fp']; [intros [= <-]; exact Hplain|].
  intros [= <-]. unfold Numeric.of_text.
  assert (Hfpsp := every_char_weaken _ _ _ digit_is_not_space Hfp).
  assert (Hbody : (String c ip' +:+ "." +:+ String f fp')
                  = String c ip' +:+ String "." (String f fp')).
  { by rewrite (append_cons "." EmptyString), append_nil. }
  rewrite Hbody, strip_no_space.
  - apply parse_signed_literal; [done| |].
    + destruct Hhead as (c0 & r0 & [= <- <-] & Hc0). rewrite append_cons.
      by eexists _, _.
    + by apply parse_unsigned_decimal.
  - rewrite !every_char_app, Hsp, Hipsp. cbn [every_char andb].
    cbn [every_char] in Hfpsp. by rewrite Hfpsp.
Qed.

End Literals.

(** X13: whenever the comparison pattern matches the text of a constraint,
    the literal it captures reads as a number: the conversion of the
    captured text never fails. *)
Theorem matched_literal_is_a_number
  (db_col_name sqltext : string) (op : CheckPattern.Operator) (lit : string) :
  CheckPattern.match_check db_col_name sqltext = Some (op, lit) ->
  exists value, Numeric.of_text lit = Some value.
Proof.
  unfold CheckPattern.match_check. intros H%head_Some_elem_of.
  apply list_elem_of_bind in H as (s1 & H & _).
  apply list_elem_of_bind in H as (s2 & H & _).
  apply list_elem_of_bind in H as (s3 & H & _).
  apply list_elem_of_bind in H as ([tok op'] & H & _).
  apply list_elem_of_bind in H as (s4 & H & _).
  apply list_elem_of_bind in H as (lit' & H & Hlit).
  apply list_elem_of_singleton in H as [= -> ->].
  destruct (CheckPattern.literal (Text.lstrip s4)) as [l|] eqn:E;
    [|by apply elem_of_nil in Hlit].
  apply list_elem_of_singleton in Hlit as ->.
  by apply (literal_is_a_number _ _ E).
Qed.

(** ** Writing and reading snapshots *)

Section Snapshots.

Variable json_dumps : Json -> string.

Lemma save_schema_to_history_run table fs w :
  fst (save_schema_to_history json_dumps table fs w) = Return tt
  /\ directory (snd (save_schema_to_history json_dumps table fs w))
     = Dict.set (snapshot_name table w) (json_dumps (snapshot_document fs))
         (directory w).
Proof.
  unfold save_schema_to_history, snapshot_name, next_stamp, snapshot_document.
  rewrite !bind_eq. unfold now. by destruct (clock w).
Qed.

Lemma read_set_same (dir : Directory) (name text : string) :
  History.read (Dict.set name text dir) (History.path name) = Some text.
Proof.
  unfold History.read. induction dir as [|[k v] dir IH]; cbn [Dict.set find fst].
  - by rewrite String.eqb_refl.
  - destruct (String.eqb_spec k name) as [->|Hne]; cbn [find fst].
    + by rewrite String.eqb_refl.
    + destruct (String.eqb_spec (History.path k) (History.path name)) as [E|_];
        [|exact IH].
      by apply path_inj in E.
Qed.

Lemma read_set_other (dir : Directory) (name text p : string) :
  p <> History.path name ->
  History.read (Dict.set name text dir) p = History.read dir p.
Proof.
  intros Hp. unfold History.read.
  induction dir as [|[k v] dir IH]; cbn [Dict.set find fst].
  - by destruct (String.eqb_spec (History.path name) p).
  - destruct (String.eqb_spec k name) as [->|Hne]; cbn [find fst].
    + by destruct (String.eqb_spec (History.path name) p).
    + destruct (String.eqb (History.path k) p); [done|exact IH].
Qed.

Lemma length_append (a b : string) :
  String.length (a +:+ b) = (String.length a + String.length b)%nat.
Proof.
  induction a as [|c a IH]; [done|]. rewrite append_cons. cbn [String.length].
  by rewrite IH.
Qed.

Lemma substring_append (a b : string) :
  String.substring (String.length a) (String.length b) (a +:+ b) = b.
Proof.
  induction a as [|c a IH]; [apply substring_all|].
  rewrite append_cons. exact IH.
Qed.

Lemma ends_with_append (a sfx : string) : Text.ends_with sfx (a +:+ sfx) = true.
Proof.
  unfold Text.ends_with. cbv zeta. rewrite length_append.
  apply andb_true_iff. split; [apply Nat.leb_le; lia|].
  replace (String.length a + String.length sfx - String.length sfx)%nat
    with (String.length a) by lia.
  rewrite substring_append. apply String.eqb_refl.
Qed.

Lemma matches_own_snapshot (table stamp : string) :
  History.matches table (History.prefix table +:+ stamp +:+ History.suffix) = true.
Proof.
  unfold History.matches. rewrite strip_prefix_append. apply ends_with_append.
Qed.

Lemma glob_intro (table name : string) (dir : Directory) :
  name ∈ Dict.keys dir -> History.matches table name = true ->
  History.path name ∈ History.glob table dir.
Proof.
  intros Hin Hm. unfold History.glob. apply list_elem_of_fmap.
  exists name. split; [done|]. apply filter_elem. by split.
Qed.

Lemma stamp_of_own_snapshot (table stamp : string) :
  History.stamp_of table
    (History.path (History.prefix table +:+ stamp +:+ History.suffix)) = stamp.
Proof.
  unfold History.stamp_of.
  assert (History.path (History.prefix table +:+ stamp +:+ History.suffix)
          = History.path (History.prefix table) +:+ stamp +:+ History.suffix) as ->.
  { unfold History.path. by rewrite !append_assoc. }
  rewrite strip_prefix_append, length_append.
  replace (String.length stamp + String.length History.suffix
           - String.length History.suffix)%nat
    with (String.length stamp + 0)%nat by lia.
  induction stamp as [|c s IH]; [done|].
  rewrite append_cons. cbn [String.length Nat.add String.substring].
  by rewrite IH.
Qed.

Lemma map_chars_append (f : ascii -> ascii) (a b : string) :
  Text.map_chars f (a +:+ b) = Text.map_chars f a +:+ Text.map_chars f b.
Proof.
  induction a as [|c a IH]; [done|]. rewrite append_cons. cbn [Text.map_chars].
  by rewrite IH, append_cons.
Qed.

(** A new name goes to the end of the listing. *)
Lemma dict_set_fresh {V} (k : string) (v : V) (d : Dict.t V) :
  k ∉ Dict.keys d -> Dict.set k v d = d ++ [(k, v)].
Proof.
  induction d as [|[k' v'] d IH]; [done|]. cbn [Dict.keys map fst Dict.set].
  intros Hnotin. apply not_elem_of_cons in Hnotin as [Hne Hnotin].
  destruct (String.eqb_spec k' k) as [->|_]; [done|].
  cbn [app]. f_equal. by apply IH.
Qed.

End Snapshots.



Section SaveThenLoad.

Lemma insert_desc_latest (x : string) (l : list string) :
  Forall (fun y => Text.leb y x = true) l -> History.insert_desc x l = x :: l.
Proof.
  destruct l as [|y l]; [done|]. intros [Hy _]%Forall_cons.
  cbn [History.insert_desc]. by rewrite Hy.
Qed.

(** A path later than all the others comes out first. *)
Lemma sorted_desc_latest (x : string) (l : list string) :
  Forall (fun y => Text.leb y x = true) l ->
  History.sorted_desc (l ++ [x]) = x :: History.sorted_desc l.
Proof.
  intros Hall.
  rewrite (sorted_desc_listing (l ++ [x]) (x :: l))
    by (by rewrite Permutation_app_comm).
  cbn [History.sorted_desc foldr]. apply insert_desc_latest.
  apply Forall_forall. intros y Hy. rewrite Forall_forall in Hall.
  apply Hall. fold (History.sorted_desc l) in Hy.
  by rewrite sorted_desc_perm in Hy.
Qed.

Lemma glob_app (table : string) (d1 d2 : Directory) :
  History.glob table (d1 ++ d2) = History.glob table d1 ++ History.glob table d2.
Proof. unfold History.glob. by rewrite map_app, List.filter_app, map_app. Qed.

Lemma slice_to_cons {A} (n : Z) (x : A) (l : list A) :
  (1 <= n)%Z -> History.slice_to n (x :: l) = x :: History.slice_to (n - 1) l.
Proof.
  intros Hn. unfold History.slice_to.
  destruct (Z.leb_spec 0 n); [|lia]. destruct (Z.leb_spec 0 (n - 1)); [|lia].
  replace (Z.to_nat n) with (S (Z.to_nat (n - 1))) by lia. done.
Qed.

End SaveThenLoad.


(** ** What the orchestrator leaves alone *)

Section Untouched.

Variable json_loads : string -> option Json.
Variable json_dumps : Json -> string.

Context {X : Type} (field : World -> X).

Hypothesis field_log : forall l w, field (with_log l w) = field w.
Hypothesis field_frames : forall st w, field (with_frames st w) = field w.
Hypothesis field_stdin : forall i w, field (with_stdin i w) = field w.
Hypothesis field_llm : forall r p w, field (with_llm r p w) = field w.
Hypothesis field_clock : forall c w, field (with_clock c w) = field w.
Hypothesis field_directory : forall d w, field (with_directory d w) = field w.

Lemma keeps_ret {A} (a : A) : keeps field (ret a).
Proof. by intros w. Qed.

Lemma keeps_raise {A} (msg : string) : keeps field (@raise A msg).
Proof. by intros w. Qed.

Lemma keeps_bind {A B} (m : M A) (k : A -> M B) :
  keeps field m -> (forall a, keeps field (k a)) -> keeps field (bind m k).
Proof.
  intros Hm Hk w. rewrite bind_eq. specialize (Hm w).
  destruct (m w) as [[a|msg] w1]; cbn [snd] in *; [|done].
  by rewrite Hk.
Qed.

Lemma keeps_logm r : keeps field (logm r).
Proof. intros w. apply field_log. Qed.

Lemma keeps_logs rs : keeps field (logs rs).
Proof. intros w. apply field_log. Qed.

Lemma keeps_now : keeps field now.
Proof. intros w. unfold now. destruct (clock w); [done|apply field_clock]. Qed.

Lemma keeps_input : keeps field input.
Proof. intros w. unfold input. destruct (stdin w); [done|apply field_stdin]. Qed.

Lemma keeps_llm p : keeps field (get_llm_streaming_response p).
Proof.
  intros w. unfold get_llm_streaming_response.
  destruct (llm w); apply field_llm.
Qed.

Ltac kstep :=
  cbv beta zeta;
  lazymatch goal with
  | |- keeps _ (ret _) => apply keeps_ret
  | |- keeps _ (raise _) => apply keeps_raise
  | |- keeps _ (logm _) => apply keeps_logm
  | |- keeps _ (logs _) => apply keeps_logs
  | |- keeps _ input => apply keeps_input
  | |- keeps _ now => apply keeps_now
  | |- keeps _ (get_llm_streaming_response _) => apply keeps_llm
  | |- keeps _ (bind _ _) => apply keeps_bind; [|intros ?]
  end.

Lemma keeps_extract_step df path sheet : keeps field (extract_step df path sheet).
Proof.
  unfold extract_step. kstep; [kstep|]. kstep.
  - intros w. destruct (extract_schema_from_df _ _ _ _) as [[fs l] st].
    cbn [snd]. by rewrite field_log, field_frames.
  - destruct (unreadable _); kstep.
Qed.

Lemma keeps_select_table engine : keeps field (select_table engine).
Proof.
  unfold select_table. kstep; [kstep|].
  destruct (get_all_table_schemas engine); [kstep|].
  kstep; [kstep|]. kstep; [kstep|].
  destruct (declines _); [kstep|].
  destruct (negb _); (kstep; [kstep|]); kstep.
Qed.

Lemma keeps_resolve_step_provided df path sheet engine table :
  keeps field (resolve_step df path sheet engine (Some table)).
Proof.
  unfold resolve_step. kstep; [apply keeps_extract_step|].
  kstep; [kstep|kstep].
Qed.

Lemma keeps_resolve_step df path sheet engine user :
  keeps field (resolve_step df path sheet engine user).
Proof.
  destruct user as [table|]; [apply keeps_resolve_step_provided|].
  unfold resolve_step. kstep; [apply keeps_extract_step|].
  kstep; [apply keeps_select_table|kstep].
Qed.

Lemma keeps_analysis_step path engine fs table :
  keeps field (analysis_step json_loads path engine fs table).
Proof.
  unfold analysis_step. destruct (get_db_schema engine table); [|kstep].
  kstep; [kstep|].
  match goal with |- context [match ?o with Some _ => _ | None => _ end] =>
    destruct o as [text|] end; [|kstep].
  destruct (json_loads text); (kstep; [kstep|]); kstep.
Qed.

Lemma keeps_deep_validation df engine db table analysis :
  keeps field (deep_validation json_dumps df engine db table analysis).
Proof.
  unfold deep_validation. destruct (naming_mismatches _ _); [kstep|].
  kstep.
  - intros w. by destruct (frames w !! df).
  - destruct (validate_data_types _ _). kstep; [kstep|].
    destruct (run_data_quality_checks _ _ _ _). kstep; [kstep|].
    kstep; [kstep|kstep].
Qed.

Lemma keeps_dynamic_rules_step fs :
  keeps field (dynamic_rules_step json_loads fs).
Proof.
  unfold dynamic_rules_step. kstep; [kstep|].
  match goal with |- context [match ?o with Some _ => _ | None => _ end] =>
    destruct o as [[|c text]|] end.
  - kstep; [kstep|kstep].
  - destruct (json_loads _); (kstep; [kstep|]); kstep.
  - kstep; [kstep|kstep].
Qed.

Lemma keeps_load_historical_schemas table n :
  keeps field
    (fun w =>
       let '(hs, l) :=
         History.load_historical_schemas json_loads table n (directory w) in
       (Return hs, with_log (rev l ++ log w) w)).
Proof.
  intros w. destruct (History.load_historical_schemas _ _ _ _). apply field_log.
Qed.

Lemma keeps_save_schema_to_history table fs :
  keeps field (save_schema_to_history json_dumps table fs).
Proof.
  unfold save_schema_to_history. kstep; [kstep|]. kstep; [|kstep].
  intros w. apply field_directory.
Qed.

Lemma keeps_report_step df path sheet engine fs table db analysis :
  keeps field
    (report_step json_loads json_dumps df path sheet engine fs table db analysis).
Proof.
  unfold report_step. kstep; [apply keeps_deep_validation|].
  destruct a as [tv dq]. kstep; [apply keeps_dynamic_rules_step|].
  kstep; [apply keeps_load_historical_schemas|]. kstep; [kstep|].
  match goal with |- context [match ?o with Some _ => _ | None => _ end] =>
    destruct o as [text|] end; [|kstep].
  destruct (json_loads text); [|kstep; [kstep|kstep]].
  kstep.
  - destruct (String.eqb table EmptyString);
      [kstep|apply keeps_save_schema_to_history].
  - kstep; [kstep|kstep].
Qed.

Lemma sheet_error_keeps path sheet msg w :
  field (snd (sheet_error path sheet msg w)) = field w.
Proof.
  unfold sheet_error, now. cbn [clock with_log].
  destruct (clock w); cbn [snd]; by rewrite ?field_clock, field_log.
Qed.

(** A sheet run is made of steps; what each step keeps, the run keeps. *)
Lemma run_validation_for_sheet_keeps df path sheet engine user :
  keeps field (resolve_step df path sheet engine user) ->
  forall w,
    field (snd (run_validation_for_sheet json_loads json_dumps df path sheet
                  engine user w)) = field w.
Proof.
  intros Hres w. unfold run_validation_for_sheet.
  specialize (Hres w).
  destruct (resolve_step df path sheet engine user w) as [[[[fs table] inf]|msg] w1];
    cbn [snd] in Hres.
  2: { pose proof (sheet_error_keeps path sheet msg w1).
       destruct (sheet_error path sheet msg w1). cbn [snd] in *. congruence. }
  pose proof (keeps_analysis_step path engine fs table w1) as Han.
  destruct (analysis_step json_loads path engine fs table w1) as [[[db an]|msg] w2];
    cbn [snd] in Han.
  2: { pose proof (sheet_error_keeps path sheet msg w2).
       destruct (sheet_error path sheet msg w2). cbn [snd] in *. congruence. }
  pose proof (keeps_report_step df path sheet engine fs table db an w2) as Hrep.
  destruct (report_step json_loads json_dumps df path sheet engine fs table db an w2)
    as [[r|msg] w3]; cbn [snd] in Hrep.
  - cbn [snd]. congruence.
  - pose proof (sheet_error_keeps path sheet msg w3).
    destruct (sheet_error path sheet msg w3). cbn [snd] in *. congruence.
Qed.

Lemma process_sheet_keeps path engine user :
  (forall df sheet, keeps field (resolve_step df path sheet engine user)) ->
  forall acc sheet loaded w,
    field (snd (process_sheet json_loads json_dumps path engine user acc sheet
                  loaded w)) = field w.
Proof.
  intros Hres [reports inferred] sheet loaded w. unfold process_sheet.
  destruct loaded as [frame|]; cbn [snd]; [|by rewrite !field_log].
  unfold allocate.
  match goal with |- context [run_validation_for_sheet _ _ ?df _ _ _ _ ?w0] =>
    pose proof (run_validation_for_sheet_keeps df path sheet engine user
                  (Hres df sheet) w0) as Hrun;
    destruct (run_validation_for_sheet json_loads json_dumps df path sheet
                engine user w0) as [[[r an] inf] w2]
  end.
  cbn [snd] in Hrun. rewrite field_frames, field_log in Hrun.
  destruct r; cbn [snd]; by rewrite ?field_log.
Qed.

Lemma process_sheets_keeps path engine user :
  (forall df sheet, keeps field (resolve_step df path sheet engine user)) ->
  forall sheets acc w,
    field (snd (process_sheets json_loads json_dumps path engine user acc sheets w))
    = field w.
Proof.
  intros Hres sheets. induction sheets as [|[sheet loaded] rest IH]; intros acc w;
    cbn [process_sheets]; [done|].
  pose proof (process_sheet_keeps path engine user Hres acc sheet loaded w) as H1.
  destruct (process_sheet json_loads json_dumps path engine user acc sheet loaded w)
    as [acc' w']. cbn [snd] in H1. by rewrite IH.
Qed.

Lemma run_multi_sheet_validation_keeps path file engine user :
  (forall df sheet, keeps field (resolve_step df path sheet engine user)) ->
  forall w,
    field (snd (run_multi_sheet_validation json_loads json_dumps path file engine
                  user w)) = field w.
Proof.
  intros Hres w. unfold run_multi_sheet_validation.
  destruct (sheets_of path file) as [sheets|]; cbn [snd]; [|by rewrite field_log].
  match goal with |- context [process_sheets _ _ _ _ _ ?acc _ ?w0] =>
    pose proof (process_sheets_keeps path engine user Hres sheets acc w0) as H1;
    destruct (process_sheets json_loads json_dumps path engine user acc sheets w0)
      as [[reports inferred] w1]
  end.
  cbn [snd] in H1. rewrite field_log in H1.
  pose proof (keeps_now w1) as H2. destruct (now w1) as [[t|msg] w2];
    cbn [snd] in *; rewrite ?field_log; congruence.
Qed.

End Untouched.

(** X17: when the caller names the target table, a validation run over a
    file, whatever its sheets, reads nothing from the user. *)
Theorem provided_table_reads_no_input
  (json_loads : string -> option Json) (json_dumps : Json -> string)
  (path : string) (file : InputFile) (engine : Database) (table : string)
  (w : World) :
  stdin (snd (run_multi_sheet_validation json_loads json_dumps path file engine
                (Some table) w)) = stdin w.
Proof.
  apply (run_multi_sheet_validation_keeps json_loads json_dumps stdin); try done.
  intros df sheet. by apply keeps_resolve_step_provided.
Qed.

(** ** How many prompts a run sends *)

Section Sends.

Variable json_loads : string -> option Json.
Variable json_dumps : Json -> string.

Lemma sends_silent {A} (m : M A) : keeps prompts m -> sends_at_most 0 m.
Proof. intros Hm w. exists []. by rewrite Hm. Qed.

Lemma sends_weaken {A} (n k : nat) (m : M A) :
  (n <= k)%nat -> sends_at_most n m -> sends_at_most k m.
Proof.
  intros Hnk Hm w. destruct (Hm w) as (new & Hp & Hlen).
  exists new. split; [done|lia].
Qed.

Lemma sends_llm p : sends_at_most 1 (get_llm_streaming_response p).
Proof.
  intros w. exists [p]. unfold get_llm_streaming_response.
  by destruct (llm w).
Qed.

Lemma sends_bind {A B} (n k : nat) (m : M A) (f : A -> M B) :
  sends_at_most n m -> (forall a, sends_at_most k (f a)) ->
  sends_at_most (n + k) (bind m f).
Proof.
  intros Hm Hf w. rewrite bind_eq. destruct (Hm w) as (new & Hp & Hlen).
  destruct (m w) as [[a|msg] w1]; cbn [snd] in *.
  - destruct (Hf a w1) as (new' & Hp' & Hlen').
    exists (new' ++ new). rewrite Hp', Hp, app_assoc, length_app. split; [done|lia].
  - exists new. split; [done|lia].
Qed.

Lemma sends_quiet_tail {A} (n : nat) (m : M A) :
  keeps prompts m -> sends_at_most n m.
Proof. intros H. apply (sends_weaken 0); [lia|by apply sends_silent]. Qed.

Lemma sends_analysis_step path engine fs table :
  sends_at_most 1 (analysis_step json_loads path engine fs table).
Proof.
  unfold analysis_step.
  destruct (get_db_schema engine table); [|by apply sends_quiet_tail].
  apply (sends_bind 1 0); [apply sends_llm|]. intros reply.
  apply sends_silent. destruct reply as [text|]; [|done].
  destruct (json_loads text); by intros w.
Qed.

Lemma sends_dynamic_rules_step fs :
  sends_at_most 1 (dynamic_rules_step json_loads fs).
Proof.
  unfold dynamic_rules_step. apply (sends_bind 1 0); [apply sends_llm|].
  intros reply. apply sends_silent. destruct reply as [[|c text]|]; try done.
  destruct (json_loads _); by intros w.
Qed.

Lemma sends_report_step df path sheet engine fs table db analysis :
  sends_at_most 2
    (report_step json_loads json_dumps df path sheet engine fs table db analysis).
Proof.
  unfold report_step. apply (sends_bind 0 2).
  { apply sends_silent. by apply keeps_deep_validation. }
  intros [tv dq]. apply (sends_bind 1 1); [apply sends_dynamic_rules_step|].
  intros rules. apply (sends_bind 0 1).
  { apply sends_silent. by apply keeps_load_historical_schemas. }
  intros hs. apply (sends_bind 1 0); [apply sends_llm|].
  intros reply. apply sends_silent. destruct reply as [text|]; [|done].
  destruct (json_loads text); [|by intros w].
  apply keeps_bind.
  - destruct (String.eqb table EmptyString); [done|].
    by apply keeps_save_schema_to_history.
  - by intros _ w.
Qed.

Lemma sheet_error_prompts path sheet msg w :
  prompts (snd (sheet_error path sheet msg w)) = prompts w.
Proof. by apply sheet_error_keeps. Qed.

Lemma run_validation_for_sheet_sends df path sheet engine user w :
  exists new,
    prompts (snd (run_validation_for_sheet json_loads json_dumps df path sheet
                    engine user w)) = new ++ prompts w
    /\ (length new <= 3)%nat.
Proof.
  unfold run_validation_for_sheet.
  pose proof (keeps_resolve_step prompts
                ltac:(done) ltac:(done) ltac:(done) df path sheet engine user w)
    as Hres.
  destruct (resolve_step df path sheet engine user w) as [[[[fs table] inf]|msg] w1];
    cbn [snd] in Hres.
  2: { pose proof (sheet_error_prompts path sheet msg w1).
       destruct (sheet_error path sheet msg w1). cbn [snd] in *.
       exists []. split; [cbn; congruence|cbn; lia]. }
  destruct (sends_analysis_step path engine fs table w1) as (n1 & Han & Hl1).
  destruct (analysis_step json_loads path engine fs table w1) as [[[db an]|msg] w2];
    cbn [snd] in Han.
  2: { pose proof (sheet_error_prompts path sheet msg w2).
       destruct (sheet_error path sheet msg w2). cbn [snd] in *.
       exists n1. split; [congruence|lia]. }
  destruct (sends_report_step df path sheet engine fs table db an w2)
    as (n2 & Hrep & Hl2).
  destruct (report_step json_loads json_dumps df path sheet engine fs table db an w2)
    as [[r|msg] w3]; cbn [snd] in Hrep.
  - cbn [snd]. exists (n2 ++ n1).
    rewrite Hrep, Han, Hres, app_assoc, length_app. split; [done|lia].
  - pose proof (sheet_error_prompts path sheet msg w3).
    destruct (sheet_error path sheet msg w3). cbn [snd] in *.
    exists (n2 ++ n1). rewrite H, Hrep, Han, Hres, app_assoc, length_app.
    split; [done|lia].
Qed.

Lemma process_sheet_sends path engine user acc sheet loaded w :
  exists new,
    prompts (snd (process_sheet json_loads json_dumps path engine user acc sheet
                    loaded w)) = new ++ prompts w
    /\ (length new <= 3)%nat.
Proof.
  destruct acc as [reports inferred]. unfold process_sheet.
  destruct loaded as [frame|]; cbn [snd]; [|exists []; split; [done|cbn; lia]].
  unfold allocate.
  match goal with |- context [run_validation_for_sheet _ _ ?df _ _ _ _ ?w0] =>
    destruct (run_validation_for_sheet_sends df path sheet engine user w0)
      as (new & Hrun & Hlen);
    destruct (run_validation_for_sheet json_loads json_dumps df path sheet
                engine user w0) as [[[r an] inf] w2]
  end.
  cbn [snd] in Hrun. exists new. split; [|done].
  by destruct r.
Qed.

Lemma process_sheets_sends path engine user sheets : forall acc w,
  exists new,
    prompts (snd (process_sheets json_loads json_dumps path engine user acc
                    sheets w)) = new ++ prompts w
    /\ (length new <= 3 * length sheets)%nat.
Proof.
  induction sheets as [|[sheet loaded] rest IH]; intros acc w;
    cbn [process_sheets].
  - exists []. split; [done|cbn; lia].
  - destruct (process_sheet_sends path engine user acc sheet loaded w)
      as (n1 & H1 & L1).
    destruct (process_sheet json_loads json_dumps path engine user acc sheet loaded w)
      as [acc' w']. cbn [snd] in H1.
    destruct (IH acc' w') as (n2 & H2 & L2).
    exists (n2 ++ n1). rewrite H2, H1, app_assoc, length_app. cbn [length].
    split; [done|lia].
Qed.

End Sends.

(** X18: a validation run sends the model three prompts at most for each
    sheet it visits, and none when the file gives no sheet to visit. *)
Theorem run_sends_three_prompts_a_sheet
  (json_loads : string -> option Json) (json_dumps : Json -> string)
  (path : string) (file : InputFile) (engine : Database)
  (user : option string) (w : World) :
  exists new,
    prompts (snd (run_multi_sheet_validation json_loads json_dumps path file
                    engine user w)) = new ++ prompts w
    /\ (length new <= 3 * length (default [] (sheets_of path file)))%nat.
Proof.
  unfold run_multi_sheet_validation.
  destruct (sheets_of path file) as [sheets|]; cbn [snd default];
    [|exists []; split; [done|cbn; lia]].
  match goal with |- context [process_sheets _ _ _ _ _ ?acc _ ?w0] =>
    destruct (process_sheets_sends json_loads json_dumps path engine user sheets acc w0)
      as (new & H1 & L1);
    destruct (process_sheets json_loads json_dumps path engine user acc sheets w0)
      as [[reports inferred] w1]
  end.
  cbn [snd] in H1. exists new. split; [|done].
  unfold now. by destruct (clock w1).
Qed.

(** ** Sheets that end in an error *)

Section FailedSheets.

Variable json_loads : string -> option Json.
Variable json_dumps : Json -> string.

Lemma quiet_of_keeps {A} (m : M A) (w : World) :
  keeps stdin m -> keeps llm m -> keeps prompts m -> keeps directory m ->
  quiet w (snd (m w)).
Proof. intros H1 H2 H3 H4. unfold quiet. by rewrite H1, H2, H3, H4. Qed.

Lemma resolve_step_provided_quiet df path sheet engine table w :
  quiet w (snd (resolve_step df path sheet engine (Some table) w)).
Proof. apply quiet_of_keeps; by apply keeps_resolve_step_provided. Qed.

Lemma resolve_step_provided_result df path sheet engine table w fs target inferred :
  fst (resolve_step df path sheet engine (Some table) w)
  = Return (fs, target, inferred) ->
  target = table /\ inferred = None.
Proof.
  unfold resolve_step. rewrite bind_eq.
  destruct (extract_step df path sheet w) as [[fs'|msg] w1]; [|discriminate].
  rewrite bind_eq. cbn. by intros [= _ <- <-].
Qed.

Lemma sheet_error_outcome path sheet msg w :
  let '(r, w') := sheet_error path sheet msg w in
  report_status r = Some "Error" /\ quiet w w'.
Proof.
  destruct (sheet_error_report path sheet msg w) as [iso Hrep].
  destruct (sheet_error_world path sheet msg w) as [_ Hq].
  destruct (sheet_error path sheet msg w) as [r w']. cbn [fst snd] in *.
  subst r. by split.
Qed.

(** The outcome of the analysis step on the supply of replies. *)
Lemma analysis_step_replies path engine fs table w :
  match analysis_step json_loads path engine fs table w with
  | (Return _, w') =>
      llm w' = tail (llm w) /\ is_Some (next_reply w ≫= json_loads)
  | (Raise _, _) => True
  end.
Proof.
  unfold analysis_step, next_reply.
  destruct (get_db_schema engine table); [|done].
  rewrite bind_eq. unfold get_llm_streaming_response.
  destruct (llm w) as [|[text|] rest]; cbn [mbind option_bind]; try done.
  destruct (json_loads text) eqn:E; [|done].
  rewrite bind_eq. cbn. split; [done|]. by eexists.
Qed.

Lemma dynamic_rules_step_run fs w r rest :
  llm w = r :: rest ->
  exists rules w',
    dynamic_rules_step json_loads fs w = (Return rules, w')
    /\ llm w' = rest /\ directory w' = directory w.
Proof.
  intros Hllm. unfold dynamic_rules_step. rewrite bind_eq.
  unfold get_llm_streaming_response. rewrite Hllm.
  destruct r as [[|c text]|].
  - rewrite bind_eq. cbn. by eexists _, _.
  - destruct (json_loads (String c text)); rewrite bind_eq; cbn; by eexists _, _.
  - rewrite bind_eq. cbn. by eexists _, _.
Qed.

(** With a final reply that does not parse, the report step raises and
    the directory stays as it was. *)
Lemma report_step_unparsed df path sheet engine fs table db analysis w r2 r3 rest :
  llm w = r2 :: r3 :: rest ->
  r3 ≫= json_loads = None ->
  exists msg w',
    report_step json_loads json_dumps df path sheet engine fs table db analysis w
    = (Raise msg, w')
    /\ directory w' = directory w.
Proof.
  intros Hllm Hbad. unfold report_step. rewrite bind_eq.
  pose proof (keeps_deep_validation json_dumps llm ltac:(done)
                df engine db table analysis w) as Hl1.
  pose proof (keeps_deep_validation json_dumps directory ltac:(done)
                df engine db table analysis w) as Hd1.
  destruct (deep_validation json_dumps df engine db table analysis w)
    as [[[tv dq]|msg] w1]; cbn [snd] in Hl1, Hd1; [|by eexists _, _].
  rewrite Hllm in Hl1.
  destruct (dynamic_rules_step_run fs w1 r2 (r3 :: rest) Hl1)
    as (rules & w2 & Hdyn & Hl2 & Hd2).
  rewrite bind_eq, Hdyn. rewrite bind_eq.
  destruct (History.load_historical_schemas json_loads table
              NUM_HISTORICAL_SCHEMAS_TO_LOAD (directory w2)) as [hs l].
  rewrite bind_eq. unfold get_llm_streaming_response at 1.
  cbn [llm with_log]. rewrite Hl2.
  destruct r3 as [text|]; cbn [mbind option_bind] in Hbad.
  - rewrite Hbad, bind_eq. cbn. eexists _, _. split; [done|]. cbn. congruence.
  - cbn. eexists _, _. split; [done|]. cbn. congruence.
Qed.

End FailedSheets.

(** X19: when the caller names a table the database does not have, the
    sheet ends in an error-shaped report with an empty schema analysis and
    no table taken for it; nothing was read from the user, nothing was
    sent to the model and no snapshot was written. *)
Theorem missing_table_fails_quietly
  (json_loads : string -> option Json) (json_dumps : Json -> string)
  (df : nat) (path : string) (sheet : option string) (engine : Database)
  (table : string) (w : World) :
  get_db_schema engine table = None ->
  let '((report, analysis, inferred), w') :=
    run_validation_for_sheet json_loads json_dumps df path sheet engine
      (Some table) w in
  report_status report = Some "Error"
  /\ analysis = JObj [] /\ inferred = None /\ quiet w w'.
Proof.
  intros Hdb. unfold run_validation_for_sheet.
  pose proof (resolve_step_provided_quiet df path sheet engine table w) as Hq.
  pose proof (resolve_step_provided_result df path sheet engine table w) as Hres.
  destruct (resolve_step df path sheet engine (Some table) w)
    as [[[[fs target] inf]|msg] w1]; cbn [fst snd] in *.
  - destruct (Hres fs target inf eq_refl) as [-> ->].
    unfold analysis_step. rewrite Hdb. unfold raise.
    pose proof (sheet_error_outcome path sheet (missing_table_message table) w1) as Herr.
    destruct (sheet_error path sheet (missing_table_message table) w1) as [r w'].
    destruct Herr as [Hs Hq']. repeat split; try done.
    all: unfold quiet in *; intuition congruence.
  - pose proof (sheet_error_outcome path sheet msg w1) as Herr.
    destruct (sheet_error path sheet msg w1) as [r w'].
    destruct Herr as [Hs Hq']. repeat split; try done.
    all: unfold quiet in *; intuition congruence.
Qed.

(** X20: when the third reply of the model, the one a final-report prompt
    would get, is absent or does not parse, the sheet ends in an
    error-shaped report and no snapshot is written, whatever the two
    replies before it. *)
Theorem unparsed_final_report_saves_nothing
  (json_loads : string -> option Json) (json_dumps : Json -> string)
  (df : nat) (path : string) (sheet : option string) (engine : Database)
  (user : option string) (w : World) (r1 r2 r3 : option string)
  (rest : list (option string)) :
  llm w = r1 :: r2 :: r3 :: rest ->
  r3 ≫= json_loads = None ->
  let '((report, _, _), w') :=
    run_validation_for_sheet json_loads json_dumps df path sheet engine user w in
  report_status report = Some "Error" /\ directory w' = directory w.
Proof.
  intros Hllm Hbad. unfold run_validation_for_sheet.
  pose proof (keeps_resolve_step llm ltac:(done) ltac:(done) ltac:(done)
                df path sheet engine user w) as Hl1.
  pose proof (keeps_resolve_step directory ltac:(done) ltac:(done) ltac:(done)
                df path sheet engine user w) as Hd1.
  destruct (resolve_step df path sheet engine user w)
    as [[[[fs target] inf]|msg] w1]; cbn [snd] in Hl1, Hd1.
  2: { pose proof (sheet_error_outcome path sheet msg w1) as Herr.
       destruct (sheet_error path sheet msg w1) as [r w'].
       destruct Herr as [Hs Hq']. split; [done|].
       unfold quiet in Hq'. intuition congruence. }
  pose proof (analysis_step_replies json_loads path engine fs target w1) as Hl2.
  pose proof (keeps_analysis_step json_loads directory ltac:(done) ltac:(done)
                path engine fs target w1) as Hd2.
  destruct (analysis_step json_loads path engine fs target w1)
    as [[[db an]|msg] w2]; cbn [snd] in Hd2.
  2: { pose proof (sheet_error_outcome path sheet msg w2) as Herr.
       destruct (sheet_error path sheet msg w2) as [r w'].
       destruct Herr as [Hs Hq']. split; [done|].
       unfold quiet in Hq'. intuition congruence. }
  destruct Hl2 as [Hl2 _]. rewrite Hl1, Hllm in Hl2. cbn [tail] in Hl2.
  destruct (report_step_unparsed json_loads json_dumps df path sheet engine fs
              target db an w2 r2 r3 rest Hl2 Hbad) as (msg & w3 & Hrep & Hd3).
  rewrite Hrep.
  pose proof (sheet_error_outcome path sheet msg w3) as Herr.
  destruct (sheet_error path sheet msg w3) as [r w'].
  destruct Herr as [Hs Hq']. split; [done|].
  unfold quiet in Hq'. intuition congruence.
Qed.

(** ** The reports of the sheets *)

Section SheetReports.

Variable json_loads : string -> option Json.
Variable json_dumps : Json -> string.

Lemma dict_keys_set_fresh {V} (k : string) (v : V) (d : Dict.t V) :
  Dict.keys (Dict.set k v d)
  = if Dict.mem k d then Dict.keys d else Dict.keys d ++ [k].
Proof.
  unfold Dict.mem, Dict.keys. induction d as [|[k' v'] d IH]; [done|].
  cbn [Dict.set Dict.get]. destruct (String.eqb k' k); [done|].
  cbn [map fst]. rewrite IH. by destruct (Dict.get k d).
Qed.

Lemma dict_mem_keys {V} (k : string) (d : Dict.t V) :
  Dict.mem k d = true <-> k ∈ Dict.keys d.
Proof.
  unfold Dict.mem. induction d as [|[k' v'] d IH]; cbn [Dict.get Dict.keys map fst].
  - split; [done|intros H%elem_of_nil; contradiction].
  - destruct (String.eqb_spec k' k) as [->|Hne].
    + split; [left|done].
    + rewrite IH. split; [by right|].
      intros [?|?]%elem_of_cons; [congruence|done].
Qed.

Lemma dict_set_nodup {V} (k : string) (v : V) (d : Dict.t V) :
  NoDup (Dict.keys d) -> NoDup (Dict.keys (Dict.set k v d)).
Proof.
  intros Hnd. rewrite dict_keys_set_fresh.
  destruct (Dict.mem k d) eqn:E; [done|].
  apply NoDup_app. split; [done|]. split; [|apply NoDup_singleton].
  intros x Hx ->%list_elem_of_singleton.
  apply dict_mem_keys in Hx. congruence.
Qed.

Lemma dict_set_forall {V} (P : string * V -> Prop) (k : string) (v : V)
  (d : Dict.t V) :
  (forall v', P (k, v') -> P (k, v)) -> P (k, v) ->
  Forall P d -> Forall P (Dict.set k v d).
Proof.
  intros Hsame Hkv. induction d as [|[k' v'] d IH]; cbn [Dict.set].
  - intros _. by constructor.
  - intros [Hhd Htl]%Forall_cons. destruct (String.eqb_spec k' k) as [->|Hne].
    + by constructor.
    + constructor; [done|by apply IH].
Qed.

Lemma dict_mem_set {V} (k : string) (v : V) (d : Dict.t V) :
  Dict.mem k (Dict.set k v d) = true.
Proof. apply dict_mem_keys, dict_keys_set_elem. by left. Qed.

(** One turn of the loop leaves the reports as they were or files one
    object that carries the schema analysis under the key of the sheet;
    it files nothing for a sheet that did not load. *)
Lemma process_sheet_reports path engine user reports inferred sheet loaded w :
  let reports' :=
    fst (fst (process_sheet json_loads json_dumps path engine user
                (reports, inferred) sheet loaded w)) in
  reports' = reports
  \/ exists frame report,
       loaded = Some frame /\ carries_analysis report = true
       /\ reports' = Dict.set (report_key sheet) report reports.
Proof.
  cbv zeta. unfold process_sheet. destruct loaded as [frame|]; [|by left].
  unfold allocate.
  destruct (run_validation_for_sheet _ _ _ _ _ _ _ _) as [[[r an] inf] w2].
  destruct r; try by left. right. eexists frame, _. split; [done|].
  split; [|done]. apply dict_mem_set.
Qed.

Lemma process_sheets_reports path engine user sheets : forall reports inferred w,
  NoDup (Dict.keys reports) ->
  Forall (fun kr => carries_analysis (snd kr) = true) reports ->
  let reports' :=
    fst (fst (process_sheets json_loads json_dumps path engine user
                (reports, inferred) sheets w)) in
  Dict.keys reports' ⊆ Dict.keys reports ++ loaded_keys sheets
  /\ NoDup (Dict.keys reports')
  /\ Forall (fun kr => carries_analysis (snd kr) = true) reports'.
Proof.
  induction sheets as [|[sheet loaded] rest IH]; intros reports inferred w Hnd Hall;
    cbv zeta; cbn [process_sheets].
  - split; [|done]. intros k Hk. apply elem_of_app. by left.
  - pose proof (process_sheet_reports path engine user reports inferred sheet
                  loaded w) as Hturn. cbv zeta in Hturn.
    destruct (process_sheet json_loads json_dumps path engine user
                (reports, inferred) sheet loaded w) as [[reports1 inferred1] w1].
    cbn [fst] in Hturn.
    destruct Hturn as [->|(frame & report & -> & Hrep & ->)].
    + destruct (IH reports inferred1 w1 Hnd Hall) as (Hk & Hn & Hf).
      split; [|done]. intros k Hin. apply Hk in Hin.
      apply elem_of_app in Hin as [Hin|Hin]; apply elem_of_app; [by left|right].
      unfold loaded_keys. cbn [omap]. by destruct loaded; [right|].
    + destruct (IH (Dict.set (report_key sheet) report reports) inferred1 w1)
        as (Hk & Hn & Hf).
      * by apply dict_set_nodup.
      * by apply dict_set_forall.
      * split; [|done]. intros k Hin. apply Hk in Hin.
        apply elem_of_app in Hin as [Hin|Hin]; apply elem_of_app.
        -- apply dict_keys_set_elem in Hin as [->|Hin]; [right|by left].
           unfold loaded_keys. cbn [omap]. left.
        -- right. unfold loaded_keys. cbn [omap]. by right.
Qed.

End SheetReports.

(** X21: the reports the loop over the sheets collects are filed under the
    keys of sheets that loaded, with one report for a key at most, and
    each of them is an object that carries the schema analysis of its
    sheet. *)
Theorem sheet_reports_of_loaded_sheets
  (json_loads : string -> option Json) (json_dumps : Json -> string)
  (path : string) (engine : Database) (user : option string)
  (sheets : list (option string * option DataFrame)) (w : World) :
  let reports :=
    fst (fst (process_sheets json_loads json_dumps path engine user
                ([], None) sheets w)) in
  Dict.keys reports ⊆ loaded_keys sheets
  /\ NoDup (Dict.keys reports)
  /\ Forall (fun kr => carries_analysis (snd kr) = true) reports.
Proof.
  apply (process_sheets_reports json_loads json_dumps path engine user sheets
           [] None w); [apply NoDup_nil_2|constructor].
Qed.

(** ** The output of a CSV file *)

Section Flattening.

Lemma dict_get_set_same {V} (k : string) (v : V) (d : Dict.t V) :
  Dict.get k (Dict.set k v d) = Some v.
Proof.
  induction d as [|[k' v'] d IH]; cbn [Dict.set Dict.get].
  - by rewrite String.eqb_refl.
  - destruct (String.eqb k' k) eqn:E; cbn [Dict.get]; by rewrite E.
Qed.

Lemma dict_get_set_other {V} (k k0 : string) (v : V) (d : Dict.t V) :
  k0 <> k -> Dict.get k0 (Dict.set k v d) = Dict.get k0 d.
Proof.
  intros Hne. induction d as [|[k' v'] d IH]; cbn [Dict.set Dict.get].
  - by destruct (String.eqb_spec k k0).
  - destruct (String.eqb_spec k' k) as [->|Hk]; cbn [Dict.get].
    + by destruct (String.eqb_spec k k0).
    + by rewrite IH.
Qed.

Lemma dict_get_absent {V} (k : string) (d : Dict.t V) :
  k ∉ Dict.keys d -> Dict.get k d = None.
Proof.
  intros Hk. destruct (Dict.get k d) eqn:E; [|done].
  apply dict_get_elem in E. exfalso. apply Hk.
  apply list_elem_of_fmap. by eexists (_, _).
Qed.

(** [d.update(l)]: the entries of [l] first, then those of [d]. *)
Lemma dict_update_get (l : Dict.t Json) : forall (d : Dict.t Json) (k : string),
  NoDup (Dict.keys l) ->
  Dict.get k (fold_left (fun d '(k, v) => Dict.set k v d) l d)
  = match Dict.get k l with
    | Some v => Some v
    | None => Dict.get k d
    end.
Proof.
  induction l as [|[k1 v1] l IH]; intros d k Hnd; [done|].
  cbn [Dict.keys map fst] in Hnd. apply NoDup_cons in Hnd as [Hfresh Hnd].
  cbn [fold_left Dict.get]. rewrite IH by done.
  destruct (String.eqb_spec k1 k) as [->|Hne].
  - rewrite (dict_get_absent k l) by done. apply dict_get_set_same.
  - destruct (Dict.get k l); [done|]. by apply dict_get_set_other.
Qed.

End Flattening.

(** X22: for a file that is not a workbook whose sheet report is an object
    with distinct keys, the output holds every field of the report with
    its value, and a field of the header only where the report has no
    field of that name. *)
Theorem csv_report_overrides_header
  (path : string) (user : option string) (processed_at : string)
  (reports : Dict.t Json) (inferred : option string) (fields : Dict.t Json) :
  is_excel path = false ->
  Dict.get "csv_data" reports = Some (JObj fields) ->
  NoDup (Dict.keys fields) ->
  exists out,
    final_output path user processed_at reports inferred = JObj out
    /\ forall k,
         Dict.get k out
         = match Dict.get k fields with
           | Some v => Some v
           | None => Dict.get k (output_header path user processed_at inferred)
           end.
Proof.
  intros Hcsv Hget Hnd. unfold final_output. cbv zeta. rewrite Hcsv, Hget.
  cbn [default]. eexists. split; [reflexivity|].
  intros k. by apply dict_update_get.
Qed.

(** ** The tables offered to the user *)

Section Candidates.

Lemma all_schemas_step (engine : Database) (name : string)
  (l : list (string * DBSchema)) : forall acc : Dict.t (Dict.t string),
  name ∈ Dict.keys
           (fold_left
              (fun all_schemas '(table_name, _) =>
                 match get_db_schema engine table_name with
                 | Some (e :: schema) =>
                     Dict.set table_name
                       (fold_left
                          (fun m '(col, det) => Dict.set col (db_type_base det) m)
                          (e :: schema) [])
                       all_schemas
                 | _ => all_schemas
                 end) l acc)
  <-> name ∈ Dict.keys acc
      \/ (name ∈ map fst l
          /\ exists e schema, get_db_schema engine name = Some (e :: schema)).
Proof.
  induction l as [|[t x] l IH]; intros acc; cbn [fold_left map fst].
  - split; [by left|]. intros [?|[H%elem_of_nil _]]; [done|contradiction].
  - rewrite IH. rewrite elem_of_cons.
    destruct (get_db_schema engine t) as [[|e schema]|] eqn:E.
    + split; [tauto|]. intros [Ha|[[->|Hl] (e & s & Hs)]]; [tauto|congruence|].
      right. split; [done|]. by eexists _, _.
    + rewrite dict_keys_set_elem. split.
      * intros [[->|?]|?]; [|tauto..]. right. split; [by left|]. by eexists _, _.
      * intros [?|[[->|?] ?]]; tauto.
    + split; [tauto|]. intros [Ha|[[->|Hl] (e & s & Hs)]]; [tauto|congruence|].
      right. split; [done|]. by eexists _, _.
Qed.

Lemma all_schemas_keys (engine : Database) (name : string) :
  name ∈ Dict.keys (get_all_table_schemas engine)
  <-> exists e schema, get_db_schema engine name = Some (e :: schema).
Proof.
  unfold get_all_table_schemas. rewrite all_schemas_step. split.
  - intros [H0%elem_of_nil|[_ H]]; [contradiction|done].
  - intros (e & schema & H). right. split; [|by eexists _, _].
    unfold get_db_schema in H. apply dict_get_elem in H.
    apply list_elem_of_fmap. by eexists (_, _).
Qed.

Lemma is_candidate_elem (selection : string) (names : list string) :
  is_candidate selection names = true <-> selection ∈ names.
Proof.
  unfold is_candidate. rewrite existsb_exists. split.
  - intros (x & Hx%list_elem_of_In & ->%String.eqb_eq). done.
  - intros H. exists selection. split; [by apply list_elem_of_In|].
    apply String.eqb_refl.
Qed.

End Candidates.


(** ** The retries of the model call *)

Section Retries.

Variable api : nat -> Retry.ApiOutcome.
Variable max_retries : Z.

Lemma rate_limited_all (from k : nat) :
  (forall j, (j < k)%nat -> api (from + j) = Retry.RateLimitError) ->
  Retry.rate_limited api from k = k.
Proof.
  unfold Retry.rate_limited. revert from.
  induction k as [|k IH]; intros from Hall; [done|].
  cbn [seq map List.filter]. pose proof (Hall 0%nat ltac:(lia)) as H0.
  rewrite Nat.add_0_r in H0. rewrite H0. cbn [Retry.is_rate_limit length].
  f_equal. apply IH. intros j Hj.
  replace (S from + j)%nat with (from + S j)%nat by lia. apply Hall. lia.
Qed.

Lemma rate_limited_last (from k : nat) :
  Retry.rate_limited api from (S k)
  = (Retry.rate_limited api from k
     + if Retry.is_rate_limit (api (from + k)) then 1 else 0)%nat.
Proof.
  unfold Retry.rate_limited.
  rewrite seq_S, map_app, List.filter_app, length_app. cbn [map List.filter].
  by destruct (Retry.is_rate_limit (api (from + k))).
Qed.

(** What the turns that are left come to: the calls before the last are
    rate-limited; the last one replies, fails, or is rate-limited as well
    when the turns run out. *)
Lemma attempts_spec (remaining : nat) : forall attempt st,
  let r := fst (Retry.attempts api max_retries remaining attempt st) in
  let st' := snd (Retry.attempts api max_retries remaining attempt st) in
  exists k,
    Retry.calls st' = (Retry.calls st + k)%nat
    /\ (k <= remaining)%nat
    /\ (forall j, (S j < k)%nat -> api (Retry.calls st + j) = Retry.RateLimitError)
    /\ Retry.slept st'
       = (Retry.slept st + 60 * Retry.rate_limited api (Retry.calls st) k)%nat
    /\ match r with
       | Some text =>
           exists k0, k = S k0 /\ api (Retry.calls st + k0) = Retry.Reply text
       | None =>
           (k = remaining
            /\ forall j, (j < k)%nat -> api (Retry.calls st + j) = Retry.RateLimitError)
           \/ exists k0 message,
                k = S k0 /\ api (Retry.calls st + k0) = Retry.OtherError message
       end.
Proof.
  induction remaining as [|remaining IH]; intros attempt st; cbv zeta;
    cbn [Retry.attempts].
  - exists 0%nat. cbn. repeat split; try lia. left. split; [done|]. lia.
  - cbn [Retry.calls Retry.record].
    destruct (api (Retry.calls st)) as [text| |message] eqn:E.
    + exists 1%nat. cbn [fst snd Retry.called Retry.calls Retry.slept Retry.record].
      split; [lia|]. split; [lia|]. split; [intros j Hj; lia|]. split.
      * rewrite (rate_limited_last _ 0), Nat.add_0_r, E. cbn. lia.
      * exists 0%nat. by rewrite Nat.add_0_r.
    + match goal with |- context [Retry.attempts _ _ _ _ ?s] =>
        specialize (IH (S attempt) s); set (st1 := s) in * end.
      cbv zeta in IH. destruct IH as (k & Hc & Hk & Hlim & Hs & Hr).
      assert (Hc1 : Retry.calls st1 = S (Retry.calls st)) by done.
      assert (Hs1 : Retry.slept st1 = (Retry.slept st + 60)%nat) by done.
      assert (Hfirst : forall j, (j < S k)%nat ->
                (j = 0 /\ api (Retry.calls st + j) = Retry.RateLimitError)%nat
                \/ exists j', j = S j' /\ (Retry.calls st + j = Retry.calls st1 + j')%nat).
      { intros [|j'] Hj; [left; by rewrite Nat.add_0_r|right].
        exists j'. split; [done|]. rewrite Hc1. lia. }
      exists (S k). split; [rewrite Hc, Hc1; lia|]. split; [lia|]. split.
      { intros j Hj. destruct (Hfirst j ltac:(lia)) as [[_ ?]|(j' & -> & ->)];
          [done|]. apply Hlim. lia. }
      split.
      { rewrite Hs, Hs1, Hc1. unfold Retry.rate_limited. cbn [seq map List.filter].
        rewrite E. cbn [Retry.is_rate_limit length]. lia. }
      destruct (fst (Retry.attempts api max_retries remaining (S attempt) st1)).
      * destruct Hr as (k0 & -> & Hk0). exists (S k0). split; [done|].
        rewrite <- Hk0. f_equal. rewrite Hc1. lia.
      * destruct Hr as [[-> Hall]|(k0 & message & -> & Hk0)].
        -- left. split; [done|]. intros j Hj.
           destruct (Hfirst j Hj) as [[_ ?]|(j' & -> & ->)]; [done|].
           apply Hall. lia.
        -- right. exists (S k0), message. split; [done|].
           rewrite <- Hk0. f_equal. rewrite Hc1. lia.
    + exists 1%nat. cbn [fst snd Retry.called Retry.calls Retry.slept Retry.record].
      split; [lia|]. split; [lia|]. split; [intros j Hj; lia|]. split.
      * rewrite (rate_limited_last _ 0), Nat.add_0_r, E. cbn. lia.
      * right. exists 0%nat, message. by rewrite Nat.add_0_r.
Qed.

End Retries.

(** X24: the call returns a reply exactly when one of its first
    [max_retries] calls of the API replies after rate-limited calls only;
    the text is that of this reply. An error of another kind is not
    retried. *)
Theorem retry_returns_first_reply
  (api : nat -> Retry.ApiOutcome) (max_retries : Z) (st : Retry.State)
  (text : string) :
  fst (Retry.get_llm_streaming_response api max_retries st) = Some text
  <-> exists k,
        (Z.of_nat k < max_retries)%Z
        /\ api (Retry.calls st + k)%nat = Retry.Reply text
        /\ forall j, (j < k)%nat ->
                     api (Retry.calls st + j)%nat = Retry.RateLimitError.
Proof.
  unfold Retry.get_llm_streaming_response.
  pose proof (attempts_spec api max_retries (Z.to_nat max_retries) 0 st) as H.
  cbv zeta in H. destruct H as (k & Hc & Hk & Hlim & Hs & Hr). split.
  - intros E. rewrite E in Hr. destruct Hr as (k0 & -> & Hk0).
    exists k0. split; [lia|]. split; [done|]. intros j Hj. apply Hlim. lia.
  - intros (k1 & Hk1 & Hrep & Hall).
    destruct (fst (Retry.attempts api max_retries (Z.to_nat max_retries) 0 st))
      as [text'|].
    + destruct Hr as (k0 & -> & Hk0).
      destruct (Nat.lt_trichotomy k0 k1) as [Hlt|[->|Hgt]].
      * rewrite (Hall k0 Hlt) in Hk0. discriminate.
      * congruence.
      * rewrite (Hlim k1 ltac:(lia)) in Hrep. discriminate.
    + exfalso. destruct Hr as [[-> Hall']|(k0 & message & -> & Hk0)].
      * rewrite (Hall' k1 ltac:(lia)) in Hrep. discriminate.
      * destruct (Nat.lt_trichotomy k0 k1) as [Hlt|[->|Hgt]].
        -- rewrite (Hall k0 Hlt) in Hk0. discriminate.
        -- congruence.
        -- rewrite (Hlim k1 ltac:(lia)) in Hrep. discriminate.
Qed.

(** X25: the call makes [max_retries] calls of the API at most, none when
    [max_retries] is not positive, and sleeps sixty seconds for each call
    that was rate-limited, with no increase from one retry to the next. *)
Theorem retry_cost
  (api : nat -> Retry.ApiOutcome) (max_retries : Z) (st : Retry.State) :
  let st' := snd (Retry.get_llm_streaming_response api max_retries st) in
  exists k,
    Retry.calls st' = (Retry.calls st + k)%nat
    /\ (Z.of_nat k <= Z.max 0 max_retries)%Z
    /\ Retry.slept st'
       = (Retry.slept st + 60 * Retry.rate_limited api (Retry.calls st) k)%nat.
Proof.
  cbv zeta. unfold Retry.get_llm_streaming_response.
  pose proof (attempts_spec api max_retries (Z.to_nat max_retries) 0 st) as H.
  cbv zeta in H. destruct H as (k & Hc & Hk & _ & Hs & _).
  exists k. split; [done|]. split; [lia|done].
Qed.

(** X26: when each of the first [max_retries] calls is rate-limited, the
    call gives up with no reply after [max_retries] calls and sixty
    seconds of sleep for each of them, the last one included. *)
Theorem retry_exhausted
  (api : nat -> Retry.ApiOutcome) (max_retries : Z) (st : Retry.State) :
  (forall j, (Z.of_nat j < max_retries)%Z ->
             api (Retry.calls st + j)%nat = Retry.RateLimitError) ->
  let n := Z.to_nat max_retries in
  let result := Retry.get_llm_streaming_response api max_retries st in
  fst result = None
  /\ Retry.calls (snd result) = (Retry.calls st + n)%nat
  /\ Retry.slept (snd result) = (Retry.slept st + 60 * n)%nat.
Proof.
  intros Hall. cbv zeta. unfold Retry.get_llm_streaming_response.
  pose proof (attempts_spec api max_retries (Z.to_nat max_retries) 0 st) as H.
  cbv zeta in H. destruct H as (k & Hc & Hk & Hlim & Hs & Hr).
  destruct (fst (Retry.attempts api max_retries (Z.to_nat max_retries) 0 st))
    as [text|].
  - destruct Hr as (k0 & -> & Hk0). rewrite Hall in Hk0 by lia. discriminate.
  - destruct Hr as [[-> Hall']|(k0 & message & -> & Hk0)].
    + split; [done|]. split; [done|].
      rewrite Hs, rate_limited_all; [done|]. intros j Hj. apply Hall. lia.
    + rewrite Hall in Hk0 by lia. discriminate.
Qed.

(** ** The schema the inspector gives *)

Section InspectedSchema.

Variable t : Inspector.Table.

Lemma schema_info_invariant (cols : list Inspector.Column) :
  forall acc : DBSchema,
    (forall col, col ∈ cols -> col ∈ Inspector.table_columns t) ->
    NoDup (Dict.keys acc) -> Forall (Inspector.renders t) acc ->
    let result :=
      fold_left
        (fun schema_info col =>
           Dict.set (Inspector.col_name col)
             {| type := Inspector.col_type col;
                nullable := Inspector.col_nullable col;
                primary_key :=
                  existsb (String.eqb (Inspector.col_name col))
                    (default [] (Inspector.constrained_columns t)) |}
             schema_info) cols acc in
    NoDup (Dict.keys result) /\ Forall (Inspector.renders t) result
    /\ forall c, c ∈ Dict.keys result
                 <-> c ∈ Dict.keys acc \/ c ∈ map Inspector.col_name cols.
Proof.
  induction cols as [|col cols IH]; intros acc Hsub Hnd Hall; cbv zeta;
    cbn [fold_left map].
  - split; [done|]. split; [done|]. intros c. split; [by left|].
    intros [?|H%elem_of_nil]; [done|contradiction].
  - match goal with |- context [fold_left _ cols ?a] =>
      destruct (IH a) as (Hn & Hf & Hk) end.
    + intros c Hc. apply Hsub. by right.
    + by apply dict_set_nodup.
    + apply Forall_forall. intros [c det] Hin.
      apply dict_set_elem in Hin as [[= -> ->]|Hin].
      * split; cbn [fst snd type nullable primary_key].
        -- exists col. split; [apply Hsub; left|done].
        -- rewrite existsb_exists. split.
           ++ intros (x & Hx%list_elem_of_In & ->%String.eqb_eq). done.
           ++ intros Hx. exists (Inspector.col_name col).
              split; [by apply list_elem_of_In|apply String.eqb_refl].
      * rewrite Forall_forall in Hall. by apply Hall.
    + split; [done|]. split; [done|]. intros c. rewrite Hk, dict_keys_set_elem.
      rewrite elem_of_cons. tauto.
Qed.

End InspectedSchema.

(** X27: the schema built from what the inspector lists has one entry for
    each column name and no other; every entry renders a listed column of
    that name, and is flagged as primary key exactly when the name is among
    the constrained columns. *)
Theorem schema_info_renders_columns (t : Inspector.Table) :
  NoDup (Dict.keys (Inspector.schema_info t))
  /\ Forall (Inspector.renders t) (Inspector.schema_info t)
  /\ forall c, c ∈ Dict.keys (Inspector.schema_info t)
               <-> c ∈ map Inspector.col_name (Inspector.table_columns t).
Proof.
  unfold Inspector.schema_info. cbv zeta.
  destruct (schema_info_invariant t (Inspector.table_columns t) [])
    as (Hn & Hf & Hk); [done|apply NoDup_nil_2|constructor|].
  split; [done|]. split; [done|]. intros c. rewrite Hk. split; [|by right].
  intros [H%elem_of_nil|H]; [contradiction|done].
Qed.

(** ** Reading a file into a schema *)

Section FileSchemas.

Variable r : FileReader.Readers.

Lemma profile_some df path sheet :
  exists fs,
    fst (FileReader.profile df path sheet) = Some fs
    /\ fs = fst (profile_frame path sheet (Frame.dropna_all df)).
Proof.
  unfold FileReader.profile.
  rewrite (extract_schema_from_df_live 0 path sheet {[0%nat := df]} df)
    by apply lookup_singleton_eq.
  by eexists.
Qed.

Lemma profile_frame_names path sheet frame :
  file_name (fst (profile_frame path sheet frame)) = path
  /\ sheet_name (fst (profile_frame path sheet frame)) = sheet.
Proof.
  unfold profile_frame. destruct (Frame.empty frame); [done|].
  by destruct (profile_columns _ _ _).
Qed.

End FileSchemas.

(** X28: reading a file gives no schema at all in two cases only: the path
    ends neither in [.csv] nor in [.xls] or [.xlsx], or it ends in [.csv]
    and the file is not found. A workbook that is not found, or whose
    sheet cannot be read, gives a schema that carries the error. *)
Theorem extract_file_schema_none
  (r : FileReader.Readers) (path : string) (sheet : option string) :
  fst (FileReader.extract_file_schema r path sheet) = None
  <-> (Text.ends_with ".csv" path = false /\ is_excel path = false)
      \/ (Text.ends_with ".csv" path = true
          /\ exists e, FileReader.read_csv r path = FileReader.FileNotFound e).
Proof.
  unfold FileReader.extract_file_schema.
  destruct (Text.ends_with ".csv" path) eqn:Hcsv.
  - destruct (FileReader.read_csv r path) as [df|e|e] eqn:Hread.
    + destruct (profile_some df path None) as (fs & Hp & _).
      destruct (FileReader.profile df path None) as [o l]. cbn [fst] in *.
      subst o. split; [done|].
      intros [[? _]|[_ [e ?]]]; discriminate.
    + split; [|done]. intros _. right. split; [done|]. by exists e.
    + split; [done|]. intros [[? _]|[_ [e' ?]]]; discriminate.
  - destruct (is_excel path) eqn:Hx.
    + split; [|intros [[_ ?]|[? _]]; discriminate].
      destruct (FileReader.read_excel r path sheet) as [df|e|e]; try done.
      destruct sheet as [s|].
      * destruct (profile_some df path (Some s)) as (fs & Hp & _).
        destruct (FileReader.profile df path (Some s)) as [o l]. cbn [fst] in *.
        by subst o.
      * destruct (FileReader.sheet_names r path) as [[|first rest]|e|e]; try done.
        destruct (profile_some df path (Some first)) as (fs & Hp & _).
        destruct (FileReader.profile df path (Some first)) as [o l].
        cbn [fst] in *. by subst o.
    + split; [by left|done].
Qed.


(** ** The properties on sample data *)

Lemma profile_frame_well_formed_witness :
  columns (fst (profile_frame "orders.csv" None Sample.orders_sheet))
  = Some [("Qty", Cases.quantity_profile)]
  /\ ("Qty", Cases.quantity_profile) ∈ [("Qty", Cases.quantity_profile)]
  /\ (null_count Cases.quantity_profile
      <= total_rows (fst (profile_frame "orders.csv" None
                            Sample.orders_sheet)))%nat
  /\ (length (sample_values Cases.quantity_profile) <= 5)%nat
  /\ Forall (fun v => serialisable v = true) (sample_values Cases.quantity_profile)
  /\ exists l, l ∈ Frame.labels Sample.orders_sheet
               /\ label_str l = "Qty".
Proof.
  split; [|split; [left|]].
  - vm_compute. reflexivity.
  - apply (profile_frame_well_formed "orders.csv" None
             Sample.orders_sheet
             [("Qty", Cases.quantity_profile)] "Qty" Cases.quantity_profile).
    + vm_compute. reflexivity.
    + left.
Defined.

Lemma profile_frame_duplicate_label_witness :
  Frame.empty Sample.twice_frame = false
  /\ (1 < length (Frame.positions (LStr "Quantity") Sample.twice_frame))%nat
  /\ fst (profile_frame "orders.csv" None Sample.twice_frame)
     = minimal_schema "orders.csv" None (Some no_unique_attribute).
Proof.
  split; [reflexivity|]. split; [vm_compute; lia|].
  apply (profile_frame_duplicate_label "orders.csv" None Sample.twice_frame
           (LStr "Quantity")); [reflexivity|vm_compute; lia].
Defined.

Lemma compare_schemas_exact_match_witness :
  extraction_failed Sample.orders_schema = false
  /\ NoDup (reported_missing (compare_schemas Sample.orders_schema Sample.orders_db))
  /\ NoDup (reported_extra (compare_schemas Sample.orders_schema Sample.orders_db))
  /\ (reported_missing (compare_schemas Sample.orders_schema Sample.orders_db) = []
      /\ reported_extra (compare_schemas Sample.orders_schema Sample.orders_db) = []
      <-> file_column_names Sample.orders_schema = db_column_names Sample.orders_db).
Proof.
  split; [reflexivity|].
  apply (compare_schemas_exact_match Sample.orders_schema Sample.orders_db).
  reflexivity.
Defined.

Lemma validate_data_types_complete_witness :
  ("Quantity", Cases.quantity_column) ∈ Sample.quantity_db
  /\ Frame.getitem (LStr "Quantity") Sample.quantity_mixed
     = Frame.Series Object [CInt 5; CInt 0; CInt (-1); CStr "abc"]
  /\ Dict.get (db_type_base Cases.quantity_column) sql_to_pandas_map = Some "int64"
  /\ "int64" <> dtype_name Object
  /\ temporal_as_text Cases.quantity_column Object = false
  /\ exists v, v ∈ fst (validate_data_types Sample.quantity_mixed Sample.quantity_db)
               /\ tv_column v = "Quantity"
               /\ expected_db_type v = db_type_base Cases.quantity_column
               /\ found_file_type v = dtype_name Object.
Proof.
  assert (H1 : ("Quantity", Cases.quantity_column) ∈ Sample.quantity_db) by left.
  assert (H3 : Dict.get (db_type_base Cases.quantity_column) sql_to_pandas_map
               = Some "int64") by (vm_compute; reflexivity).
  assert (H4 : "int64" <> dtype_name Object) by (vm_compute; discriminate).
  split; [exact H1|]. split; [reflexivity|]. split; [exact H3|].
  split; [exact H4|]. split; [reflexivity|].
  exact (validate_data_types_complete Sample.quantity_mixed Sample.quantity_db
           "Quantity" Cases.quantity_column Object
           [CInt 5; CInt 0; CInt (-1); CStr "abc"] "int64"
           H1 eq_refl H3 H4 eq_refl).
Defined.

Lemma not_null_violation_exact_witness :
  NoDup (Dict.keys Sample.stock_db)
  /\ ("Stock", Cases.stock_column) ∈ Sample.stock_db
  /\ Frame.getitem (LStr "Stock") Sample.stock_frame
     = Frame.Series Object [CNull; CStr EmptyString; CStr "7"]
  /\ ((exists idx, not_null_violation "Stock" 1 idx
                   ∈ fst (run_data_quality_checks Sample.stock_frame Sample.stock_db
                            Sample.engine "orders"))
      <-> nullable Cases.stock_column = false
          /\ 1%nat = Frame.count is_null [CNull; CStr EmptyString; CStr "7"]
          /\ (0 < 1)%nat).
Proof.
  assert (H1 : NoDup (Dict.keys Sample.stock_db)).
  { apply (bool_decide_unpack _). vm_compute. reflexivity. }
  assert (H2 : ("Stock", Cases.stock_column) ∈ Sample.stock_db) by left.
  split; [exact H1|]. split; [exact H2|]. split; [reflexivity|].
  exact (not_null_violation_exact Sample.stock_frame Sample.stock_db Sample.engine
           "orders" "Stock" Cases.stock_column Object
           [CNull; CStr EmptyString; CStr "7"] 1 H1 H2 eq_refl).
Defined.

Lemma primary_key_violation_exact_witness :
  NoDup (Dict.keys Cases.order_ids_db)
  /\ ("OrderID", Cases.order_id_column) ∈ Cases.order_ids_db
  /\ Frame.getitem (LStr "OrderID") Cases.order_ids
     = Frame.Series Int64 [CInt 1; CInt 2; CInt 1; CNull; CInt 2; CInt 1]
  /\ ((exists k n s, primary_key_violation "OrderID" k n s
                     ∈ fst (run_data_quality_checks Cases.order_ids
                              Cases.order_ids_db Sample.engine "orders"))
      <-> primary_key Cases.order_id_column = true
          /\ exists x, x ∈ [CInt 1; CInt 2; CInt 1; CNull; CInt 2; CInt 1]
                       /\ is_null x = false
                       /\ (1 < Frame.count (cell_eqb x)
                                 [CInt 1; CInt 2; CInt 1; CNull; CInt 2; CInt 1])%nat).
Proof.
  assert (H1 : NoDup (Dict.keys Cases.order_ids_db)).
  { apply (bool_decide_unpack _). vm_compute. reflexivity. }
  assert (H2 : ("OrderID", Cases.order_id_column) ∈ Cases.order_ids_db) by left.
  split; [exact H1|]. split; [exact H2|]. split; [reflexivity|].
  exact (primary_key_violation_exact Cases.order_ids Cases.order_ids_db
           Sample.engine "orders" "OrderID" Cases.order_id_column Int64
           [CInt 1; CInt 2; CInt 1; CNull; CInt 2; CInt 1] H1 H2 eq_refl).
Defined.

Example order_ids_duplicates :
  fst (run_data_quality_checks Cases.order_ids Cases.order_ids_db
         Sample.engine "orders")
  = [not_null_violation "OrderID" 1 [3%Z];
     primary_key_violation "OrderID" 2 5 [CInt 1; CInt 2]].
Proof. vm_compute. reflexivity. Qed.



Lemma matched_literal_is_a_number_witness :
  CheckPattern.match_check "Price" "price>=-12.50 AND price < 100"
  = Some (CheckPattern.Ge, "-12.50")
  /\ exists value, Numeric.of_text "-12.50" = Some value.
Proof.
  assert (H : CheckPattern.match_check "Price" "price>=-12.50 AND price < 100"
              = Some (CheckPattern.Ge, "-12.50")) by (vm_compute; reflexivity).
  split; [exact H|].
  exact (matched_literal_is_a_number "Price" "price>=-12.50 AND price < 100"
           CheckPattern.Ge "-12.50" H).
Defined.


Lemma missing_table_fails_quietly_witness :
  get_db_schema Sample.order_lines "customers" = None
  /\ (let '((report, analysis, inferred), w') :=
        run_validation_for_sheet Sample.json_loads Sample.json_dumps 0%nat
          "orders.csv" None Sample.order_lines (Some "customers")
          (Cases.sheet_world [] [Some "rename"]) in
      report_status report = Some "Error"
      /\ analysis = JObj [] /\ inferred = None
      /\ quiet (Cases.sheet_world [] [Some "rename"]) w').
Proof.
  split; [reflexivity|].
  exact (missing_table_fails_quietly Sample.json_loads Sample.json_dumps 0%nat
           "orders.csv" None Sample.order_lines "customers"
           (Cases.sheet_world [] [Some "rename"]) eq_refl).
Defined.

Lemma unparsed_final_report_saves_nothing_witness :
  llm (Cases.sheet_world [] [Some "rename"; Some "{}"; Some "not json"; None])
  = Some "rename" :: Some "{}" :: Some "not json" :: [None]
  /\ Some "not json" ≫= Sample.json_loads = None
  /\ (let '((report, _, _), w') :=
        run_validation_for_sheet Sample.json_loads Sample.json_dumps 0%nat
          "orders.csv" None Sample.order_lines (Some "orders")
          (Cases.sheet_world [] [Some "rename"; Some "{}"; Some "not json"; None]) in
      report_status report = Some "Error"
      /\ directory w'
         = directory (Cases.sheet_world []
                        [Some "rename"; Some "{}"; Some "not json"; None])).
Proof.
  split; [reflexivity|]. split; [reflexivity|].
  exact (unparsed_final_report_saves_nothing Sample.json_loads Sample.json_dumps
           0%nat "orders.csv" None Sample.order_lines (Some "orders")
           (Cases.sheet_world [] [Some "rename"; Some "{}"; Some "not json"; None])
           (Some "rename") (Some "{}") (Some "not json") [None] eq_refl eq_refl).
Defined.

Lemma csv_report_overrides_header_witness :
  is_excel "orders.csv" = false
  /\ Dict.get "csv_data" [("csv_data", JObj [("Processed_at", JStr "by the model")])]
     = Some (JObj [("Processed_at", JStr "by the model")])
  /\ NoDup (Dict.keys [("Processed_at", JStr "by the model")])
  /\ exists out,
       final_output "orders.csv" None "2024-01-01T00:00:00+00:00"
         [("csv_data", JObj [("Processed_at", JStr "by the model")])] None
       = JObj out
       /\ forall k,
            Dict.get k out
            = match Dict.get k [("Processed_at", JStr "by the model")] with
              | Some v => Some v
              | None =>
                  Dict.get k (output_header "orders.csv" None
                                "2024-01-01T00:00:00+00:00" None)
              end.
Proof.
  assert (H3 : NoDup (Dict.keys [("Processed_at", JStr "by the model")])).
  { apply (bool_decide_unpack _). vm_compute. reflexivity. }
  split; [reflexivity|]. split; [reflexivity|]. split; [exact H3|].
  exact (csv_report_overrides_header "orders.csv" None "2024-01-01T00:00:00+00:00"
           [("csv_data", JObj [("Processed_at", JStr "by the model")])] None
           [("Processed_at", JStr "by the model")] eq_refl eq_refl H3).
Defined.


Lemma retry_exhausted_witness :
  (forall j, (Z.of_nat j < 3)%Z ->
             Cases.busy_api (Retry.calls Cases.fresh_state + j)%nat
             = Retry.RateLimitError)
  /\ (let n := Z.to_nat 3 in
      let result := Retry.get_llm_streaming_response Cases.busy_api 3
                      Cases.fresh_state in
      fst result = None
      /\ Retry.calls (snd result) = (Retry.calls Cases.fresh_state + n)%nat
      /\ Retry.slept (snd result) = (Retry.slept Cases.fresh_state + 60 * n)%nat).
Proof.
  assert (H : forall j, (Z.of_nat j < 3)%Z ->
                Cases.busy_api (Retry.calls Cases.fresh_state + j)%nat
                = Retry.RateLimitError) by reflexivity.
  split; [exact H|].
  exact (retry_exhausted Cases.busy_api 3 Cases.fresh_state H).
Defined.

Example retry_three_times :
  let result := Retry.get_llm_streaming_response Cases.busy_api 3 Cases.fresh_state in
  fst result = None /\ Retry.calls (snd result) = 3%nat
  /\ Retry.slept (snd result) = 180%nat.
Proof. vm_compute. by repeat split. Qed.

